(** * MoniMEPs: a shallow embedding of the fetch / extract / translate pipeline

    The Python sources [codes/speech.py] and [codes/voting.py] are embedded
    function by function.  Python [str] values are lists of Unicode code
    points, exceptions are values of an error monad, and the collaborators
    the program calls (HTTP client, XML parser, language detector,
    translation provider, file system) are oracles passed as parameters. *)

From Stdlib Require Import ZArith NArith Lia String Ascii DecimalString.
From stdpp Require Import base tactics option list gmap.

Local Open Scope Z_scope.

(** ** Python strings *)

Module Str.

(** A [str] is a sequence of code points.  Text that is written to a
    file is taken to be text that can be encoded (no surrogate code
    points), so that writing it raises nothing of its own. *)
Abbreviation str := (list N).

(** Code points of an ASCII literal. *)
Definition u (s : string) : str :=
  (fun a => N_of_ascii a) <$> list_ascii_of_string s.

Definition SPACE : N := 32%N.
Definition NEWLINE : N := 10%N.
Definition EN_DASH : N := 8211%N.

(** [str.isspace] on one code point: the code points CPython lists in
    [_PyUnicode_IsWhitespace]. *)
Definition isspace (c : N) : bool :=
  ((9 <=? c) && (c <=? 13) || (28 <=? c) && (c <=? 32)
   || (c =? 133) || (c =? 160) || (c =? 5760)
   || (8192 <=? c) && (c <=? 8202) || (c =? 8232) || (c =? 8233)
   || (c =? 8239) || (c =? 8287) || (c =? 12288))%N.

Fixpoint lstrip_by (p : N -> bool) (s : str) : str :=
  match s with
  | c :: r => if p c then lstrip_by p r else s
  | [] => []
  end.

Definition rstrip_by (p : N -> bool) (s : str) : str :=
  rev (lstrip_by p (rev s)).

(** [s.strip()] *)
Definition strip (s : str) : str := rstrip_by isspace (lstrip_by isspace s).

(** [s.lstrip(chars)] *)
Definition lstrip_chars (chars s : str) : str :=
  lstrip_by (fun c => bool_decide (c ∈ chars)) s.

Fixpoint startswith (p s : str) : bool :=
  match p, s with
  | [], _ => true
  | a :: p', b :: s' => (a =? b)%N && startswith p' s'
  | _ :: _, [] => false
  end.

Definition endswith (p s : str) : bool := startswith (rev p) (rev s).

(** [sub in s] *)
Fixpoint contains (sub s : str) : bool :=
  startswith sub s ||
  match s with
  | [] => false
  | _ :: r => contains sub r
  end.

(** [s.split(sep)] limited to [maxsplit] cuts, for a non-empty [sep];
    [acc] is the current field in reverse. *)
Fixpoint split_go (sep : str) (maxsplit : nat) (skip : nat) (acc : str)
    (s : str) : list str :=
  match s with
  | [] => [rev acc]
  | c :: r =>
      match skip with
      | S k => split_go sep maxsplit k acc r
      | O =>
          match maxsplit with
          | O => [rev acc ++ s]
          | S m =>
              if startswith sep s
              then rev acc :: split_go sep m (length sep - 1) [] r
              else split_go sep maxsplit O (c :: acc) r
          end
      end
  end.

Definition split_n (sep : str) (maxsplit : nat) (s : str) : list str :=
  split_go sep maxsplit O [] s.

(** [s.split(sep)] with no limit: there are at most [length s] cuts. *)
Definition split (sep s : str) : list str := split_n sep (length s) s.

(** [sep.join(parts)] *)
Fixpoint join (sep : str) (parts : list str) : str :=
  match parts with
  | [] => []
  | [p] => p
  | p :: rest => p ++ sep ++ join sep rest
  end.

(** Highest index of [c] in [s], as [s.rfind(c)]; [None] stands for -1. *)
Fixpoint rfind (c : N) (s : str) : option nat :=
  match s with
  | [] => None
  | x :: r =>
      match rfind c r with
      | Some i => Some (S i)
      | None => if (x =? c)%N then Some O else None
      end
  end.

(** [s.rfind(c, 0, stop)] for [0 <= stop]. *)
Definition rfind_upto (c : N) (stop : nat) (s : str) : option nat :=
  rfind c (take stop s).

(** Decimal rendering of an integer, as [str(n)]. *)
Definition of_Z (z : Z) : str := u (NilZero.string_of_int (Z.to_int z)).

(** Zero-padded decimal of fixed width, as [%02d] / [%04d]. *)
Fixpoint pad_digits (width : nat) (z : Z) : str :=
  match width with
  | O => []
  | S w => pad_digits w (z / 10) ++ [Z.to_N (48 + z mod 10)]
  end.

End Str.

Import Str.

(** ** Translation stage: chunk splitting ([speech.py], lines 202-212) *)

Module Chunks.

(** The index at which the loop body cuts [text]: the last space before
    [max_length], or [max_length] when there is none. *)
Definition split_index (text : str) (max_length : nat) : nat :=
  match rfind_upto SPACE max_length text with
  | Some i => i
  | None => max_length
  end.

(** The text left for the next iteration: [text[split_index:].strip()]. *)
Definition remaining (text : str) (max_length : nat) : str :=
  strip (drop (split_index text max_length) text).

(** The [while] loop, with a bound on the number of iterations; [None] is
    an exhausted bound. *)
Fixpoint split_loop (fuel : nat) (text : str) (max_length : nat)
    (chunks : list str) : option (list str) :=
  match fuel with
  | O => None
  | S fuel' =>
      if bool_decide (max_length < length text)%nat
      then split_loop fuel' (remaining text max_length) max_length
             (chunks ++ [take (split_index text max_length) text])
      else Some (chunks ++ [text])
  end.

Definition split_text_into_chunks (text : str) (max_length : nat)
  : option (list str) :=
  split_loop (S (length text)) text max_length [].

(** *** What the chunks are compared with *)

(** The chunks written one after the other with a gap after each but the
    last. *)
Fixpoint weave (chunks gaps : list str) : str :=
  match chunks, gaps with
  | c :: cs, g :: gs => c ++ g ++ weave cs gs
  | c :: cs, [] => c ++ concat cs
  | [], _ => []
  end.

(** Only whitespace. *)
Definition blank (s : str) : Prop := Forall (fun c => isspace c = true) s.

(** A cut made by the loop, seen from the chunk it produced and the gap
    deleted after it: at a space before the threshold, or at the threshold
    when the chunk holds no space. *)
Definition cut_at (max_length : nat) (chunk gap : str) : Prop :=
  ((length chunk < max_length)%nat /\ exists rest, gap = SPACE :: rest)
  \/ (length chunk = max_length /\ SPACE ∉ chunk).

End Chunks.

(** ** Dates

    [pandas.Timestamp] values at midnight, as the fetchers receive them from
    [pd.date_range(start, end, freq='D')] over calendar dates: a timestamp
    is the number of days since 1970-01-01 in the proleptic Gregorian
    calendar. *)

Module Dates.

Abbreviation Timestamp := Z.

Definition is_leap (y : Z) : bool :=
  (y mod 4 =? 0) && (negb (y mod 100 =? 0) || (y mod 400 =? 0)).

Definition days_in_month (y m : Z) : Z :=
  if m =? 2 then (if is_leap y then 29 else 28)
  else if (m =? 4) || (m =? 6) || (m =? 9) || (m =? 11) then 30
  else 31.

(** A calendar date: month in 1..12, day within the month. *)
Definition valid_date (y m d : Z) : Prop :=
  1 <= m <= 12 /\ 1 <= d <= days_in_month y m.

Definition days_before_year (y : Z) : Z :=
  365 * (y - 1) + (y - 1) / 4 - (y - 1) / 100 + (y - 1) / 400.

Definition days_before_month (y m : Z) : Z :=
  nth (Z.to_nat (m - 1))
      [0; 31; 59; 90; 120; 151; 181; 212; 243; 273; 304; 334] 0
  + (if (2 <? m) && is_leap y then 1 else 0).

(** [pd.to_datetime] of the ISO date y-m-d. *)
Definition to_datetime (y m d : Z) : Timestamp :=
  days_before_year y + days_before_month y m + d - 719163.

(** The calendar date of a timestamp, as (year, month, day). *)
Definition civil (t : Timestamp) : Z * Z * Z :=
  let z := t + 719468 in
  let era := z / 146097 in
  let doe := z - era * 146097 in
  let yoe := (doe - doe / 1460 + doe / 36524 - doe / 146096) / 365 in
  let doy := doe - (365 * yoe + yoe / 4 - yoe / 100) in
  let mp := (5 * doy + 2) / 153 in
  let d := doy - (153 * mp + 2) / 5 + 1 in
  let m := if mp <? 10 then mp + 3 else mp - 9 in
  let y := yoe + era * 400 + (if m <=? 2 then 1 else 0) in
  (y, m, d).

(** [date.strftime('%Y-%m-%d')] *)
Definition strftime (t : Timestamp) : str :=
  let '(y, m, d) := civil t in
  pad_digits 4 y ++ u "-" ++ pad_digits 2 m ++ u "-" ++ pad_digits 2 d.

(** [pd.date_range(start=start_date, end=end_date, freq='D')] *)
Definition date_range (start_date end_date : Timestamp) : list Timestamp :=
  (fun i => start_date + Z.of_nat i)
    <$> seq 0 (Z.to_nat (end_date - start_date + 1)).

(** The order of calendar dates. *)
Definition date_le (a b : Z * Z * Z) : Prop :=
  let '(y1, m1, d1) := a in
  let '(y2, m2, d2) := b in
  y1 < y2 \/ (y1 = y2 /\ (m1 < m2 \/ (m1 = m2 /\ d1 <= d2))).

Definition date_lt (a b : Z * Z * Z) : Prop :=
  let '(y1, m1, d1) := a in
  let '(y2, m2, d2) := b in
  y1 < y2 \/ (y1 = y2 /\ (m1 < m2 \/ (m1 = m2 /\ d1 < d2))).

Definition year_length (y : Z) : Z := if is_leap y then 366 else 365.

End Dates.

Import Dates.

(** ** Exceptions and the effect monad *)

Module Py.

Inductive exn_class :=
  | ValueError | AttributeError | IndexError | KeyError
  | OSError | FileNotFoundError | PermissionError
  | ConnectionError | TimeoutError
  | RequestException
  | ParseError
  | EmptyDataError | ParserError
  | LangDetectException.

#[global] Instance exn_class_eq_dec : EqDecision exn_class.
Proof. solve_decision. Defined.

(** The direct base class, where it is one the program names. *)
Definition base_class (c : exn_class) : option exn_class :=
  match c with
  | FileNotFoundError | PermissionError | ConnectionError | TimeoutError
  | RequestException => Some OSError
  | EmptyDataError | ParserError => Some ValueError
  | _ => None
  end.

(** [issubclass(c, h)]; the hierarchy above is one level deep. *)
Definition is_a (c h : exn_class) : bool :=
  bool_decide (c = h) || bool_decide (base_class c = Some h).

Record exn := Exn { exn_cls : exn_class; exn_msg : str }.

Inductive result (A : Type) :=
  | Ok (a : A)
  | Raise (e : exn).
Arguments Ok {A} a.
Arguments Raise {A} e.

(** Computations over a state [S] that may raise; the state survives an
    exception, as assignments and writes made before a [raise] do. *)
Definition M (S A : Type) : Type := S -> result A * S.

Definition ret {S A} (a : A) : M S A := fun s => (Ok a, s).
Definition raise {S A} (e : exn) : M S A := fun s => (Raise e, s).
Definition bind {S A B} (m : M S A) (f : A -> M S B) : M S B :=
  fun s => match m s with
           | (Ok a, s') => f a s'
           | (Raise e, s') => (Raise e, s')
           end.
Definition get {S} : M S S := fun s => (Ok s, s).
Definition modify {S} (f : S -> S) : M S unit := fun s => (Ok tt, f s).

(** The first [except] clause that names a class of the exception. *)
Fixpoint find_handler {S A} (clauses : list (list exn_class * (exn -> M S A)))
    (e : exn) : option (exn -> M S A) :=
  match clauses with
  | [] => None
  | (classes, handler) :: rest =>
      if existsb (is_a (exn_cls e)) classes then Some handler
      else find_handler rest e
  end.

(** [try: body] followed by [except (c1, c2, ...) as e: handler(e)]
    clauses, tried in order; an exception no clause names propagates. *)
Definition try_except {S A} (body : M S A)
    (clauses : list (list exn_class * (exn -> M S A))) : M S A :=
  fun s => match body s with
           | (Raise e, s') =>
               match find_handler clauses e with
               | Some handler => handler e s'
               | None => (Raise e, s')
               end
           | r => r
           end.

(** [for x in xs: body(x)] *)
Fixpoint for_each {S A} (xs : list A) (body : A -> M S unit) : M S unit :=
  match xs with
  | [] => ret tt
  | x :: rest => bind (body x) (fun _ => for_each rest body)
  end.

Definition of_result {S A} (r : result A) : M S A := fun s => (r, s).

End Py.

Import Py.

#[global] Instance result_ret : MRet result := fun A a => Ok a.
#[global] Instance result_bind : MBind result :=
  fun A B f r => match r with
                 | Ok a => f a
                 | Raise e => Raise e
                 end.
#[global] Instance M_ret {S} : MRet (M S) := fun A a => ret a.
#[global] Instance M_bind {S} : MBind (M S) := fun A B f m => bind m f.

(** ** The download log and the fetcher's world *)

Module Log.

(** What [pd.read_csv] makes of the log: the header and the data rows. *)
Record frame := Frame { columns : list str; rows : list (list str) }.

(** A CSV file is its lines in order, each split into its fields as the
    reader splits it; a file of size 0 has none.  A line that is empty is
    the record without fields, and a line written as two quotes the
    record of one empty field.  Whether the last line ends with a line
    terminator is recorded beside the file, in the world below.  (A file
    that ends inside an open quoted field has no such lines and is not
    represented.) *)
Abbreviation csv := (list (list str)).

(** A line that is empty or holds only blanks and tabs: [pd.read_csv]
    passes over it. *)
Definition blank_line (row : list str) : bool :=
  match row with
  | [] => true
  | [cell] =>
      negb (bool_decide (cell = []))
      && forallb (fun c => (c =? 32)%N || (c =? 9)%N) cell
  | _ => false
  end.

(** [pd.read_csv(log_path)].  The first line that is not blank is the
    header; without one [EmptyDataError] is raised.  The width of the
    table is that of the header, or of the first data line when that one
    is wider; a later line with more fields raises [ParserError], and one
    with fewer is filled up with missing values.  When the first data line
    is wider than the header, the leading fields of every line are the
    index and the columns are read from the fields after them. *)
Definition read_csv (file : csv) : result frame :=
  match filter (fun row => blank_line row = false) file with
  | [] => Raise (Exn EmptyDataError (u "No columns to parse from file"))
  | header :: data =>
      let width := match data with
                   | [] => length header
                   | first :: _ => Nat.max (length header) (length first)
                   end in
      if forallb (fun row : list str => length row <=? width)%nat data
      then Ok (Frame header (drop (width - length header) <$> data))
      else Raise (Exn ParserError (u "Error tokenizing data"))
  end.

(** A log file of the shape the fetchers write: no line is blank, and
    every line has as many fields as the header.  On such a file
    [pd.read_csv] reads each cell under the header of its position. *)
Definition rectangular (file : csv) : Prop :=
  match file with
  | [] => False
  | header :: data =>
      Forall (fun row => blank_line row = false
                         /\ length row = length header) file
  end.

(** [pd.DataFrame(columns=['Date', 'Status', 'Details'])] *)
Definition HEADER : list str := [u "Date"; u "Status"; u "Details"].
Definition empty_log : frame := Frame HEADER [].

Fixpoint col_index (name : str) (cols : list str) : option nat :=
  match cols with
  | [] => None
  | c :: rest =>
      if bool_decide (c = name) then Some O
      else S <$> col_index name rest
  end.

(** [df.loc[df[key] == value, out]]: the [out] cell of every row whose
    [key] cell equals [value]; a missing column raises [KeyError]. *)
Definition select (df : frame) (key value out : str) : result (list str) :=
  match col_index key (columns df), col_index out (columns df) with
  | Some i, Some j =>
      Ok (omap (fun row : list str =>
                  if bool_decide (row !! i = Some value)
                  then row !! j else None)
               (rows df))
  | None, _ => Raise (Exn KeyError key)
  | _, None => Raise (Exn KeyError out)
  end.

(** [set(df.loc[df['Status'] == status, 'Date'])] *)
Definition dates_with_status (df : frame) (status : str)
  : result (gset str) :=
  match select df (u "Status") status (u "Date") with
  | Ok l => Ok (list_to_set l)
  | Raise e => Raise e
  end.

(** What a run can observe and change: the log file in the output
    directory ([None]: no such file), the raw documents written, the GET
    requests issued (each with the date whose iteration issued it), the
    lines printed, and whether the last line of the log file lacks its
    line terminator. *)
Record world := MkWorld {
  log_file : option csv;
  raw_files : gmap str str;
  requests : list (Timestamp * str);
  stdout : list str;
  log_unterminated : bool
}.

(** A world whose log file, if any, ends with a line terminator. *)
Abbreviation World log raw reqs out := (MkWorld log raw reqs out false).

Definition print (line : str) : M world unit :=
  modify (fun w => MkWorld (log_file w) (raw_files w) (requests w)
                           (stdout w ++ [line]) (log_unterminated w)).

(** [open(log_path, 'a')] creates the file when there is none. *)
Definition open_append : M world unit :=
  modify (fun w => MkWorld (Some (default [] (log_file w))) (raw_files w)
                           (requests w) (stdout w) (log_unterminated w)).

(** What the reader finds in a line that lacked its terminator once the
    text of a row has been written after it: the first field of the row
    continues the last field of the line. *)
Definition glue (last row : list str) : list str :=
  match row, rev last with
  | [], _ => last
  | _, [] => row
  | field :: fields, cell :: cells => rev cells ++ (cell ++ field) :: fields
  end.

(** The file after the writer has appended the text of a row and a line
    terminator: a new line, unless the last line lacked its terminator.
    (The rows the fetchers write start with a date or with [Date], which
    the writer does not quote.) *)
Definition written (file : csv) (unterminated : bool) (row : list str)
  : csv :=
  match unterminated, rev file with
  | true, last :: before => rev before ++ [glue last row]
  | _, _ => file ++ [row]
  end.

(** [log_writer.writerow(row)] *)
Definition writerow (row : list str) : M world unit :=
  modify (fun w =>
    MkWorld (Some (written (default [] (log_file w)) (log_unterminated w)
                     row))
            (raw_files w) (requests w) (stdout w) false).

(** [os.stat(log_path).st_size == 0] *)
Definition log_is_empty (w : world) : bool :=
  bool_decide (default [] (log_file w) = []).

Inductive http_outcome :=
  | Response (status_code : Z) (text : str)
  | RequestFails (message : str).

Section Collaborators.

(** The server: what the n-th GET of the run, for the given URL, gives. *)
Variable http_get : nat -> str -> http_outcome.
(** The file system: [Some message] when writing the path raises [OSError]. *)
Variable write_fails : str -> option str.

(** [requests.get(url, timeout=10)], issued while handling [date]. *)
Definition requests_get (date : Timestamp) (url : str)
  : M world (Z * str) :=
  w ← get;
  modify (fun w => MkWorld (log_file w) (raw_files w)
                           (requests w ++ [(date, url)]) (stdout w)
                           (log_unterminated w));;
  match http_get (length (requests w)) url with
  | Response code text => mret (code, text)
  | RequestFails message => raise (Exn RequestException message)
  end.

(** [with open(file_path, 'w') as f: f.write(content)] *)
Definition write_file (path content : str) : M world unit :=
  match write_fails path with
  | Some message => raise (Exn OSError message)
  | None =>
      modify (fun w => MkWorld (log_file w)
                               (<[path := content]> (raw_files w))
                               (requests w) (stdout w) (log_unterminated w))
  end.

End Collaborators.

(** *** What the resume contract speaks about *)

(** The file has a data row for [date_str] whose status is [status]. *)
Definition has_row (file : csv) (date_str status : str) : Prop :=
  exists header data row i j,
    file = header :: data
    /\ row ∈ data
    /\ col_index (u "Status") header = Some i
    /\ col_index (u "Date") header = Some j
    /\ row !! i = Some status
    /\ row !! j = Some date_str.

(** [date_str] is terminal in the log: it has a row with status
    [Success] or [Not Found]. *)
Definition terminal (log : option csv) (date_str : str) : Prop :=
  exists file,
    log = Some file
    /\ (has_row file date_str (u "Success")
        \/ has_row file date_str (u "Not Found")).

(** Between the worlds [w] and [w'] only requests and log rows were added,
    none of them for [date]. *)
Definition quiet (date : Timestamp) (w w' : world) : Prop :=
  exists reqs rows,
    requests w' = requests w ++ reqs
    /\ default [] (log_file w') = default [] (log_file w) ++ rows
    /\ (date ∉ reqs.*1)
    /\ (forall row, row ∈ rows -> (row !! 0%nat) <> Some (strftime date)).

(** Requests and log rows added between two worlds, the requests
    satisfying [Pq] and the rows [Pr], when the log file of the first
    world ends with a line terminator; that of the second then does
    too. *)
Definition appends (Pq : Timestamp * str -> Prop) (Pr : list str -> Prop)
    (w w' : world) : Prop :=
  log_unterminated w = false ->
  log_unterminated w' = false
  /\ exists reqs rows,
       requests w' = requests w ++ reqs
       /\ default [] (log_file w') = default [] (log_file w) ++ rows
       /\ Forall Pq reqs /\ Forall Pr rows.

(** A computation that only appends requests satisfying [Pq] and rows
    satisfying [Pr], whatever it returns. *)
Definition only_appends {A} Pq Pr (m : M world A) : Prop :=
  forall w, appends Pq Pr w (snd (m w)).

(** The message printed when the header lacks a column. *)
Definition INVALID : str :=
  u "Log file format is invalid. Reinitializing log.".

(** The world after that message. *)
Definition printed_invalid (w : world) : world :=
  MkWorld (log_file w) (raw_files w) (requests w) (stdout w ++ [INVALID])
          (log_unterminated w).

(** There is no log file, or it is rectangular. *)
Definition regular_log (w : world) : Prop :=
  forall file, log_file w = Some file -> rectangular file.

End Log.

Import Log.

(** ** XML trees, as [xml.etree.ElementTree] presents them *)

Module Xml.

#[warnings="-register-all"]
Inductive element := Element {
  tag : str;
  attrib : list (str * str);
  text : option str;
  tail : option str;
  children : list element
}.

(** Truth value of an optional string: [None] and [""] are false. *)
Definition truthy (s : option str) : bool :=
  match s with
  | Some (_ :: _) => true
  | _ => false
  end.

(** [elem.get(key)] *)
Definition get_attr (elem : element) (key : str) : option str :=
  snd <$> head (filter (fun kv => fst kv = key) (attrib elem)).

(** [elem.get(key, default)] *)
Definition get_or (elem : element) (key fallback : str) : str :=
  default fallback (get_attr elem key).

(** [elem.findall(name)]: the direct children with that tag. *)
Definition findall (elem : element) (name : str) : list element :=
  filter (fun c => tag c = name) (children elem).

(** [elem.find(name)] *)
Definition find (elem : element) (name : str) : option element :=
  head (findall elem name).

(** [elem.find("name[@key='value']")] *)
Definition find_with (elem : element) (name key value : str)
  : option element :=
  head (filter (fun c => tag c = name /\ get_attr c key = Some value)
               (children elem)).

(** All elements below [elem], in document order. *)
Fixpoint descendants (elem : element) : list element :=
  match elem with
  | Element _ _ _ _ cs =>
      (fix below (l : list element) : list element :=
         match l with
         | [] => []
         | c :: rest => c :: descendants c ++ below rest
         end) cs
  end.

(** [elem.findall(".//name")] *)
Definition findall_below (elem : element) (name : str) : list element :=
  filter (fun c => tag c = name) (descendants elem).

(** What [ET.parse(path)] gives for a file of a directory: the root of the
    tree, or the exception raised ([ParseError], [FileNotFoundError],
    [PermissionError], ...). *)
Abbreviation directory := (list (str * result element)).

(** [[f for f in os.listdir(input_dir) if f.endswith('.xml')]] *)
Definition xml_files (input_dir : directory) : directory :=
  filter (fun f => endswith (u ".xml") (fst f) = true) input_dir.

End Xml.

Import Xml.

(** ** [codes/speech.py]: term, URL, log and download *)

Module Speech.

Definition date_ranges : list ((Z * Z * Z) * (Z * Z * Z) * Z) :=
  [ ((2019, 7, 2), (2024, 7, 1), 9);
    ((2024, 7, 2), (2029, 7, 1), 10) ].

(** The [for ... in date_ranges.items()] loop of [get_term]. *)
Fixpoint get_term_in (ranges : list ((Z * Z * Z) * (Z * Z * Z) * Z))
    (date : Timestamp) : option Z :=
  match ranges with
  | [] => None
  | ((y1, m1, d1), (y2, m2, d2), code) :: rest =>
      if (to_datetime y1 m1 d1 <=? date) && (date <=? to_datetime y2 m2 d2)
      then Some code
      else get_term_in rest date
  end.

Definition get_term (date : Timestamp) : option Z :=
  get_term_in date_ranges date.

Definition build_url (term : Z) (date : Timestamp) : str :=
  u "https://www.europarl.europa.eu/doceo/document/CRE-"
    ++ of_Z term ++ u "-" ++ strftime date ++ u "_EN.xml".

Definition initialize_log : M world frame :=
  w ← get;
  match log_file w with
  | Some file =>
      log_df ← of_result (read_csv file);
      if negb (bool_decide (u "Status" ∈ columns log_df))
         || negb (bool_decide (u "Date" ∈ columns log_df))
      then print (u "Log file format is invalid. Reinitializing log.");;
           mret empty_log
      else mret log_df
  | None => mret empty_log
  end.

Section Download.

Variable http_get : nat -> str -> http_outcome.
Variable write_fails : str -> option str.

Definition save_speech_file (term : Z) (date_str content : str)
  : M world unit :=
  write_file write_fails
    (u "speeches/CRE-" ++ of_Z term ++ u "-" ++ date_str ++ u ".xml") content.

(** [if not term] *)
Definition not_term (term : option Z) : bool :=
  match term with
  | None => true
  | Some t => t =? 0
  end.

(** The pause after the request ([time.sleep(0.1)]) changes nothing the
    world records and is left out. *)
Definition handle_download (date : Timestamp) (date_str : str)
  : M world unit :=
  try_except
    (let term := get_term date in
     if not_term term
     then writerow [date_str; u "Failed"; u "Term not found"]
     else
       let term := default 0 term in
       let url := build_url term date in
       response ← requests_get http_get date url;
       let '(status_code, text) := response in
       if status_code =? 200
       then save_speech_file term date_str text;;
            writerow [date_str; u "Success"; u "Downloaded"]
       else if status_code =? 404
       then writerow [date_str; u "Not Found"; u "URL not found"]
       else writerow [date_str; u "Failed"; u "HTTP " ++ of_Z status_code])
    [([RequestException],
      fun e => writerow [date_str; u "Request Error"; exn_msg e])].

Definition download_speeches (start_date end_date : Timestamp)
  : M world unit :=
  let dates := date_range start_date end_date in
  log_df ← initialize_log;
  processed_dates ← of_result (dates_with_status log_df (u "Success"));
  not_found_dates ← of_result (dates_with_status log_df (u "Not Found"));
  open_append;;
  w ← get;
  (if log_is_empty w then writerow HEADER else mret tt);;
  for_each dates (fun date =>
    let date_str := strftime date in
    if bool_decide (date_str ∈ processed_dates)
       || bool_decide (date_str ∈ not_found_dates)
    then mret tt
    else handle_download date date_str).

End Download.

(** *** Text assembly ([gather_text]) *)

(** A pattern letter against a text character under [re.IGNORECASE]: the
    letter itself, its upper case, and for [s] the long s (U+017F), which
    the [re] module treats as a case variant. *)
Definition ci_match (p c : N) : bool :=
  ((c =? p) || ((97 <=? p) && (p <=? 122) && (c =? p - 32))
   || ((p =? 115) && (c =? 383)))%N.

Fixpoint istartswith (pattern s : str) : bool :=
  match pattern, s with
  | [], _ => true
  | p :: pattern', c :: s' => ci_match p c && istartswith pattern' s'
  | _ :: _, [] => false
  end.

(** [re.compile(r"^(on behalf of|en nombre del|au nom du|a nome|namens de) ",
    re.IGNORECASE).match(text)] *)
Definition skip_phrases_match (text : str) : bool :=
  existsb (fun phrase => istartswith (phrase ++ u " ") text)
    [u "on behalf of"; u "en nombre del"; u "au nom du"; u "a nome";
     u "namens de"].

(** [re.compile(r"^\(.*\)$").match(text)]: an opening parenthesis first, a
    closing one last (or just before a final newline), and no newline
    before that closing parenthesis. *)
Definition note_match (text : str) : bool :=
  match text with
  | 40%N :: rest =>
      match rev rest with
      | 41%N :: body => bool_decide (NEWLINE ∉ body)
      | 10%N :: 41%N :: body => bool_decide (NEWLINE ∉ body)
      | _ => false
      end
  | _ => false
  end.

(** The test that makes [gather_text] pass over a child. *)
Definition skipped (child : element) : bool :=
  bool_decide (tag child = u "EMPHAS") && truthy (text child)
  && (let text := strip (default [] (text child)) in
      skip_phrases_match text || note_match text).

Fixpoint gather_text (elem : element) : str :=
  match elem with
  | Element _ _ etext _ echildren =>
      let first := if truthy etext then [strip (default [] etext)] else [] in
      let parts :=
        first ++
        (fix over (cs : list element) : list str :=
           match cs with
           | [] => []
           | child :: rest =>
               if skipped child then over rest
               else gather_text child
                    :: (if truthy (tail child)
                        then [strip (default [] (tail child))] else [])
                    ++ over rest
           end) echildren in
      join (u " ") (filter (fun p => p <> []) parts)
  end.

(** *** Duration ([calculate_duration]) *)

(** [\d] on ASCII text: the digits 0 to 9.  (On other text the pattern
    also matches the decimal digits of other scripts; the properties
    below that depend on it are stated for ASCII text.) *)
Definition is_digit (c : N) : bool := ((48 <=? c) && (c <=? 57))%N.

(** Two characters, the first in [lo1..hi1], the second in [lo2..hi2]. *)
Definition two_chars (lo1 hi1 lo2 hi2 : N) (s : str) : option (Z * str) :=
  match s with
  | a :: b :: rest =>
      if ((lo1 <=? a) && (a <=? hi1) && (lo2 <=? b) && (b <=? hi2))%N
      then Some (10 * (Z.of_N a - 48) + (Z.of_N b - 48), rest)
      else None
  | _ => None
  end.

Definition one_digit (s : str) : option (Z * str) :=
  match s with
  | a :: rest => if is_digit a then Some (Z.of_N a - 48, rest) else None
  | _ => None
  end.

(** The ways a group of alternatives matches a prefix, in the order the
    regular expression tries them. *)
Definition alternatives (alts : list (str -> option (Z * str))) (s : str)
  : list (Z * str) :=
  omap (fun alt => alt s) alts.

(** [%H]: [2[0-3]|[0-1]\d|\d] *)
Definition hour_group : str -> list (Z * str) :=
  alternatives [two_chars 50 50 48 51; two_chars 48 49 48 57; one_digit].
(** [%M]: [[0-5]\d|\d] *)
Definition minute_group : str -> list (Z * str) :=
  alternatives [two_chars 48 53 48 57; one_digit].
(** [%S]: [6[0-1]|[0-5]\d|\d] *)
Definition second_group : str -> list (Z * str) :=
  alternatives [two_chars 54 54 48 49; two_chars 48 53 48 57; one_digit].

Definition colon (s : str) : list str :=
  match s with
  | 58%N :: rest => [rest]
  | _ => []
  end.

(** The matches of the pattern for ["%H:%M:%S"] at the start of [s], first
    match first; digits are the ASCII digits. *)
Definition hms_matches (s : str) : list (Z * Z * Z * str) :=
  '(h, s1) ← hour_group s;
  s2 ← colon s1;
  '(m, s3) ← minute_group s2;
  s4 ← colon s3;
  '(sec, s5) ← second_group s4;
  [(h, m, sec, s5)].

(** [datetime.strptime(s, "%H:%M:%S")], as seconds after midnight of the
    default date 1900-01-01. *)
Definition strptime (s : str) : result Z :=
  match hms_matches s with
  | [] => Raise (Exn ValueError (u "time data does not match format"))
  | (h, m, sec, rest) :: _ =>
      if bool_decide (rest <> [])
      then Raise (Exn ValueError (u "unconverted data remains"))
      else if 59 <? sec
      then Raise (Exn ValueError (u "second must be in 0..59"))
      else Ok (h * 3600 + m * 60 + sec)
  end.

(** [timedelta.seconds] of a difference of [seconds]: the seconds part of
    the normalised (days, seconds) pair. *)
Definition timedelta_seconds (seconds : Z) : Z := seconds mod 86400.

Definition calculate_duration (time_start time_end : str)
  : result (option Z) :=
  match
    (start ← strptime (hd [] (split (u ".") time_start));
     end_ ← strptime (hd [] (split (u ".") time_end));
     Ok (Some (timedelta_seconds (end_ - start))))
  with
  | Raise e => if is_a (exn_cls e) ValueError then Ok None else Raise e
  | r => r
  end.

(** *** What the durations are compared with *)

(** The ASCII digit of a value from 0 to 9. *)
Definition digit (d : Z) : N := Z.to_N (48 + d).

(** One or two ASCII digits, with the number they write. *)
Definition number (text : str) (n : Z) : Prop :=
  (exists a, 0 <= a <= 9 /\ text = [digit a] /\ n = a)
  \/ (exists a b, 0 <= a <= 9 /\ 0 <= b <= 9
                  /\ text = [digit a; digit b] /\ n = 10 * a + b).

(** A time of day [H:M:S]: hours to 23, minutes and seconds to 59, each
    written with one or two ASCII digits, and nothing else. *)
Definition time_of_day (text : str) (h m s : Z) : Prop :=
  exists th tm ts,
    text = th ++ u ":" ++ tm ++ u ":" ++ ts
    /\ number th h /\ number tm m /\ number ts s
    /\ h <= 23 /\ m <= 59 /\ s <= 59.

(** Text of ASCII characters only.  Outside ASCII there are further
    decimal digits, which [datetime.strptime] reads as digits and the
    model of it above does not. *)
Definition ascii_text (s : str) : Prop := Forall (fun c => (c < 128)%N) s.

(** Nothing, or a fractional-seconds suffix: a dot and what follows. *)
Definition fraction (suffix : str) : Prop :=
  suffix = [] \/ exists digits, suffix = 46%N :: digits.

(** *** Records ([speech_parse], [parse_speeches]) *)

Record SpeechRecord := {
  Date : str;
  Time_Start : str;
  Time_End : str;
  Duration : option Z;
  Topic : option str;
  Text : str;
  MEPID : str;
  Speaker_Name : str;
  Party : str;
  Speaker_Type : str
}.

(** The separator [". – "] that ends a narration prefix. *)
Definition NARRATION : str := [46; 32; EN_DASH; 32]%N.

Definition speech_parse (speech : element)
    (date time_start time_end : str) (topic : option str)
  : result SpeechRecord :=
  let text_parts :=
    omap (fun para =>
            if bool_decide (gather_text para <> [])
            then Some (gather_text para) else None)
         (findall speech (u "PARA")) in
  let text := join (u " ") text_parts in
  let text :=
    if contains NARRATION text
    then strip (nth 1 (split_n NARRATION 1 text) [])
    else text in
  let text := strip (lstrip_chars [EN_DASH; SPACE] text) in
  names ←
    match find speech (u "ORATEUR") with
    | Some orateur =>
        let mepid := get_or orateur (u "MEPID") (u "NaN") in
        let party := get_or orateur (u "PP") (u "NaN") in
        let speaker_type := get_or orateur (u "SPEAKER_TYPE") (u "NaN") in
        let lib := get_or orateur (u "LIB") (u "NaN") in
        if bool_decide (lib <> u "NaN") && contains (u " | ") lib
        then
          match split (u " | ") lib with
          | [last_name; first_name] =>
              Ok (mepid, last_name ++ u " " ++ first_name, party,
                  speaker_type)
          | _ => Raise (Exn ValueError (u "wrong number of values to unpack"))
          end
        else Ok (mepid, lib, party, speaker_type)
    | None => Ok (u "NaN", u "NaN", u "NaN", u "NaN")
    end;
  let '(mepid, speaker_name, party, speaker_type) := names in
  duration ← calculate_duration time_start time_end;
  Ok {| Date := date; Time_Start := time_start; Time_End := time_end;
        Duration := duration; Topic := topic; Text := text;
        MEPID := mepid; Speaker_Name := speaker_name; Party := party;
        Speaker_Type := speaker_type |}.

(** What a batch builds: the records collected, the lines printed, and
    the combined CSV once written. *)
Record batch := Batch {
  combined_data : list SpeechRecord;
  printed : list str;
  output_file : option (list SpeechRecord)
}.

Definition append_record (r : SpeechRecord) : M batch unit :=
  modify (fun b => Batch (combined_data b ++ [r]) (printed b) (output_file b)).

Definition print_line (line : str) : M batch unit :=
  modify (fun b => Batch (combined_data b) (printed b ++ [line])
                         (output_file b)).

(** The [for elem in chapter] loop, with the running timing context
    [(current_date, current_time_start, current_time_end)]. *)
Fixpoint chapter_loop (topic : option str) (elems : list element)
    (current : option str * option str * option str) : M batch unit :=
  match elems with
  | [] => mret tt
  | elem :: rest =>
      let '(current_date, current_time_start, current_time_end) := current in
      if bool_decide (tag elem = u "NUMERO")
         && truthy (get_attr elem (u "VOD-START"))
         && truthy (get_attr elem (u "VOD-END"))
      then
        match split (u "T") (default [] (get_attr elem (u "VOD-START"))) with
        | [date; time_start] =>
            match split (u "T") (default [] (get_attr elem (u "VOD-END")))
                  !! 1%nat with
            | Some time_end =>
                chapter_loop topic rest
                  (Some date, Some time_start, Some time_end)
            | None => raise (Exn IndexError (u "list index out of range"))
            end
        | _ => raise (Exn ValueError (u "wrong number of values to unpack"))
        end
      else if bool_decide (tag elem = u "INTERVENTION")
              && truthy current_date && truthy current_time_start
              && truthy current_time_end
      then
        record ← of_result
          (speech_parse elem (default [] current_date)
             (default [] current_time_start) (default [] current_time_end)
             topic);
        append_record record;;
        chapter_loop topic rest current
      else chapter_loop topic rest current
  end.

(** The body of the [try] for one file. *)
Definition parse_speech_file (parsed : result element) : M batch unit :=
  root ← of_result parsed;
  for_each (findall_below root (u "CHAPTER")) (fun chapter =>
    let topic :=
      match find_with chapter (u "TL-CHAP") (u "VL") (u "EN") with
      | Some title => text title
      | None => Some (u "Unknown Topic")
      end in
    chapter_loop topic (children chapter) (None, None, None)).

Definition parse_speeches (input_dir : directory) : M batch unit :=
  for_each (xml_files input_dir) (fun file =>
    try_except (parse_speech_file (snd file))
      [ ([FileNotFoundError; ParseError; AttributeError],
         fun e => print_line (u "Error processing file " ++ fst file
                                ++ u ": " ++ exn_msg e)) ]);;
  b ← get;
  if bool_decide (combined_data b <> [])
  then modify (fun b => Batch (combined_data b) (printed b)
                              (Some (combined_data b)));;
       print_line (u "Combined CSV saved")
  else print_line (u "No data parsed. Combined CSV was not created.").

(** *** Translation ([translate_text]) *)

(** What one call of [translator.translate] gives: a result with a string
    text, a result without one, or an exception. *)
Inductive translation :=
  | Translated (text : str)
  | NoText
  | TranslateRaises (e : exn).

(** The provider handle: calls made so far, pauses taken (milliseconds)
    and lines printed. *)
Record provider := Provider {
  calls : nat;
  sleeps : list Z;
  messages : list str
}.

Definition sleep (ms : Z) : M provider unit :=
  modify (fun p => Provider (calls p) (sleeps p ++ [ms]) (messages p)).

Definition say (line : str) : M provider unit :=
  modify (fun p => Provider (calls p) (sleeps p) (messages p ++ [line])).

Section Translate.

(** [langdetect.detect]: the language code, or the exception raised. *)
Variable detect : str -> result str.
(** The n-th call of [translator.translate(chunk, src=src_lang, dest='en')]. *)
Variable translate : nat -> str -> str -> translation.

Definition translator_translate (chunk src_lang : str)
  : M provider (option str) :=
  p ← get;
  modify (fun p => Provider (S (calls p)) (sleeps p) (messages p));;
  match translate (calls p) chunk src_lang with
  | Translated text => mret (Some text)
  | NoText => mret None
  | TranslateRaises e => raise e
  end.

(** The [for attempt in range(3)] loop of [translate_chunk]. *)
Fixpoint translate_attempts (attempts : list Z) (chunk src_lang : str)
  : M provider str :=
  match attempts with
  | [] => mret chunk
  | attempt :: rest =>
      returned ←
        try_except
          (result ← translator_translate chunk src_lang;
           match result with
           | Some text => sleep 400;; mret (Some text)
           | None => mret None
           end)
          [ ([ConnectionError; TimeoutError; ValueError],
             fun e =>
               say (u "Retrying translation for chunk due to network issue or error for chunk: " ++ exn_msg e);;
               sleep (1000 * 2 ^ attempt);;
               mret None) ];
      match returned with
      | Some text => mret text
      | None => translate_attempts rest chunk src_lang
      end
  end.

Definition translate_chunk (chunk src_lang : str) : M provider str :=
  translate_attempts [0; 1; 2] chunk src_lang.

(** [[translate_chunk(chunk, lang) for chunk in chunks]] *)
Fixpoint translate_chunks (chunks : list str) (src_lang : str)
  : M provider (list str) :=
  match chunks with
  | [] => mret []
  | chunk :: rest =>
      t ← translate_chunk chunk src_lang;
      ts ← translate_chunks rest src_lang;
      mret (t :: ts)
  end.

(** [translate_text] on a string; the second component is the flag. *)
Definition translate_text (text : str) : M provider (str * Z) :=
  try_except
    (if bool_decide (strip text = []) then mret (text, 0)
     else
       detected_language ← of_result (detect text);
       if bool_decide (detected_language = u "en") then mret (text, 1)
       else if bool_decide (5000 < length text)%nat
       then
         (* the loop of [split_text_into_chunks] returns for 5000 *)
         let chunks := default [] (Chunks.split_text_into_chunks text 5000) in
         translated_chunks ← translate_chunks chunks detected_language;
         mret (join (u " ") translated_chunks, 1)
       else
         translated_text ← translate_chunk text detected_language;
         if bool_decide (translated_text <> text)
         then mret (translated_text, 1)
         else mret (text, 0))
    [ ([ConnectionError; TimeoutError; ValueError],
       fun e =>
         say (u "Translation failed due to network-related error or invalid input: " ++ exn_msg e);;
         mret (text, 0)) ].

End Translate.

End Speech.

(** ** [codes/voting.py]: term, URL, log and download *)

Module Voting.

Definition date_ranges : list ((Z * Z * Z) * (Z * Z * Z) * Z) :=
  [ ((2019, 7, 2), (2024, 7, 1), 9);
    ((2024, 7, 2), (2029, 7, 1), 10) ].

Fixpoint get_term_in (ranges : list ((Z * Z * Z) * (Z * Z * Z) * Z))
    (date : Timestamp) : option Z :=
  match ranges with
  | [] => None
  | ((y1, m1, d1), (y2, m2, d2), code) :: rest =>
      if (to_datetime y1 m1 d1 <=? date) && (date <=? to_datetime y2 m2 d2)
      then Some code
      else get_term_in rest date
  end.

Definition get_term (date : Timestamp) : option Z :=
  get_term_in date_ranges date.

Definition build_url_vote (term : Z) (date : Timestamp) : str :=
  u "https://www.europarl.europa.eu/doceo/document/PV-"
    ++ of_Z term ++ u "-" ++ strftime date ++ u "-RCV_EN.xml".

Definition initialize_log : M world frame :=
  w ← get;
  match log_file w with
  | Some file =>
      existing_log ← of_result (read_csv file);
      if negb (bool_decide (u "Status" ∈ columns existing_log))
         || negb (bool_decide (u "Date" ∈ columns existing_log))
      then print (u "Log file format is invalid. Reinitializing log.");;
           mret empty_log
      else mret existing_log
  | None => mret empty_log
  end.

Definition save_log (date_str status details : str) : M world unit :=
  writerow [date_str; status; details].

Definition not_term (term : option Z) : bool :=
  match term with
  | None => true
  | Some t => t =? 0
  end.

Section Download.

Variable http_get : nat -> str -> http_outcome.
Variable write_fails : str -> option str.

(** The body of the [for] loop for a date that is not skipped. *)
Definition fetch_date (date : Timestamp) (date_str : str) : M world unit :=
  try_except
    (let term := get_term date in
     if not_term term
     then save_log date_str (u "Failed") (u "Term not found")
     else
       let term := default 0 term in
       response ← requests_get http_get date (build_url_vote term date);
       let '(status_code, text) := response in
       if status_code =? 200
       then write_file write_fails
              (u "voting/PV-" ++ of_Z term ++ u "-" ++ date_str ++ u ".xml")
              text;;
            save_log date_str (u "Success") (u "Downloaded")
       else if status_code =? 404
       then save_log date_str (u "Not Found") (u "URL not found")
       else save_log date_str (u "Failed") (u "HTTP " ++ of_Z status_code))
    [ ([RequestException],
       fun e => save_log date_str (u "Request Error") (exn_msg e));
      ([OSError],
       fun e => save_log date_str (u "File Error") (exn_msg e));
      ([ValueError],
       fun e => save_log date_str (u "Value Error") (exn_msg e)) ].

Definition download_votings (start_date end_date : Timestamp)
  : M world unit :=
  existing_log ← initialize_log;
  open_append;;
  w ← get;
  (if log_is_empty w then writerow HEADER else mret tt);;
  for_each (date_range start_date end_date) (fun date =>
    let date_str := strftime date in
    success ← of_result (dates_with_status existing_log (u "Success"));
    if bool_decide (date_str ∈ success)
    then mret tt
    else
      not_found ← of_result (dates_with_status existing_log (u "Not Found"));
      if bool_decide (date_str ∈ not_found)
      then mret tt
      else fetch_date date date_str).

End Download.

(** *** Records ([parse_single_file], [parse_votings]) *)

Record VoteRecord := {
  Date : str;
  Description : str;
  Vote : str;
  PoliticalGroup : str;
  MEP_ID : str;
  Name : str
}.

(** [value or fallback] on an optional string. *)
Definition or_else (value : option str) (fallback : str) : str :=
  if truthy value then default [] value else fallback.

Definition parse_single_file (parsed : result element)
  : result (list VoteRecord) :=
  root ← parsed;
  let session_date := get_or root (u "Sitting.Date") (u "Unknown Date") in
  file_data ←
    mapM (fun roll_call =>
      description ←
        match find roll_call (u "RollCallVote.Description.Text") with
        | Some node => Ok (or_else (text node) (u "No Description"))
        | None =>
            Raise (Exn AttributeError
                     (u "'NoneType' object has no attribute 'text'"))
        end;
      Ok (result ← children roll_call;
          let vote_type := List.last (split (u ".") (tag result)) [] in
          group ← findall result (u "Result.PoliticalGroup.List");
          let group_id := get_or group (u "Identifier") (u "NaN") in
          member ← findall group (u "PoliticalGroup.Member.Name");
          [ {| Date := session_date;
               Description := description;
               Vote := vote_type;
               PoliticalGroup := group_id;
               MEP_ID := get_or member (u "PersId") (u "NaN");
               Name := or_else (text member) (u "NaN") |} ]))
      (findall_below root (u "RollCallVote.Result"));
  Ok (concat file_data).

Record batch := Batch {
  combined_data : list VoteRecord;
  printed : list str;
  output_file : option (list VoteRecord)
}.

Definition print_line (line : str) : M batch unit :=
  modify (fun b => Batch (combined_data b) (printed b ++ [line])
                         (output_file b)).

Definition parse_votings (input_dir : directory) : M batch unit :=
  for_each (xml_files input_dir) (fun file =>
    try_except
      (file_data ← of_result (parse_single_file (snd file));
       modify (fun b => Batch (combined_data b ++ file_data) (printed b)
                              (output_file b)))
      [ ([ParseError],
         fun e => print_line (u "XML parsing error in file " ++ fst file
                                ++ u ": " ++ exn_msg e));
        ([OSError],
         fun e => print_line (u "File error with " ++ fst file
                                ++ u ": " ++ exn_msg e)) ]);;
  b ← get;
  if bool_decide (combined_data b <> [])
  then modify (fun b => Batch (combined_data b) (printed b)
                              (Some (combined_data b)));;
       print_line (u "Voting data saved")
  else print_line (u "No voting data parsed. Combined CSV not created.").

End Voting.

(** ** Sample documents *)

Module Samples.

Definition leaf (name : str) (attributes : list (str * str))
    (content : option str) : element :=
  Element name attributes content None [].

(** The minimal speech document: one chapter, one timing marker
    (12:00:00 to 12:05:00 on 2024-01-15), one intervention by
    "Doe | Jane" with the paragraph "Hello world.". *)
Definition minimal_speech_document : element :=
  Element (u "DEBATS") [] None None
    [ Element (u "CHAPTER") [] None None
        [ leaf (u "NUMERO")
            [ (u "VOD-START", u "2024-01-15T12:00:00");
              (u "VOD-END", u "2024-01-15T12:05:00") ] None;
          Element (u "INTERVENTION") [] None None
            [ leaf (u "ORATEUR") [(u "LIB", u "Doe | Jane")] None;
              leaf (u "PARA") [] (Some (u "Hello world.")) ] ] ].

(** The minimal vote document: one roll-call result described as
    "Test Motion", one "For" block with one political group and one
    member, id 123, "Jane Doe". *)
Definition minimal_vote_document : element :=
  Element (u "PV.RollCallVoteResults") [(u "Sitting.Date", u "2024-01-15")]
    None None
    [ Element (u "RollCallVote.Result") [] None None
        [ leaf (u "RollCallVote.Description.Text") []
            (Some (u "Test Motion"));
          Element (u "Result.For") [] None None
            [ Element (u "Result.PoliticalGroup.List")
                [(u "Identifier", u "PPE")] None None
                [ leaf (u "PoliticalGroup.Member.Name")
                    [(u "PersId", u "123")] (Some (u "Jane Doe")) ] ] ] ].

(** A well-formed vote document whose roll-call result has no
    description element. *)
Definition vote_document_without_description : element :=
  Element (u "PV.RollCallVoteResults") [(u "Sitting.Date", u "2024-01-15")]
    None None
    [ Element (u "RollCallVote.Result") [] None None
        [ Element (u "Result.For") [] None None [] ] ].

(** A well-formed speech document whose timing marker carries a start
    without the "T" between date and time. *)
Definition speech_document_with_bad_marker : element :=
  Element (u "DEBATS") [] None None
    [ Element (u "CHAPTER") [] None None
        [ leaf (u "NUMERO")
            [ (u "VOD-START", u "2024-01-15 12:00:00");
              (u "VOD-END", u "2024-01-15T12:05:00") ] None ] ].

End Samples.

(** ** What a vote batch collects *)

Module VoteBatch.

(** The records a file contributes to the combined data: those it parses
    to, none when parsing it raises. *)
Definition contribution (file : str * result element)
  : list Voting.VoteRecord :=
  match Voting.parse_single_file file.2 with
  | Ok file_data => file_data
  | Raise _ => []
  end.

(** The file parses, or fails with an exception [parse_votings] names
    ([ET.ParseError], [OSError] and its subclasses). *)
Definition parses_or_is_caught (file : str * result element) : Prop :=
  match Voting.parse_single_file file.2 with
  | Ok _ => True
  | Raise e =>
      is_a (exn_cls e) ParseError || is_a (exn_cls e) OSError = true
  end.

End VoteBatch.

(** ** The loop of a run *)

Module Run.

(** The world when the loop of a run starts: the log file exists, with
    the header written if it was absent or empty. *)
Definition ready (w : world) : world :=
  MkWorld (Some (if bool_decide (default [] (log_file w) = [])
                 then [HEADER] else default [] (log_file w)))
          (raw_files w) (requests w) (stdout w)
          (if bool_decide (default [] (log_file w) = [])
           then false else log_unterminated w).

(** The loop over the dates: a date in one of the two sets is passed
    over, any other is handled. *)
Definition skipping_loop (handle : Timestamp -> str -> M world unit)
    (s1 s2 : gset str) (dates : list Timestamp) : M world unit :=
  for_each dates (fun date =>
    if bool_decide (strftime date ∈ s1) || bool_decide (strftime date ∈ s2)
    then mret tt
    else handle date (strftime date)).

(** A log as the fetchers leave it: no file yet, or the header
    Date,Status,Details followed by rows of three fields, the last line
    ended by its line terminator. *)
Definition standard_log (w : world) : Prop :=
  log_unterminated w = false
  /\ (log_file w = None
      \/ exists data,
           log_file w = Some (HEADER :: data)
           /\ Forall (fun row : list str => length row = 3%nat) data).

(** No condition on the requests and rows a computation appends. *)
Definition any_request (q : Timestamp * str) : Prop := True.
Definition any_row (row : list str) : Prop := True.

(** The raw file of a date, as each module names it. *)
Definition speech_path (term : Z) (date : Timestamp) : str :=
  u "speeches/CRE-" ++ of_Z term ++ u "-" ++ strftime date ++ u ".xml".
Definition vote_path (term : Z) (date : Timestamp) : str :=
  u "voting/PV-" ++ of_Z term ++ u "-" ++ strftime date ++ u ".xml".

(** The world after a request for [date] was issued. *)
Definition requested (date : Timestamp) (url : str) (w : world) : world :=
  MkWorld (log_file w) (raw_files w) (requests w ++ [(date, url)])
          (stdout w) (log_unterminated w).

(** The world after a row was written to the log. *)
Definition logged (row : list str) (w : world) : world :=
  MkWorld (Some (written (default [] (log_file w)) (log_unterminated w) row))
          (raw_files w) (requests w) (stdout w) false.

End Run.

(** * Properties *)

(** ** Facts about the string primitives *)

Section StrFacts.

Implicit Types (s t : str) (p : N -> bool).

Lemma lstrip_by_split p s :
  exists pre, s = pre ++ lstrip_by p s /\ Forall (fun c => p c = true) pre.
Proof.
  induction s as [|c r IH]; simpl.
  - exists []. split; [reflexivity | constructor].
  - destruct (p c) eqn:Hc.
    + destruct IH as (pre & Heq & Hall).
      exists (c :: pre). split.
      * simpl. f_equal. exact Heq.
      * constructor; assumption.
    + exists []. split; [reflexivity | constructor].
Qed.

Lemma rstrip_by_split p s :
  exists suf, s = rstrip_by p s ++ suf /\ Forall (fun c => p c = true) suf.
Proof.
  unfold rstrip_by.
  destruct (lstrip_by_split p (rev s)) as (pre & Heq & Hall).
  exists (rev pre). split.
  - rewrite <- rev_app_distr, <- Heq. symmetry. apply rev_involutive.
  - apply Forall_forall. intros c Hc.
    rewrite Forall_forall in Hall. apply Hall.
    apply list_elem_of_In. apply in_rev. apply list_elem_of_In. exact Hc.
Qed.

(** [strip] only removes whitespace, at both ends. *)
Lemma strip_split s :
  exists pre suf,
    s = pre ++ strip s ++ suf
    /\ Forall (fun c => isspace c = true) pre
    /\ Forall (fun c => isspace c = true) suf.
Proof.
  unfold strip.
  destruct (lstrip_by_split isspace s) as (pre & Heq & Hpre).
  destruct (rstrip_by_split isspace (lstrip_by isspace s)) as (suf & Heq' & Hsuf).
  exists pre, suf. split; [|split]; try assumption.
  rewrite <- Heq'. exact Heq.
Qed.

Lemma strip_length s : (length (strip s) <= length s)%nat.
Proof.
  destruct (strip_split s) as (pre & suf & Heq & _ & _).
  rewrite Heq at 2. rewrite !length_app. lia.
Qed.

Lemma strip_leading_space c s :
  isspace c = true -> (length (strip (c :: s)) <= length s)%nat.
Proof.
  intros Hc. unfold strip. simpl. rewrite Hc.
  apply (strip_length s).
Qed.

Lemma rfind_Some c s i :
  rfind c s = Some i -> s !! i = Some c.
Proof.
  revert i. induction s as [|x r IH]; intros i; simpl; [discriminate|].
  destruct (rfind c r) as [j|] eqn:Hr.
  - intros [= <-]. simpl. apply IH. reflexivity.
  - destruct (N.eqb_spec x c) as [->|]; [|discriminate].
    intros [= <-]. reflexivity.
Qed.

Lemma rfind_None c s : rfind c s = None -> c ∉ s.
Proof.
  induction s as [|x r IH]; simpl; intros H.
  - apply not_elem_of_nil.
  - destruct (rfind c r); [discriminate|].
    destruct (N.eqb_spec x c); [discriminate|].
    apply not_elem_of_cons. split; [congruence | apply IH; reflexivity].
Qed.

(** The index returned by [rfind] is the last occurrence. *)
Lemma rfind_last c s i j :
  rfind c s = Some i -> s !! j = Some c -> (j <= i)%nat.
Proof.
  revert i j. induction s as [|x r IH]; intros i j; simpl; [discriminate|].
  destruct (rfind c r) as [k|] eqn:Hr.
  - intros [= <-] Hj. destruct j as [|j]; [lia|].
    simpl in Hj. specialize (IH k j eq_refl Hj). lia.
  - destruct (N.eqb_spec x c) as [->|]; [|discriminate].
    intros [= <-] Hj. destruct j as [|j]; [lia|].
    simpl in Hj. apply rfind_None in Hr.
    exfalso. apply Hr. eapply list_elem_of_lookup_2. exact Hj.
Qed.

Lemma isspace_SPACE : isspace SPACE = true.
Proof. reflexivity. Qed.

End StrFacts.

(** ** Chunk splitting *)

Module ChunksFacts.
Import Chunks.

(** With the text longer than the threshold, the cut is at or before it. *)
Lemma split_index_le text max_length :
  (split_index text max_length <= max_length)%nat.
Proof.
  unfold split_index, rfind_upto.
  destruct (rfind SPACE (take max_length text)) as [i|] eqn:Hr; [|lia].
  apply rfind_Some in Hr. apply lookup_lt_Some in Hr.
  rewrite length_take in Hr. lia.
Qed.

(** One iteration strictly shortens the text, for a positive threshold. *)
Lemma remaining_shorter text max_length :
  (0 < max_length)%nat -> (max_length < length text)%nat ->
  (length (remaining text max_length) < length text)%nat.
Proof.
  intros Hpos Hlen. unfold remaining, split_index, rfind_upto.
  destruct (rfind SPACE (take max_length text)) as [i|] eqn:Hr.
  - apply rfind_Some in Hr.
    pose proof (lookup_lt_Some _ _ _ Hr) as Hi. rewrite length_take in Hi.
    rewrite lookup_take_lt in Hr by lia.
    destruct (drop i text) as [|c r] eqn:Hd.
    + apply (f_equal length) in Hd. rewrite length_drop in Hd.
      simpl in Hd. lia.
    + assert (Hc : c = SPACE).
      { pose proof (lookup_drop text i 0) as Hl. rewrite Hd in Hl.
        simpl in Hl. rewrite Nat.add_0_r in Hl. congruence. }
      subst c.
      pose proof (strip_leading_space SPACE r isspace_SPACE) as Hs.
      apply (f_equal length) in Hd. rewrite length_drop in Hd.
      simpl in Hd. lia.
  - pose proof (strip_length (drop max_length text)) as Hs.
    rewrite length_drop in Hs. lia.
Qed.

(** Every chunk cut by the loop body fits the threshold. *)
Lemma chunk_fits text max_length :
  (length (take (split_index text max_length) text) <= max_length)%nat.
Proof.
  rewrite length_take. pose proof (split_index_le text max_length). lia.
Qed.

(** The loop returns once the bound exceeds the length of the text. *)
Lemma split_loop_total max_length :
  (0 < max_length)%nat ->
  forall fuel text chunks,
    (length text < fuel)%nat ->
    exists result, split_loop fuel text max_length chunks = Some result.
Proof.
  intros Hpos. induction fuel as [|fuel IH]; intros text chunks Hf; [lia|].
  simpl. case_bool_decide as Hlen.
  - apply IH. pose proof (remaining_shorter text max_length Hpos Hlen). lia.
  - eexists. reflexivity.
Qed.

(** A larger bound does not change the result. *)
Lemma split_loop_mono max_length fuel :
  forall text chunks result fuel',
    split_loop fuel text max_length chunks = Some result ->
    (fuel <= fuel')%nat ->
    split_loop fuel' text max_length chunks = Some result.
Proof.
  induction fuel as [|fuel IH]; intros text chunks result fuel' H Hle;
    [discriminate|].
  destruct fuel' as [|fuel']; [lia|].
  simpl in *. case_bool_decide.
  - eapply IH; [exact H | lia].
  - exact H.
Qed.

(** What the loop returns extends the chunks collected so far, each new
    chunk fits the threshold, and the characters of the new chunks are
    those of the text with whitespace deleted at the cuts. *)
Lemma split_loop_spec max_length fuel :
  forall text chunks result,
    split_loop fuel text max_length chunks = Some result ->
    exists new,
      result = chunks ++ new
      /\ new <> []
      /\ Forall (fun c => (length c <= max_length)%nat) new
      /\ concat new `sublist_of` text
      /\ filter (fun c => isspace c = false) (concat new)
         = filter (fun c => isspace c = false) text.
Proof.
  induction fuel as [|fuel IH]; intros text chunks result H; [discriminate|].
  simpl in H. case_bool_decide as Hlen.
  - apply IH in H. destruct H as (new & -> & _ & Hfit & Hsub & Hfil).
    set (i := split_index text max_length) in *.
    exists (take i text :: new).
    split; [by rewrite <- app_assoc|].
    split; [discriminate|].
    split; [constructor; [apply chunk_fits | exact Hfit]|].
    destruct (strip_split (drop i text)) as (pre & suf & Heq & Hpre & Hsuf).
    fold (remaining text max_length) in Heq.
    assert (Hws : forall l : str, Forall (fun c => isspace c = true) l ->
                    filter (fun c => isspace c = false) l = []).
    { induction 1 as [|c l Hc _ IHl]; [reflexivity|].
      rewrite filter_cons_False; [exact IHl | congruence]. }
    split.
    + simpl. rewrite <- (take_drop i text) at 2.
      apply sublist_app; [reflexivity|].
      rewrite Heq. apply sublist_inserts_l, sublist_inserts_r. exact Hsub.
    + simpl. rewrite <- (take_drop i text) at 2.
      rewrite !filter_app. f_equal.
      rewrite Heq, !filter_app, (Hws pre Hpre), (Hws suf Hsuf), Hfil.
      by rewrite app_nil_r.
  - injection H as <-. exists [text].
    split; [reflexivity|]. split; [discriminate|].
    split; [constructor; [lia | constructor]|].
    simpl. rewrite app_nil_r. split; reflexivity.
Qed.

(** What one iteration takes off the text: the chunk, then whitespace,
    then the text of the next iteration, then whitespace. *)
Lemma cut_decomposition text max_length :
  (max_length < length text)%nat ->
  exists pre suf,
    text = take (split_index text max_length) text
           ++ pre ++ remaining text max_length ++ suf
    /\ blank pre /\ blank suf
    /\ cut_at max_length (take (split_index text max_length) text) pre.
Proof.
  intros Hlen. unfold remaining, cut_at, split_index, rfind_upto.
  destruct (rfind SPACE (take max_length text)) as [i|] eqn:Hr.
  - pose proof (rfind_Some _ _ _ Hr) as Hi.
    pose proof (lookup_lt_Some _ _ _ Hi) as Hlt.
    rewrite length_take in Hlt.
    rewrite lookup_take_lt in Hi by lia.
    assert (Hd : exists r, drop i text = SPACE :: r).
    { destruct (drop i text) as [|c r] eqn:Hd.
      - apply (f_equal length) in Hd. rewrite length_drop in Hd.
        simpl in Hd. lia.
      - pose proof (lookup_drop text i 0) as Hl. rewrite Hd in Hl.
        simpl in Hl. rewrite Nat.add_0_r in Hl. exists r. congruence. }
    destruct Hd as [r Hd]. rewrite Hd.
    destruct (strip_split r) as (pre & suf & Heq & Hpre & Hsuf).
    exists (SPACE :: pre), suf.
    assert (Hs : strip (SPACE :: r) = strip r) by reflexivity.
    rewrite Hs. split; [|split; [|split]].
    + rewrite <- (take_drop i text) at 1. rewrite Hd. f_equal.
      simpl. f_equal. exact Heq.
    + constructor; [reflexivity | exact Hpre].
    + exact Hsuf.
    + left. split; [rewrite length_take; lia|]. eexists. reflexivity.
  - destruct (strip_split (drop max_length text))
      as (pre & suf & Heq & Hpre & Hsuf).
    exists pre, suf. split; [|split; [|split]]; try assumption.
    + rewrite <- (take_drop max_length text) at 1. f_equal. exact Heq.
    + right. split; [rewrite length_take; lia|].
      apply rfind_None. exact Hr.
Qed.

(** What the loop returns is the chunks collected so far followed by new
    ones; the text is the new chunks with the whitespace deleted at each
    cut put back between them, and the whitespace stripped from its end
    put back after them. *)
Lemma split_loop_weave max_length fuel :
  forall text chunks result,
    split_loop fuel text max_length chunks = Some result ->
    exists new gaps trailing,
      result = chunks ++ new
      /\ length new = S (length gaps)
      /\ Forall blank gaps /\ blank trailing
      /\ text = weave new gaps ++ trailing
      /\ Forall2 (cut_at max_length) (take (length gaps) new) gaps
      /\ ((length text <= max_length)%nat -> new = [text]).
Proof.
  induction fuel as [|fuel IH]; intros text chunks result H; [discriminate|].
  simpl in H. case_bool_decide as Hlen.
  - apply IH in H.
    destruct H as (new & gaps & trailing & -> & Hn & Hg & Ht & Hw & Hcut & _).
    destruct (cut_decomposition text max_length Hlen)
      as (pre & suf & Heq & Hpre & Hsuf & Hc).
    set (i := split_index text max_length) in *.
    exists (take i text :: new), (pre :: gaps), (trailing ++ suf).
    split; [by rewrite <- app_assoc|].
    split; [simpl; by rewrite Hn|].
    split; [constructor; assumption|].
    split; [apply Forall_app; split; assumption|].
    split; [|split].
    + destruct new as [|c cs]; [discriminate|].
      cbn [weave]. rewrite Heq at 1.
      rewrite Hw, <- !app_assoc. reflexivity.
    + cbn [length take]. constructor; [exact Hc | exact Hcut].
    + intros Hle. lia.
  - injection H as <-. exists [text], [], [].
    split; [reflexivity|]. split; [reflexivity|].
    split; [constructor|]. split; [constructor|].
    split; [simpl; by rewrite !app_nil_r|].
    split; [constructor|]. reflexivity.
Qed.

Lemma sublist_same_length {A} (l k : list A) :
  l `sublist_of` k -> (length k <= length l)%nat -> l = k.
Proof.
  induction 1 as [|x l k _ IH|x l k Hs IH]; simpl; intros Hlen.
  - reflexivity.
  - f_equal. apply IH. lia.
  - apply sublist_length in Hs. lia.
Qed.

(** Joining with a separator of whitespace keeps the other characters. *)
Lemma join_space_filter (parts : list str) :
  filter (fun c => isspace c = false) (join [SPACE] parts)
  = filter (fun c => isspace c = false) (concat parts).
Proof.
  induction parts as [|p rest IH]; [reflexivity|].
  destruct rest as [|q rest].
  - simpl. by rewrite app_nil_r.
  - change (join [SPACE] (p :: q :: rest))
      with (p ++ [SPACE] ++ join [SPACE] (q :: rest)).
    change (concat (p :: q :: rest)) with (p ++ concat (q :: rest)).
    rewrite !filter_app, IH. f_equal.
Qed.

End ChunksFacts.

Section ChunkClaims.
Import Chunks ChunksFacts.

Local Open Scope string_scope.

Lemma join_empty_concat (parts : list str) : join [] parts = concat parts.
Proof.
  induction parts as [|p rest IH]; [reflexivity|].
  destruct rest as [|q rest]; simpl in *.
  - by rewrite app_nil_r.
  - by rewrite IH.
Qed.

(** C10. For every text and every positive maximum length,
    [split_text_into_chunks] terminates and returns a non-empty list of
    chunks: an iteration of the loop strictly shortens the remaining text
    (also when the last space before the threshold is at index 0), so the
    loop returns within [length text + 1] iterations, and any larger bound
    on the iterations gives the same chunks. *)
Theorem split_text_into_chunks_total (text : str) (max_length : nat) :
  (0 < max_length)%nat ->
  ((max_length < length text)%nat ->
   (length (remaining text max_length) < length text)%nat)
  /\ exists chunks,
       chunks <> []
       /\ split_text_into_chunks text max_length = Some chunks
       /\ forall fuel, (length text < fuel)%nat ->
                       split_loop fuel text max_length [] = Some chunks.
Proof.
  intros Hpos. split; [apply remaining_shorter; exact Hpos|].
  unfold split_text_into_chunks.
  destruct (split_loop_total max_length Hpos (S (length text)) text [])
    as [chunks Hc]; [lia|].
  exists chunks. split; [|split].
  - destruct (split_loop_spec _ _ _ _ _ Hc) as (new & -> & Hne & _).
    exact Hne.
  - exact Hc.
  - intros fuel Hf. eapply split_loop_mono; [exact Hc | lia].
Qed.

Lemma split_text_into_chunks_total_witness :
  (0 < 3)%nat
  /\ split_text_into_chunks (u " ab cd") 3 = Some [u ""; u "ab"; u "cd"]
  /\ exists chunks,
       chunks <> []
       /\ split_text_into_chunks (u " ab cd") 3 = Some chunks.
Proof.
  split; [lia|]. split; [reflexivity|].
  destruct (split_text_into_chunks_total (u " ab cd") 3) as [_ H]; [lia|].
  destruct H as (chunks & Hne & Hc & _).
  exists chunks. split; assumption.
Defined.

(** With a threshold of 0 the loop need not return: on a text without
    whitespace no iteration makes progress. *)
Lemma split_loop_zero_threshold_diverges :
  forall fuel chunks, split_loop fuel (u "a") 0 chunks = None.
Proof.
  induction fuel as [|fuel IH]; intros chunks; [reflexivity|].
  simpl. apply IH.
Qed.

(** Counterexample to C3: the chunks of "abcdef gh" at threshold 3 are
    "abc", "def", "gh"; neither the empty join nor the join with a space
    (the one [translate_text] uses) gives the text back. *)
Lemma split_join_roundtrip_fails :
  exists chunks,
    split_text_into_chunks (u "abcdef gh") 3 = Some chunks
    /\ join (u "") chunks <> u "abcdef gh"
    /\ join (u " ") chunks <> u "abcdef gh".
Proof.
  exists [u "abc"; u "def"; u "gh"].
  split; [reflexivity|]. split; discriminate.
Qed.

(** C3, amended. For every text and positive threshold the function
    returns chunks that all have length at most the threshold, and the
    text is these chunks in order with whitespace between them and after
    the last: exactly the whitespace the loop deletes at its cuts.  Each
    cut is at a space before the threshold (the deleted gap starts with
    that space) or, when the chunk holds no space, at the threshold.  A
    text within the threshold comes back unchanged as the only chunk.
    Hence the empty join is the text with whitespace deleted, the join
    with a space has the same non-whitespace characters, and the empty
    join is exactly the text when the text holds no whitespace. *)
Theorem split_chunks_bounded_join_up_to_whitespace
    (text : str) (max_length : nat) :
  (0 < max_length)%nat ->
  exists chunks gaps trailing,
    split_text_into_chunks text max_length = Some chunks
    /\ Forall (fun c => (length c <= max_length)%nat) chunks
    /\ length chunks = S (length gaps)
    /\ Forall blank gaps /\ blank trailing
    /\ text = (weave chunks gaps ++ trailing)%list
    /\ Forall2 (cut_at max_length) (take (length gaps) chunks) gaps
    /\ ((length text <= max_length)%nat -> chunks = [text])
    /\ join (u "") chunks `sublist_of` text
    /\ filter (fun c => isspace c = false) (join (u "") chunks)
       = filter (fun c => isspace c = false) text
    /\ filter (fun c => isspace c = false) (join (u " ") chunks)
       = filter (fun c => isspace c = false) text
    /\ (Forall (fun c => isspace c = false) text ->
        join (u "") chunks = text).
Proof.
  intros Hpos. unfold split_text_into_chunks.
  destruct (split_loop_total max_length Hpos (S (length text)) text [])
    as [chunks Hc]; [lia|].
  destruct (split_loop_weave _ _ _ _ _ Hc)
    as (new & gaps & trailing & Hnew & Hn & Hg & Ht & Hw & Hcut & Hshort).
  simpl in Hnew. subst new.
  exists chunks, gaps, trailing. split; [exact Hc|].
  destruct (split_loop_spec _ _ _ _ _ Hc) as (new & -> & _ & Hfit & Hsub & Hfil).
  simpl in *. change (u "") with (@nil N). change (u " ") with [SPACE].
  rewrite join_space_filter, join_empty_concat.
  repeat split; try assumption.
  intros Hnows. apply sublist_same_length; [exact Hsub|].
  assert (Hid : forall l : str, Forall (fun c => isspace c = false) l ->
                  filter (fun c => isspace c = false) l = l).
  { induction 1 as [|c l Hc' _ IHl]; [reflexivity|].
    rewrite filter_cons_True by exact Hc'. by rewrite IHl. }
  rewrite <- (Hid text Hnows) at 1. rewrite <- Hfil.
  apply length_filter.
Qed.

Lemma split_chunks_bounded_join_up_to_whitespace_witness :
  (0 < 5)%nat
  /\ split_text_into_chunks (u "ab  cd e ") 5 = Some [u "ab "; u "cd e"]
  /\ exists chunks gaps trailing,
       split_text_into_chunks (u "ab  cd e ") 5 = Some chunks
       /\ Forall (fun c => (length c <= 5)%nat) chunks
       /\ Forall blank gaps /\ blank trailing
       /\ u "ab  cd e " = (weave chunks gaps ++ trailing)%list
       /\ Forall2 (cut_at 5) (take (length gaps) chunks) gaps.
Proof.
  split; [lia|]. split; [reflexivity|].
  destruct (split_chunks_bounded_join_up_to_whitespace (u "ab  cd e ") 5)
    as (chunks & gaps & trailing & Hc & Hfit & _ & Hg & Ht & Hw & Hcut & _);
    [lia|].
  exists chunks, gaps, trailing. repeat split; assumption.
Defined.

End ChunkClaims.

(** ** Calendar dates and timestamps *)

Module DatesFacts.

Ltac month_cases m :=
  let H := fresh in
  assert (H : m = 1 \/ m = 2 \/ m = 3 \/ m = 4 \/ m = 5 \/ m = 6 \/ m = 7
              \/ m = 8 \/ m = 9 \/ m = 10 \/ m = 11 \/ m = 12) by lia;
  repeat (destruct H as [H | H]; [subst m | ]); [.. | subst m].

Lemma days_before_year_succ y :
  days_before_year (y + 1) = days_before_year y + year_length y.
Proof.
  unfold days_before_year, year_length, is_leap.
  replace (y + 1 - 1) with y by lia.
  destruct (Z.eqb_spec (y mod 4) 0), (Z.eqb_spec (y mod 100) 0),
    (Z.eqb_spec (y mod 400) 0); simpl;
    Z.div_mod_to_equations; lia.
Qed.

Lemma days_before_year_mono y1 y2 :
  y1 <= y2 -> days_before_year y1 <= days_before_year y2.
Proof.
  intros Hle. replace y2 with (y1 + Z.of_nat (Z.to_nat (y2 - y1))) by lia.
  induction (Z.to_nat (y2 - y1)) as [|n IH].
  - replace (y1 + Z.of_nat 0) with y1 by lia. lia.
  - replace (y1 + Z.of_nat (S n)) with (y1 + Z.of_nat n + 1) by lia.
    rewrite days_before_year_succ. unfold year_length.
    destruct (is_leap _); lia.
Qed.

(** A date of the year lies within the year. *)
Lemma day_of_year_bounds y m d :
  valid_date y m d ->
  1 <= days_before_month y m + d <= year_length y.
Proof.
  intros [Hm Hd]. unfold year_length.
  month_cases m; unfold days_before_month, days_in_month in *; simpl in *;
    destruct (is_leap y); simpl in *; lia.
Qed.

(** Within a year, the day of the year grows with the calendar date. *)
Lemma day_of_year_lt y m1 d1 m2 d2 :
  valid_date y m1 d1 -> valid_date y m2 d2 ->
  m1 < m2 \/ (m1 = m2 /\ d1 < d2) ->
  days_before_month y m1 + d1 < days_before_month y m2 + d2.
Proof.
  intros [Hm1 Hd1] [Hm2 Hd2] [Hlt | [-> Hlt]]; [|lia].
  month_cases m1; month_cases m2; try lia;
    unfold days_before_month, days_in_month in *; simpl in *;
    destruct (is_leap y); simpl in *; lia.
Qed.

Lemma to_datetime_lt y1 m1 d1 y2 m2 d2 :
  valid_date y1 m1 d1 -> valid_date y2 m2 d2 ->
  date_lt (y1, m1, d1) (y2, m2, d2) ->
  to_datetime y1 m1 d1 < to_datetime y2 m2 d2.
Proof.
  intros H1 H2 [Hy | [-> Hmd]]; unfold to_datetime.
  - pose proof (day_of_year_bounds _ _ _ H1).
    pose proof (day_of_year_bounds _ _ _ H2).
    pose proof (days_before_year_succ y1).
    pose proof (days_before_year_mono (y1 + 1) y2 ltac:(lia)). lia.
  - pose proof (day_of_year_lt y2 m1 d1 m2 d2 H1 H2 Hmd). lia.
Qed.

(** The order of timestamps is the order of calendar dates. *)
Lemma to_datetime_le_iff y1 m1 d1 y2 m2 d2 :
  valid_date y1 m1 d1 -> valid_date y2 m2 d2 ->
  to_datetime y1 m1 d1 <= to_datetime y2 m2 d2
  <-> date_le (y1, m1, d1) (y2, m2, d2).
Proof.
  intros H1 H2. split.
  - intros Hle.
    destruct (Z.lt_trichotomy y1 y2) as [?|[->|Hy]]; [left; lia | |].
    + destruct (Z.lt_trichotomy m1 m2) as [?|[->|Hm]];
        [right; split; [reflexivity | left; lia] | |].
      * right. split; [reflexivity|]. right. split; [reflexivity|].
        unfold to_datetime in Hle. lia.
      * pose proof (to_datetime_lt y2 m2 d2 y2 m1 d1 H2 H1) as Hlt.
        simpl in Hlt. lia.
    + pose proof (to_datetime_lt y2 m2 d2 y1 m1 d1 H2 H1) as Hlt.
      simpl in Hlt. lia.
  - intros [Hy | [-> [Hm | [-> Hd]]]].
    + apply Z.lt_le_incl, to_datetime_lt; [assumption.. | left; exact Hy].
    + apply Z.lt_le_incl, to_datetime_lt; [assumption.. |].
      right. split; [reflexivity | left; exact Hm].
    + unfold to_datetime. lia.
Qed.

End DatesFacts.

(** ** Term resolution *)

Section TermClaims.
Import DatesFacts.

(** On timestamps: 9 inside the first window, 10 inside the second, no
    term outside both, and the two modules agree. *)
Lemma get_term_by_timestamp (date : Timestamp) :
  (to_datetime 2019 7 2 <= date <= to_datetime 2024 7 1 ->
   Speech.get_term date = Some 9)
  /\ (to_datetime 2024 7 2 <= date <= to_datetime 2029 7 1 ->
      Speech.get_term date = Some 10)
  /\ (~ to_datetime 2019 7 2 <= date <= to_datetime 2024 7 1 ->
      ~ to_datetime 2024 7 2 <= date <= to_datetime 2029 7 1 ->
      Speech.get_term date = None)
  /\ Voting.get_term date = Speech.get_term date.
Proof.
  unfold Speech.get_term, Voting.get_term, Speech.date_ranges,
    Voting.date_ranges, Speech.get_term_in, Voting.get_term_in.
  change (to_datetime 2019 7 2) with 18079.
  change (to_datetime 2024 7 1) with 19905.
  change (to_datetime 2024 7 2) with 19906.
  change (to_datetime 2029 7 1) with 21731.
  repeat split; intros;
    destruct (Z.leb_spec 18079 date), (Z.leb_spec date 19905),
      (Z.leb_spec 19906 date), (Z.leb_spec date 21731);
    simpl; try reflexivity; lia.
Qed.

(** C2. Term resolution is total and deterministic: for every calendar
    date, [get_term] returns 9 when the date lies in the closed interval
    [2019-07-02, 2024-07-01], 10 when it lies in [2024-07-02, 2029-07-01],
    and no term for every other date; the [get_term] of the speech module
    and the one of the voting module compute the same mapping. *)
Theorem get_term_by_interval (y m d : Z) :
  valid_date y m d ->
  let date := to_datetime y m d in
  (date_le (2019, 7, 2) (y, m, d) /\ date_le (y, m, d) (2024, 7, 1) ->
   Speech.get_term date = Some 9)
  /\ (date_le (2024, 7, 2) (y, m, d) /\ date_le (y, m, d) (2029, 7, 1) ->
      Speech.get_term date = Some 10)
  /\ (~ (date_le (2019, 7, 2) (y, m, d) /\ date_le (y, m, d) (2024, 7, 1)) ->
      ~ (date_le (2024, 7, 2) (y, m, d) /\ date_le (y, m, d) (2029, 7, 1)) ->
      Speech.get_term date = None)
  /\ Voting.get_term date = Speech.get_term date.
Proof.
  intros Hv date.
  assert (Hb : forall y' m' d',
             valid_date y' m' d' ->
             (to_datetime y' m' d' <= date <-> date_le (y', m', d') (y, m, d))
             /\ (date <= to_datetime y' m' d'
                 <-> date_le (y, m, d) (y', m', d'))).
  { intros y' m' d' Hv'. split; apply to_datetime_le_iff; assumption. }
  assert (V1 : valid_date 2019 7 2) by (repeat split; vm_compute; congruence).
  assert (V2 : valid_date 2024 7 1) by (repeat split; vm_compute; congruence).
  assert (V3 : valid_date 2024 7 2) by (repeat split; vm_compute; congruence).
  assert (V4 : valid_date 2029 7 1) by (repeat split; vm_compute; congruence).
  destruct (Hb _ _ _ V1) as [H1 _], (Hb _ _ _ V2) as [_ H2],
    (Hb _ _ _ V3) as [H3 _], (Hb _ _ _ V4) as [_ H4].
  destruct (get_term_by_timestamp date) as (T9 & T10 & Tnone & Tsame).
  split; [|split; [|split]].
  - intros [Ha Hb']. apply T9. split; [apply H1 | apply H2]; assumption.
  - intros [Ha Hb']. apply T10. split; [apply H3 | apply H4]; assumption.
  - intros N9 N10. apply Tnone.
    + intros [Ha Hb']. apply N9. split; [apply H1 | apply H2]; assumption.
    + intros [Ha Hb']. apply N10. split; [apply H3 | apply H4]; assumption.
  - exact Tsame.
Qed.

Lemma get_term_by_interval_witness :
  valid_date 2023 6 15
  /\ Speech.get_term (to_datetime 2023 6 15) = Some 9
  /\ Voting.get_term (to_datetime 2023 6 15) = Some 9.
Proof.
  assert (Hv : valid_date 2023 6 15) by (repeat split; vm_compute; congruence).
  split; [exact Hv|].
  destruct (get_term_by_interval 2023 6 15 Hv) as (T9 & _ & _ & Tsame).
  assert (H9 : Speech.get_term (to_datetime 2023 6 15) = Some 9).
  { apply T9. split; simpl; lia. }
  split; [exact H9|]. rewrite Tsame. exact H9.
Defined.

End TermClaims.

(** ** The resumable fetcher *)

Module FetchFacts.

Lemma appends_refl Pq Pr w : appends Pq Pr w w.
Proof.
  intros Hw. split; [exact Hw|].
  exists [], []. rewrite !app_nil_r. repeat split; constructor.
Qed.

Lemma appends_trans Pq Pr w1 w2 w3 :
  appends Pq Pr w1 w2 -> appends Pq Pr w2 w3 -> appends Pq Pr w1 w3.
Proof.
  intros H12 H23 Hw.
  destruct (H12 Hw) as (Hw2 & q1 & r1 & Hq1 & Hr1 & Fq1 & Fr1).
  destruct (H23 Hw2) as (Hw3 & q2 & r2 & Hq2 & Hr2 & Fq2 & Fr2).
  split; [exact Hw3|].
  exists (q1 ++ q2), (r1 ++ r2).
  rewrite Hq2, Hq1, Hr2, Hr1, !app_assoc.
  repeat split; apply Forall_app; split; assumption.
Qed.

Lemma appends_weaken (Pq Pq' : Timestamp * str -> Prop)
    (Pr Pr' : list str -> Prop) w w' :
  (forall q, Pq q -> Pq' q) -> (forall r, Pr r -> Pr' r) ->
  appends Pq Pr w w' -> appends Pq' Pr' w w'.
Proof.
  intros Hq Hr H Hw. destruct (H Hw) as (Hw' & qs & rs & ? & ? & Fq & Fr).
  split; [exact Hw'|]. exists qs, rs.
  repeat split; try assumption.
  - eapply Forall_impl; [exact Fq | exact Hq].
  - eapply Forall_impl; [exact Fr | exact Hr].
Qed.

(** A change of the world that touches neither the requests nor the log
    file appends nothing. *)
Lemma appends_nothing Pq Pr w w' :
  requests w' = requests w -> log_file w' = log_file w ->
  log_unterminated w' = log_unterminated w ->
  appends Pq Pr w w'.
Proof.
  intros Hq Hl Hu Hw. split; [congruence|].
  exists [], []. rewrite !app_nil_r, Hq, Hl. repeat split; constructor.
Qed.

(** Written after a line that ends with its terminator, a row is a new
    line. *)
Lemma written_terminated file row : written file false row = file ++ [row].
Proof. reflexivity. Qed.

Lemma writerow_appends Pq (Pr : list str -> Prop) row w :
  Pr row -> appends Pq Pr w (snd (writerow row w)).
Proof.
  intros H Hw. split; [reflexivity|].
  exists [], [row]. simpl. rewrite Hw, app_nil_r.
  repeat split; repeat constructor. exact H.
Qed.

(** A loop whose body only appends, only appends. *)
Lemma for_each_appends {A} Pq Pr (body : A -> M world unit) :
  (forall x w, appends Pq Pr w (snd (body x w))) ->
  forall xs w, appends Pq Pr w (snd (for_each xs body w)).
Proof.
  intros Hbody. induction xs as [|x xs IH]; intros w; simpl.
  - apply appends_refl.
  - unfold bind. specialize (Hbody x w).
    destruct (body x w) as [[[]|e] w1]; simpl in *.
    + eapply appends_trans; [exact Hbody | apply IH].
    + exact Hbody.
Qed.

Lemma bind_ok {S A B} (m : M S A) (f : A -> M S B) s a s' :
  m s = (Ok a, s') -> (m ≫= f) s = f a s'.
Proof. intros H. unfold mbind, M_bind, bind. by rewrite H. Qed.

Lemma bind_raise {S A B} (m : M S A) (f : A -> M S B) s e s' :
  m s = (Raise e, s') -> (m ≫= f) s = (Raise e, s').
Proof. intros H. unfold mbind, M_bind, bind. by rewrite H. Qed.

Lemma for_each_ext {S A} (body body' : A -> M S unit) xs :
  (forall x s, body x s = body' x s) ->
  forall s, for_each xs body s = for_each xs body' s.
Proof.
  intros Hext. induction xs as [|x xs IH]; intros s; simpl; [reflexivity|].
  unfold bind. rewrite Hext. destruct (body' x s) as [[[]|e] s'];
    [apply IH | reflexivity].
Qed.

Section OnlyAppends.
Context (Pq : Timestamp * str -> Prop) (Pr : list str -> Prop).

Lemma only_appends_ret {A} (a : A) : only_appends Pq Pr (mret a).
Proof. intros w. apply appends_refl. Qed.

Lemma only_appends_raise {A} e : only_appends Pq Pr (@raise world A e).
Proof. intros w. apply appends_refl. Qed.

Lemma only_appends_of_result {A} (r : result A) :
  only_appends Pq Pr (of_result r).
Proof. intros w. apply appends_refl. Qed.

Lemma only_appends_get : only_appends Pq Pr get.
Proof. intros w. apply appends_refl. Qed.

Lemma only_appends_bind {A B} (m : M world A) (f : A -> M world B) :
  only_appends Pq Pr m -> (forall a, only_appends Pq Pr (f a)) ->
  only_appends Pq Pr (m ≫= f).
Proof.
  intros Hm Hf w. specialize (Hm w). unfold mbind, M_bind, bind.
  destruct (m w) as [[a|e] w1]; simpl in *; [|exact Hm].
  eapply appends_trans; [exact Hm | apply Hf].
Qed.

Lemma only_appends_try {A} (body : M world A) clauses :
  only_appends Pq Pr body ->
  Forall (fun cl => forall e, only_appends Pq Pr (cl.2 e)) clauses ->
  only_appends Pq Pr (try_except body clauses).
Proof.
  intros Hb Hcl w. specialize (Hb w). unfold try_except.
  destruct (body w) as [[a|e] w1]; simpl in *; [exact Hb|].
  destruct (find_handler clauses e) as [h|] eqn:Hh; [|exact Hb].
  eapply appends_trans; [exact Hb|].
  clear Hb. induction Hcl as [|[cs h'] cls Hc _ IH]; [discriminate|].
  simpl in Hh. destruct (existsb _ cs).
  - injection Hh as <-. apply Hc.
  - apply IH. exact Hh.
Qed.

Lemma only_appends_writerow row : Pr row -> only_appends Pq Pr (writerow row).
Proof. intros H w. apply writerow_appends. exact H. Qed.

Lemma only_appends_print line : only_appends Pq Pr (print line).
Proof. intros w. apply appends_nothing; reflexivity. Qed.

Lemma only_appends_open : only_appends Pq Pr open_append.
Proof.
  intros w Hw. split; [exact Hw|].
  exists [], []. simpl. rewrite !app_nil_r.
  repeat split; constructor.
Qed.

Lemma only_appends_write_file write_fails path content :
  only_appends Pq Pr (write_file write_fails path content).
Proof.
  intros w. unfold write_file.
  destruct (write_fails path); [apply appends_refl|].
  apply appends_nothing; reflexivity.
Qed.

Lemma only_appends_requests_get http_get date url :
  Pq (date, url) -> only_appends Pq Pr (requests_get http_get date url).
Proof.
  intros H w Hw. unfold requests_get, mbind, M_bind, bind, get, modify. simpl.
  split; [destruct (http_get _ url); exact Hw|].
  exists [(date, url)], []. rewrite app_nil_r.
  destruct (http_get _ url); simpl; repeat split; repeat constructor; exact H.
Qed.

Lemma only_appends_for_each {A} (body : A -> M world unit) xs :
  (forall x, only_appends Pq Pr (body x)) ->
  only_appends Pq Pr (for_each xs body).
Proof. intros H w. apply for_each_appends. intros x w'. apply H. Qed.

End OnlyAppends.

Create HintDb fetch.
#[local] Hint Resolve only_appends_ret only_appends_raise
  only_appends_of_result only_appends_get only_appends_print
  only_appends_open only_appends_write_file : fetch.

Ltac only_appends_step :=
  first
    [ apply only_appends_writerow; first [reflexivity | split; reflexivity]
    | apply only_appends_requests_get; reflexivity
    | solve [auto with fetch]
    | apply only_appends_bind; [|intros ?]
    | apply only_appends_try;
        [|repeat (apply List.Forall_cons; [intros ?; simpl|]);
          try apply List.Forall_nil]
    | match goal with
      | |- only_appends _ _ (if ?b then _ else _) => destruct b
      | |- only_appends _ _ (let '(_, _) := ?p in _) => destruct p
      end ].

(** Handling one date adds requests and log rows for that date only. *)
Lemma handle_download_appends http_get write_fails date date_str :
  only_appends (fun q => q.1 = date)
    (fun row => length row = 3%nat /\ row !! 0%nat = Some date_str)
    (Speech.handle_download http_get write_fails date date_str).
Proof.
  unfold Speech.handle_download, Speech.save_speech_file.
  repeat only_appends_step.
Qed.

Lemma fetch_date_appends http_get write_fails date date_str :
  only_appends (fun q => q.1 = date)
    (fun row => length row = 3%nat /\ row !! 0%nat = Some date_str)
    (Voting.fetch_date http_get write_fails date date_str).
Proof.
  unfold Voting.fetch_date, Voting.save_log.
  repeat only_appends_step.
Qed.

(** *** Reading the log *)

Lemma col_index_Some name cols i :
  col_index name cols = Some i -> name ∈ cols.
Proof.
  revert i. induction cols as [|c rest IH]; intros i; simpl; [discriminate|].
  case_bool_decide as Hc.
  - intros _. subst c. apply list_elem_of_here.
  - destruct (col_index name rest) as [k|]; [|discriminate].
    intros _. apply list_elem_of_further. eapply IH. reflexivity.
Qed.

Lemma col_index_None name cols :
  col_index name cols = None -> name ∉ cols.
Proof.
  induction cols as [|c rest IH]; simpl; intros H.
  - apply not_elem_of_nil.
  - case_bool_decide as Hc; [discriminate|].
    destruct (col_index name rest); [discriminate|].
    apply not_elem_of_cons. split; [congruence | apply IH; reflexivity].
Qed.

(** A row with the status is found by the selection. *)
Lemma dates_with_status_complete header data status row i j x :
  col_index (u "Status") header = Some i ->
  col_index (u "Date") header = Some j ->
  row ∈ data -> row !! i = Some status -> row !! j = Some x ->
  exists s, dates_with_status (Frame header data) status = Ok s /\ x ∈ s.
Proof.
  intros Hi Hj Hrow Hst Hx. unfold dates_with_status, select. simpl.
  rewrite Hi, Hj. eexists. split; [reflexivity|].
  apply elem_of_list_to_set, list_elem_of_omap.
  exists row. split; [exact Hrow|].
  rewrite bool_decide_eq_true_2 by exact Hst. exact Hx.
Qed.

(** With both columns present the selection does not raise. *)
Lemma dates_with_status_ok header data status :
  u "Status" ∈ header -> u "Date" ∈ header ->
  exists s, dates_with_status (Frame header data) status = Ok s.
Proof.
  intros Hs Hd. unfold dates_with_status, select. simpl.
  destruct (col_index (u "Status") header) eqn:Hi;
    [|apply col_index_None in Hi; contradiction].
  destruct (col_index (u "Date") header) eqn:Hj;
    [|apply col_index_None in Hj; contradiction].
  eexists. reflexivity.
Qed.

(** A rectangular file is read as it stands: the first line is the
    header, the others are the rows. *)
Lemma read_csv_rectangular header data :
  rectangular (header :: data) ->
  read_csv (header :: data) = Ok (Frame header data).
Proof.
  unfold rectangular, read_csv. intros Hall.
  assert (Hkeep : filter (fun row : list str => blank_line row = false)
                    (header :: data) = header :: data).
  { clear -Hall. induction Hall as [|row rest [Hb _] _ IH]; [reflexivity|].
    rewrite filter_cons_True by exact Hb. by rewrite IH. }
  rewrite Hkeep. apply Forall_cons in Hall as [_ Hdata].
  assert (Hw : match data with
               | [] => length header
               | first :: _ => Nat.max (length header) (length first)
               end = length header).
  { destruct Hdata as [|first rest [_ Hl] _]; [reflexivity|]. lia. }
  rewrite Hw, Nat.sub_diag.
  assert (Hfit : forallb (fun row : list str =>
                            (length row <=? length header)%nat) data = true).
  { apply forallb_forall. intros row Hin.
    rewrite Forall_forall in Hdata.
    apply list_elem_of_In in Hin. destruct (Hdata row Hin) as [_ Hl].
    apply Nat.leb_le. lia. }
  rewrite Hfit. f_equal. f_equal.
  clear. induction data as [|row rest IH]; [reflexivity|].
  rewrite fmap_cons, IH. reflexivity.
Qed.

(** Rows of three fields, as the fetchers write them, make a rectangular
    file. *)
Lemma three_fields_rectangular header data :
  Forall (fun row : list str => length row = 3%nat) (header :: data) ->
  rectangular (header :: data).
Proof.
  unfold rectangular. intros Hall.
  pose proof (Forall_inv Hall) as Hh. simpl in Hh.
  eapply Forall_impl; [exact Hall|]. intros row Hrow. simpl in Hrow.
  split; [|congruence].
  destruct row as [|a [|b [|c [|d r]]]]; try discriminate. reflexivity.
Qed.

(** Loading a log whose header has both columns gives its frame and
    changes nothing. *)
Lemma initialize_log_valid w header data :
  log_file w = Some (header :: data) ->
  rectangular (header :: data) ->
  u "Status" ∈ header -> u "Date" ∈ header ->
  Speech.initialize_log w = (Ok (Frame header data), w).
Proof.
  intros Hf Hrect Hs Hd. unfold Speech.initialize_log.
  rewrite (bind_ok _ _ w w w) by reflexivity.
  rewrite Hf, (read_csv_rectangular _ _ Hrect).
  rewrite (bind_ok _ _ w (Frame header data) w) by reflexivity.
  simpl columns.
  rewrite (bool_decide_eq_true_2 _ Hs), (bool_decide_eq_true_2 _ Hd).
  reflexivity.
Qed.

Lemma initialize_log_invalid w header data :
  log_file w = Some (header :: data) ->
  rectangular (header :: data) ->
  u "Status" ∉ header \/ u "Date" ∉ header ->
  Speech.initialize_log w = (Ok empty_log, printed_invalid w).
Proof.
  intros Hf Hrect Hbad. unfold Speech.initialize_log.
  rewrite (bind_ok _ _ w w w) by reflexivity.
  rewrite Hf, (read_csv_rectangular _ _ Hrect).
  rewrite (bind_ok _ _ w (Frame header data) w) by reflexivity.
  simpl columns.
  destruct Hbad as [H|H]; rewrite (bool_decide_eq_false_2 _ H);
    [|rewrite orb_true_r]; reflexivity.
Qed.

Lemma initialize_log_absent w :
  log_file w = None -> Speech.initialize_log w = (Ok empty_log, w).
Proof.
  intros Hf. unfold Speech.initialize_log.
  rewrite (bind_ok _ _ w w w) by reflexivity. rewrite Hf. reflexivity.
Qed.

(** The two modules load the log in the same way. *)
Lemma initialize_log_same : Voting.initialize_log = Speech.initialize_log.
Proof. reflexivity. Qed.

(** *** Skipping *)

Lemma skip_or_handle (skip : bool) (m : M world unit) (x : str) date :
  (skip = false -> strftime date <> x) ->
  only_appends (fun q => q.1 = date)
    (fun row => length row = 3%nat /\ row !! 0%nat = Some (strftime date))
    m ->
  only_appends (fun q => strftime q.1 <> x)
    (fun row => length row = 3%nat /\ row !! 0%nat <> Some x)
    (if skip then mret tt else m).
Proof.
  intros Hskip Hm. destruct skip; [apply only_appends_ret|].
  specialize (Hskip eq_refl). intros w.
  eapply appends_weaken; [| |apply Hm].
  - intros q ->. exact Hskip.
  - intros row [Hlen Hrow]. split; [exact Hlen|]. rewrite Hrow. congruence.
Qed.

Lemma appends_quiet date w w' :
  log_unterminated w = false ->
  appends (fun q => strftime q.1 <> strftime date)
    (fun row => length row = 3%nat
                /\ row !! 0%nat <> Some (strftime date)) w w' ->
  quiet date w w'.
Proof.
  intros Hw H. destruct (H Hw) as (_ & reqs & rows & Hq & Hr & Fq & Fr).
  exists reqs, rows.
  split; [exact Hq|]. split; [exact Hr|]. split.
  - intros Hin. apply list_elem_of_fmap in Hin as (q & -> & Hin).
    rewrite Forall_forall in Fq. exact (Fq q Hin eq_refl).
  - rewrite Forall_forall in Fr. intros row Hin. exact (proj2 (Fr row Hin)).
Qed.

(** Appending to the log keeps terminal dates terminal. *)
Lemma terminal_appends Pq Pr w w' x :
  log_unterminated w = false ->
  terminal (log_file w) x -> appends Pq Pr w w' ->
  terminal (log_file w') x.
Proof.
  intros Hw (file & Hf & Hrow) Happ.
  destruct (Happ Hw) as (_ & reqs & rows & _ & Hl & _).
  rewrite Hf in Hl. simpl in Hl.
  assert (Hmore : forall st, has_row file x st ->
                    has_row (file ++ rows) x st).
  { intros st (h & d & row & i & j & -> & Hin & Hi & Hj & Hst & Hx).
    exists h, (d ++ rows), row, i, j. repeat split; try assumption.
    apply elem_of_app. left. exact Hin. }
  assert (Hne : file <> []).
  { destruct Hrow as [(h & d & ? & ? & ? & -> & _)|(h & d & ? & ? & ? & -> & _)];
      discriminate. }
  exists (file ++ rows). split.
  - destruct (log_file w') as [f'|]; simpl in Hl; [by subst|].
    destruct file; [contradiction | discriminate].
  - destruct Hrow as [H|H]; [left | right]; apply Hmore; exact H.
Qed.

(** *** Whole runs *)

(** A terminal date is in one of the two sets the fetchers compute from
    the loaded log. *)
Lemma terminal_loaded w x :
  (forall file, log_file w = Some file -> rectangular file) ->
  terminal (log_file w) x ->
  exists header data s1 s2,
    log_file w = Some (header :: data)
    /\ Speech.initialize_log w = (Ok (Frame header data), w)
    /\ dates_with_status (Frame header data) (u "Success") = Ok s1
    /\ dates_with_status (Frame header data) (u "Not Found") = Ok s2
    /\ (x ∈ s1 \/ x ∈ s2).
Proof.
  intros Hrect (file & Hf & Hrow). specialize (Hrect file Hf).
  assert (Hcols : exists header data i j,
             file = header :: data
             /\ col_index (u "Status") header = Some i
             /\ col_index (u "Date") header = Some j).
  { destruct Hrow as [H|H];
      destruct H as (h & d & row & i & j & -> & _ & Hi & Hj & _);
      exists h, d, i, j; auto. }
  destruct Hcols as (header & data & i & j & -> & Hi & Hj).
  pose proof (col_index_Some _ _ _ Hi) as Hs.
  pose proof (col_index_Some _ _ _ Hj) as Hd.
  destruct (dates_with_status_ok header data (u "Success") Hs Hd) as [s1 H1].
  destruct (dates_with_status_ok header data (u "Not Found") Hs Hd)
    as [s2 H2].
  exists header, data, s1, s2. split; [exact Hf|].
  split; [apply initialize_log_valid; assumption|].
  split; [exact H1|]. split; [exact H2|].
  destruct Hrow as [H|H];
    destruct H as (h & d & row & i' & j' & [= <- <-] & Hin & Hi' & Hj' & Hst & Hx);
    destruct (dates_with_status_complete _ _ _ _ _ _ _ Hi' Hj' Hin Hst Hx)
      as (s & Hs' & Hxs).
  - left. congruence.
  - right. congruence.
Qed.

(** Opening a log that has a header changes neither its content nor the
    requests, and no header row is written. *)
Lemma open_nonempty w header data :
  log_file w = Some (header :: data) ->
  open_append w = (Ok tt, w) /\ log_is_empty w = false.
Proof.
  intros Hf. unfold open_append, modify, log_is_empty. rewrite Hf. simpl.
  split; [|reflexivity]. destruct w. simpl in Hf. by subst.
Qed.

Lemma download_speeches_skips http_get write_fails start_date end_date w x :
  (forall file, log_file w = Some file -> rectangular file) ->
  terminal (log_file w) x ->
  appends (fun q => strftime q.1 <> x)
    (fun row => length row = 3%nat /\ row !! 0%nat <> Some x)
    w (snd (Speech.download_speeches http_get write_fails
              start_date end_date w)).
Proof.
  intros Hrect Hterm.
  destruct (terminal_loaded w x Hrect Hterm)
    as (header & data & s1 & s2 & Hf & Hinit & H1 & H2 & Hx).
  destruct (open_nonempty w header data Hf) as [Hopen Hempty].
  unfold Speech.download_speeches.
  rewrite (bind_ok _ _ _ _ _ Hinit).
  rewrite (bind_ok _ _ w s1 w) by (rewrite H1; reflexivity).
  rewrite (bind_ok _ _ w s2 w) by (rewrite H2; reflexivity).
  rewrite (bind_ok _ _ _ _ _ Hopen).
  rewrite (bind_ok _ _ w w w) by reflexivity.
  rewrite Hempty.
  rewrite (bind_ok _ _ w tt w) by reflexivity.
  apply only_appends_for_each. intros date.
  apply (skip_or_handle _ _ _ date); [|apply handle_download_appends].
  intros Hskip Heq. subst x.
  apply orb_false_iff in Hskip as [Ha Hb].
  apply bool_decide_eq_false in Ha, Hb. tauto.
Qed.

Lemma download_votings_skips http_get write_fails start_date end_date w x :
  (forall file, log_file w = Some file -> rectangular file) ->
  terminal (log_file w) x ->
  appends (fun q => strftime q.1 <> x)
    (fun row => length row = 3%nat /\ row !! 0%nat <> Some x)
    w (snd (Voting.download_votings http_get write_fails
              start_date end_date w)).
Proof.
  intros Hrect Hterm.
  destruct (terminal_loaded w x Hrect Hterm)
    as (header & data & s1 & s2 & Hf & Hinit & H1 & H2 & Hx).
  destruct (open_nonempty w header data Hf) as [Hopen Hempty].
  unfold Voting.download_votings.
  rewrite initialize_log_same.
  rewrite (bind_ok _ _ _ _ _ Hinit).
  rewrite (bind_ok _ _ _ _ _ Hopen).
  rewrite (bind_ok _ _ w w w) by reflexivity.
  rewrite Hempty.
  rewrite (bind_ok _ _ w tt w) by reflexivity.
  apply only_appends_for_each. intros date w'.
  rewrite (bind_ok _ _ w' s1 w') by (rewrite H1; reflexivity).
  destruct (bool_decide (strftime date ∈ s1)) eqn:Ha; [apply appends_refl|].
  rewrite (bind_ok _ _ w' s2 w') by (rewrite H2; reflexivity).
  apply (skip_or_handle _ _ _ date); [|apply fetch_date_appends].
  intros Hb Heq. subst x.
  apply bool_decide_eq_false in Ha, Hb. tauto.
Qed.

End FetchFacts.

(** ** Idempotent resume *)

Section ResumeClaims.
Import FetchFacts.

(** The log a run leaves, when it started from a log of three-field
    lines that ends with a line terminator, is such a log again. *)
Lemma three_fields_kept Pq (Pr : list str -> Prop) w w' file :
  log_file w = Some file -> file <> [] ->
  Forall (fun row : list str => length row = 3%nat) file ->
  log_unterminated w = false ->
  (forall row, Pr row -> length row = 3%nat) ->
  appends Pq Pr w w' ->
  log_unterminated w' = false
  /\ forall file', log_file w' = Some file' -> rectangular file'.
Proof.
  intros Hf Hne Hall Hw Hrows Happ.
  destruct (Happ Hw) as (Hw' & reqs & rows & _ & Hl & _ & Fr).
  split; [exact Hw'|]. intros file' Hf'.
  rewrite Hf, Hf' in Hl. simpl in Hl. subst file'.
  destruct file as [|header data]; [contradiction|].
  apply (three_fields_rectangular header (data ++ rows)).
  change (header :: data ++ rows) with ((header :: data) ++ rows).
  apply Forall_app. split; [exact Hall|].
  eapply Forall_impl; [exact Fr | exact Hrows].
Qed.

(** C1. Idempotent resume, for [download_speeches] and for
    [download_votings], on a log as the fetchers write it: every line has
    three fields and the last one ends with a line terminator.  A date of
    the requested range that already has a row with status Success or Not
    Found in the prior log gets no network call and no new log row in a
    run; the date is still terminal in the log the run leaves, and a
    second run over that log (whatever the server answers then) issues no
    call and writes no row for any date that is terminal in it. *)
Theorem terminal_dates_are_not_refetched
    (http1 http2 : nat -> str -> http_outcome)
    (write1 write2 : str -> option str)
    (start_date end_date date : Timestamp) (w : world) (file : csv) :
  log_file w = Some file ->
  Forall (fun row : list str => length row = 3%nat) file ->
  log_unterminated w = false ->
  date ∈ date_range start_date end_date ->
  terminal (log_file w) (strftime date) ->
  let speech1 :=
    (Speech.download_speeches http1 write1 start_date end_date w).2 in
  let speech2 :=
    (Speech.download_speeches http2 write2 start_date end_date speech1).2 in
  let voting1 :=
    (Voting.download_votings http1 write1 start_date end_date w).2 in
  let voting2 :=
    (Voting.download_votings http2 write2 start_date end_date voting1).2 in
  (quiet date w speech1
   /\ terminal (log_file speech1) (strftime date)
   /\ forall d, terminal (log_file speech1) (strftime d) ->
                quiet d speech1 speech2)
  /\ (quiet date w voting1
      /\ terminal (log_file voting1) (strftime date)
      /\ forall d, terminal (log_file voting1) (strftime d) ->
                   quiet d voting1 voting2).
Proof.
  intros Hf Hall Hw _ Hterm speech1 speech2 voting1 voting2.
  assert (Hne : file <> []).
  { destruct Hterm as (file' & Hf' & Hrow).
    assert (file' = file) as -> by congruence.
    destruct Hrow as [(h & d & ? & ? & ? & -> & _)|(h & d & ? & ? & ? & -> & _)];
      discriminate. }
  assert (Hrect : forall f, log_file w = Some f -> rectangular f).
  { intros f Hf'. assert (f = file) as -> by congruence.
    destruct file as [|header data]; [contradiction|].
    apply three_fields_rectangular. exact Hall. }
  split.
  - pose proof (download_speeches_skips http1 write1 start_date end_date
                  w _ Hrect Hterm) as H1.
    destruct (three_fields_kept _ _ _ _ _ Hf Hne Hall Hw
                (fun row Hrow => proj1 Hrow) H1)
      as [Hw1 Hrect1].
    split; [apply appends_quiet; [exact Hw | exact H1]|].
    split; [eapply terminal_appends; [exact Hw | exact Hterm | exact H1]|].
    intros d Hd. apply appends_quiet; [exact Hw1|].
    apply download_speeches_skips; assumption.
  - pose proof (download_votings_skips http1 write1 start_date end_date
                  w _ Hrect Hterm) as H1.
    destruct (three_fields_kept _ _ _ _ _ Hf Hne Hall Hw
                (fun row Hrow => proj1 Hrow) H1)
      as [Hw1 Hrect1].
    split; [apply appends_quiet; [exact Hw | exact H1]|].
    split; [eapply terminal_appends; [exact Hw | exact Hterm | exact H1]|].
    intros d Hd. apply appends_quiet; [exact Hw1|].
    apply download_votings_skips; assumption.
Qed.

Lemma terminal_dates_are_not_refetched_witness :
  let file := [HEADER; [u "2024-01-15"; u "Success"; u "Downloaded"]] in
  let w := World (Some file) ∅ [] [] in
  let server := fun (_ : nat) (_ : str) => Response 404 [] in
  let disk := fun _ : str => @None str in
  let date := to_datetime 2024 1 15 in
  Forall (fun row : list str => length row = 3%nat) file
  /\ log_unterminated w = false
  /\ date ∈ date_range date (date + 1)
  /\ terminal (log_file w) (strftime date)
  /\ quiet date w
       (Speech.download_speeches server disk date (date + 1) w).2
  /\ quiet date w
       (Voting.download_votings server disk date (date + 1) w).2.
Proof.
  intros file w server disk date.
  assert (Hall : Forall (fun row : list str => length row = 3%nat) file)
    by (repeat constructor).
  assert (Hin : date ∈ date_range date (date + 1))
    by apply list_elem_of_here.
  assert (Hterm : terminal (log_file w) (strftime date)).
  { eexists. split; [reflexivity|]. left.
    exists HEADER, [[u "2024-01-15"; u "Success"; u "Downloaded"]],
      [u "2024-01-15"; u "Success"; u "Downloaded"], 1%nat, 0%nat.
    repeat split; try reflexivity. apply list_elem_of_here. }
  split; [exact Hall|]. split; [reflexivity|].
  split; [exact Hin|]. split; [exact Hterm|].
  destruct (terminal_dates_are_not_refetched server server disk disk
              date (date + 1) date w file eq_refl Hall eq_refl Hin Hterm)
    as [(Hs & _ & _) (Hv & _ & _)].
  split; [exact Hs | exact Hv].
Defined.

End ResumeClaims.

(** ** A log without the required columns *)

Module InvalidLogFacts.
Import FetchFacts.

Lemma for_each_returns {S A} (body : A -> M S unit) xs :
  (forall x s, (body x s).1 = Ok tt) ->
  forall s, (for_each xs body s).1 = Ok tt.
Proof.
  intros Hbody. induction xs as [|x xs IH]; intros s; simpl; [reflexivity|].
  unfold bind. specialize (Hbody x s).
  destruct (body x s) as [[[]|e] s']; simpl in *; [apply IH | discriminate].
Qed.

Ltac unfold_fetch :=
  unfold Voting.save_log, Speech.save_speech_file, requests_get, write_file,
    writerow, try_except, mbind, M_bind, bind, mret, M_ret, ret, raise, get,
    modify.

(** The voting fetcher catches everything that handling a date raises. *)
Lemma fetch_date_returns http_get write_fails date date_str w :
  (Voting.fetch_date http_get write_fails date date_str w).1 = Ok tt.
Proof.
  unfold Voting.fetch_date. unfold_fetch.
  destruct (Voting.not_term _); [reflexivity|]. cbv beta iota.
  match goal with
  | |- context [http_get ?n ?url] =>
      destruct (http_get n url) as [code body|message]; [|reflexivity]
  end.
  cbv beta iota. destruct (code =? 200).
  - match goal with
    | |- context [write_fails ?path] => destruct (write_fails path)
    end; reflexivity.
  - destruct (code =? 404); reflexivity.
Qed.

(** The speech fetcher raises only when writing a raw file fails. *)
Lemma handle_download_returns http_get write_fails date date_str w :
  (forall path, write_fails path = None) ->
  (Speech.handle_download http_get write_fails date date_str w).1 = Ok tt.
Proof.
  intros Hdisk. unfold Speech.handle_download. unfold_fetch.
  destruct (Speech.not_term _); [reflexivity|]. cbv beta iota.
  match goal with
  | |- context [http_get ?n ?url] =>
      destruct (http_get n url) as [code body|message]; [|reflexivity]
  end.
  cbv beta iota. destruct (code =? 200).
  - rewrite Hdisk. reflexivity.
  - destruct (code =? 404); reflexivity.
Qed.

Lemma dates_with_status_empty status :
  dates_with_status empty_log status = Ok ∅.
Proof. reflexivity. Qed.





End InvalidLogFacts.

Section InvalidLogClaims.
Import FetchFacts InvalidLogFacts.




End InvalidLogClaims.

(** ** Durations *)

Module DurationFacts.
Import Speech.

Ltac digit_cases a H :=
  let E := fresh in
  assert (E : a = 0 \/ a = 1 \/ a = 2 \/ a = 3 \/ a = 4 \/ a = 5
              \/ a = 6 \/ a = 7 \/ a = 8 \/ a = 9) by lia;
  clear H;
  repeat (destruct E as [E | E]; [subst a | ]); [.. | subst a].

Ltac eval_digits :=
  repeat match goal with
         | |- context [digit ?n] =>
             let v := eval vm_compute in (digit n) in
             change (digit n) with v
         end.

(** A group of the pattern followed by a colon: the one way it matches a
    number within its range. *)
Lemma hour_then_colon {A} (th r : str) h (k : Z -> str -> list A) :
  number th h -> h <= 23 ->
  ('(h', s1) ← hour_group (th ++ 58%N :: r); s2 ← colon s1; k h' s2)
  = k h r.
Proof.
  intros [(a & Ha & -> & ->)|(a & b & Ha & Hb & -> & ->)] Hh.
  - digit_cases a Ha; eval_digits; cbn; rewrite ?app_nil_r; reflexivity.
  - digit_cases a Ha; digit_cases b Hb; try lia; eval_digits; cbn; rewrite ?app_nil_r; reflexivity.
Qed.

Lemma minute_then_colon {A} (tm r : str) m (k : Z -> str -> list A) :
  number tm m -> m <= 59 ->
  ('(m', s1) ← minute_group (tm ++ 58%N :: r); s2 ← colon s1; k m' s2)
  = k m r.
Proof.
  intros [(a & Ha & -> & ->)|(a & b & Ha & Hb & -> & ->)] Hh.
  - digit_cases a Ha; eval_digits; cbn; rewrite ?app_nil_r; reflexivity.
  - digit_cases a Ha; digit_cases b Hb; try lia; eval_digits; cbn; rewrite ?app_nil_r; reflexivity.
Qed.

Lemma second_at_end (ts : str) s :
  number ts s -> s <= 59 ->
  exists others, second_group ts = (s, []) :: others
                 /\ Forall (fun x => x.2 <> []) others.
Proof.
  intros [(a & Ha & -> & ->)|(a & b & Ha & Hb & -> & ->)] Hh.
  - digit_cases a Ha; eval_digits; cbn; eexists; (split; [reflexivity | constructor]).
  - digit_cases a Ha; digit_cases b Hb; try lia; eval_digits; cbn; eexists;
      (split; [reflexivity | repeat constructor; discriminate]).
Qed.

(** A time of day parses to its seconds after midnight. *)
Lemma strptime_time_of_day text h m s :
  time_of_day text h m s -> 0 <= h -> strptime text = Ok (h * 3600 + m * 60 + s).
Proof.
  intros (th & tm & ts & -> & Nh & Nm & Ns & Hh & Hm & Hs) _.
  unfold strptime, hms_matches.
  change (u ":") with [58%N]. cbn [app].
  rewrite (hour_then_colon th _ h _ Nh Hh).
  rewrite (minute_then_colon tm _ m _ Nm Hm).
  destruct (second_at_end ts s Ns Hs) as (others & -> & _).
  cbn. destruct (Z.ltb_spec 59 s); [lia|]. reflexivity.
Qed.

Lemma digit_of_code (c : N) :
  (48 <= c <= 57)%N ->
  c = digit (Z.of_N c - 48) /\ 0 <= Z.of_N c - 48 <= 9.
Proof. unfold digit. lia. Qed.

Lemma two_chars_number lo1 hi1 lo2 hi2 s v rest :
  (48 <= lo1)%N -> (hi1 <= 57)%N -> (48 <= lo2)%N -> (hi2 <= 57)%N ->
  two_chars lo1 hi1 lo2 hi2 s = Some (v, rest) ->
  exists a b,
    s = [digit a; digit b] ++ rest /\ number [digit a; digit b] v
    /\ Z.of_N lo1 - 48 <= a <= Z.of_N hi1 - 48
    /\ Z.of_N lo2 - 48 <= b <= Z.of_N hi2 - 48
    /\ v = 10 * a + b.
Proof.
  intros L1 H1 L2 H2. unfold two_chars.
  destruct s as [|a [|b r]]; try discriminate.
  destruct (N.leb_spec lo1 a), (N.leb_spec a hi1), (N.leb_spec lo2 b),
    (N.leb_spec b hi2); try discriminate.
  intros [= <- <-].
  destruct (digit_of_code a ltac:(lia)) as [Ea Ra].
  destruct (digit_of_code b ltac:(lia)) as [Eb Rb].
  exists (Z.of_N a - 48), (Z.of_N b - 48).
  rewrite <- Ea, <- Eb. split; [reflexivity|].
  split; [|lia].
  right. exists (Z.of_N a - 48), (Z.of_N b - 48).
  rewrite <- Ea, <- Eb. repeat split; lia.
Qed.

Lemma one_digit_number s v rest :
  one_digit s = Some (v, rest) ->
  exists th, s = th ++ rest /\ number th v /\ 0 <= v <= 9.
Proof.
  unfold one_digit, is_digit. destruct s as [|a r]; [discriminate|].
  destruct (N.leb_spec 48 a), (N.leb_spec a 57); try discriminate.
  intros [= <- <-].
  destruct (digit_of_code a ltac:(lia)) as [Ea Ra].
  exists [a]. split; [reflexivity|]. split; [|lia].
  left. exists (Z.of_N a - 48). repeat split; [lia | lia | congruence].
Qed.

Ltac group_cases Hin E :=
  apply list_elem_of_omap in Hin as (alt & Hin & E);
  repeat (apply elem_of_cons in Hin as [Hin|Hin]; [subst alt|]);
  [.. | by apply elem_of_nil in Hin].

Ltac group_number E :=
  first [ apply two_chars_number in E as (a & b & -> & N & ? & ? & ->);
            [|lia..];
          exists [digit a; digit b]; repeat split; [exact N | lia | lia]
        | apply one_digit_number in E as (th & -> & N & ?);
          exists th; repeat split; [exact N | lia | lia] ].

Lemma hour_group_number s h rest :
  (h, rest) ∈ hour_group s ->
  exists th, s = th ++ rest /\ number th h /\ 0 <= h <= 23.
Proof.
  intros Hin. unfold hour_group, alternatives in Hin.
  group_cases Hin E; group_number E.
Qed.

Lemma minute_group_number s m rest :
  (m, rest) ∈ minute_group s ->
  exists tm, s = tm ++ rest /\ number tm m /\ 0 <= m <= 59.
Proof.
  intros Hin. unfold minute_group, alternatives in Hin.
  group_cases Hin E; group_number E.
Qed.

Lemma second_group_number s sec rest :
  (sec, rest) ∈ second_group s ->
  exists ts, s = ts ++ rest /\ number ts sec /\ 0 <= sec <= 61.
Proof.
  intros Hin. unfold second_group, alternatives in Hin.
  group_cases Hin E; group_number E.
Qed.

Lemma colon_inv s rest : rest ∈ colon s -> s = 58%N :: rest.
Proof.
  unfold colon. intros H.
  destruct s as [|c r]; [by apply elem_of_nil in H|].
  destruct c as [|p]; [by apply elem_of_nil in H|].
  do 7 (try (destruct p as [p|p|]; cbn in H;
             try (by apply elem_of_nil in H))).
  apply list_elem_of_singleton in H. by subst.
Qed.

(** What parses is a time of day. *)
Lemma strptime_Ok text v :
  strptime text = Ok v ->
  exists h m s, time_of_day text h m s /\ 0 <= h /\ 0 <= m /\ 0 <= s
                /\ v = h * 3600 + m * 60 + s.
Proof.
  unfold strptime.
  destruct (hms_matches text) as [|[[[h m] sec] rest] others] eqn:Hm;
    [discriminate|].
  case_bool_decide as Hrest; [discriminate|].
  destruct (Z.ltb_spec 59 sec); [discriminate|]. intros [= <-].
  assert (rest = []) as -> by (destruct rest; [reflexivity | discriminate]).
  assert (Hin : (h, m, sec, []) ∈ hms_matches text)
    by (rewrite Hm; apply list_elem_of_here).
  unfold hms_matches in Hin.
  apply list_elem_of_bind in Hin as ([h' s1] & Hin & H1).
  apply list_elem_of_bind in Hin as (s2 & Hin & H2).
  apply list_elem_of_bind in Hin as ([m' s3] & Hin & H3).
  apply list_elem_of_bind in Hin as (s4 & Hin & H4).
  apply list_elem_of_bind in Hin as ([sec' s5] & Hin & H5).
  apply list_elem_of_singleton in Hin. injection Hin as <- <- <- <-.
  apply hour_group_number in H1 as (th & -> & Nh & Rh).
  apply colon_inv in H2 as ->.
  apply minute_group_number in H3 as (tm & -> & Nm & Rm).
  apply colon_inv in H4 as ->.
  apply second_group_number in H5 as (ts & -> & Ns & Rs).
  exists h, m, sec. split; [|lia].
  exists th, tm, ts. rewrite app_nil_r.
  repeat split; try assumption; lia.
Qed.

(** The two are the same: [strptime] accepts exactly the times of day. *)
Lemma strptime_accepts text :
  (exists v, strptime text = Ok v) <-> (exists h m s, time_of_day text h m s).
Proof.
  split.
  - intros [v Hv]. apply strptime_Ok in Hv as (h & m & s & Ht & _).
    eauto.
  - intros (h & m & s & Ht). eexists.
    apply strptime_time_of_day; [exact Ht|].
    destruct Ht as (th & _ & _ & _ & [(a & ? & _ & ->)|(a & b & ? & ? & _ & ->)] & _); lia.
Qed.

(** One step of [split] on a character that is not the separator. *)
Lemma split_go_other (c : N) (a acc : str) n :
  46%N <> c ->
  split_go [46%N] (S n) 0 acc (c :: a) = split_go [46%N] (S n) 0 (c :: acc) a.
Proof.
  intros Hc.
  change (split_go [46%N] (S n) 0 acc (c :: a))
    with (if (46 =? c)%N && true
          then rev acc :: split_go [46%N] n 0 [] a
          else split_go [46%N] (S n) 0 (c :: acc) a).
  apply N.eqb_neq in Hc. rewrite Hc. reflexivity.
Qed.

(** [s.split('.')[0]] is what precedes the first dot. *)
Lemma split_go_head_no_dot (a : str) :
  forall acc n,
    46%N ∉ a -> hd [] (split_go [46%N] n 0 acc a) = rev acc ++ a.
Proof.
  induction a as [|c a IH]; intros acc n Hdot.
  - simpl. by rewrite app_nil_r.
  - apply not_elem_of_cons in Hdot as [Hc Ha].
    destruct n as [|n]; [reflexivity|].
    rewrite split_go_other by exact Hc.
    rewrite IH by exact Ha. simpl. by rewrite <- app_assoc.
Qed.

Lemma split_go_head_dot (a rest : str) :
  forall acc n,
    46%N ∉ a -> (length a < n)%nat ->
    hd [] (split_go [46%N] n 0 acc (a ++ 46%N :: rest)) = rev acc ++ a.
Proof.
  induction a as [|c a IH]; intros acc n Hdot Hn.
  - destruct n as [|n]; [simpl in Hn; lia|]. simpl. by rewrite app_nil_r.
  - apply not_elem_of_cons in Hdot as [Hc Ha].
    destruct n as [|n]; [simpl in Hn; lia|].
    change ((c :: a) ++ 46%N :: rest) with (c :: (a ++ 46%N :: rest)).
    rewrite split_go_other by exact Hc.
    rewrite IH; [|exact Ha|simpl in Hn; lia].
    simpl. by rewrite <- app_assoc.
Qed.

Lemma split_dot_head (a suffix : str) :
  46%N ∉ a -> fraction suffix ->
  hd [] (split (u ".") (a ++ suffix)) = a.
Proof.
  intros Hdot [->|[digits ->]]; unfold split, split_n.
  - rewrite app_nil_r. apply (split_go_head_no_dot a [] _ Hdot).
  - apply (split_go_head_dot a digits [] _ Hdot).
    rewrite length_app. simpl. lia.
Qed.

(** What [strptime] raises is a [ValueError]. *)
Lemma strptime_raises s e : strptime s = Raise e -> exn_cls e = ValueError.
Proof.
  unfold strptime. destruct (hms_matches s) as [|[[[h m] sec] rest] ?].
  - intros [= <-]. reflexivity.
  - case_bool_decide; [intros [= <-]; reflexivity|].
    destruct (59 <? sec); [intros [= <-]; reflexivity | discriminate].
Qed.

(** The outcome of [calculate_duration], by the outcomes of the two
    parses. *)
Lemma calculate_duration_cases ts te :
  match strptime (hd [] (split (u ".") ts)),
        strptime (hd [] (split (u ".") te)) with
  | Ok s, Ok e =>
      calculate_duration ts te = Ok (Some ((e - s) mod 86400))
  | _, _ => calculate_duration ts te = Ok None
  end.
Proof.
  unfold calculate_duration, mbind, result_bind, timedelta_seconds.
  destruct (strptime (hd [] (split (u ".") ts))) as [s|e1] eqn:H1.
  - destruct (strptime (hd [] (split (u ".") te))) as [e|e2] eqn:H2;
      [reflexivity|].
    apply strptime_raises in H2. rewrite H2. reflexivity.
  - apply strptime_raises in H1. rewrite H1. reflexivity.
Qed.

Lemma number_bounds text n : number text n -> 0 <= n.
Proof. intros [(a & ? & _ & ->)|(a & b & ? & ? & _ & ->)]; lia. Qed.

Lemma time_of_day_bounds text h m s :
  time_of_day text h m s -> 0 <= h /\ 0 <= m /\ 0 <= s.
Proof.
  intros (th & tm & ts & _ & Nh & Nm & Ns & _).
  apply number_bounds in Nh, Nm, Ns. lia.
Qed.

End DurationFacts.

Section DurationClaims.
Import Speech DurationFacts.

(** Counterexample to C4: with the end before the start the result is not
    end minus start (-3600 seconds here) but that difference plus one
    day. *)
Lemma calculate_duration_wraps_around :
  strptime (u "12:00:00") = Ok 43200
  /\ strptime (u "11:00:00") = Ok 39600
  /\ calculate_duration (u "12:00:00") (u "11:00:00") = Ok (Some 82800)
  /\ 82800 <> 39600 - 43200.
Proof. repeat split; try reflexivity. discriminate. Qed.

(** C4, amended. The part of a timestamp before its first dot is what is
    parsed.  For ASCII text, when both parts are times of day [H:M:S]
    (hours to 23, minutes and seconds to 59, one or two digits each),
    [calculate_duration] returns end minus start in whole seconds modulo
    one day (86400): end minus start itself when the end is not before
    the start, one day more otherwise.  When either part is anything
    else the result is null.  [calculate_duration("12:00:00",
    "12:30:20")] is 1820, and the function raises for no pair of
    strings. *)
Theorem calculate_duration_modulo_day
    (p1 f1 p2 f2 : str) (ts te : str) :
  ascii_text p1 -> ascii_text p2 ->
  46%N ∉ p1 -> 46%N ∉ p2 -> fraction f1 -> fraction f2 ->
  (forall h1 m1 s1 h2 m2 s2,
     time_of_day p1 h1 m1 s1 -> time_of_day p2 h2 m2 s2 ->
     let start := h1 * 3600 + m1 * 60 + s1 in
     let stop := h2 * 3600 + m2 * 60 + s2 in
     calculate_duration (p1 ++ f1) (p2 ++ f2)
     = Ok (Some ((stop - start) mod 86400))
     /\ (start <= stop ->
         calculate_duration (p1 ++ f1) (p2 ++ f2) = Ok (Some (stop - start))))
  /\ ((~ exists h m s, time_of_day p1 h m s)
      \/ (~ exists h m s, time_of_day p2 h m s) ->
      calculate_duration (p1 ++ f1) (p2 ++ f2) = Ok None)
  /\ calculate_duration (u "12:00:00") (u "12:30:20") = Ok (Some 1820)
  /\ exists duration, calculate_duration ts te = Ok duration.
Proof.
  intros _ _ D1 D2 Hf1 Hf2.
  pose proof (calculate_duration_cases (p1 ++ f1) (p2 ++ f2)) as Hc.
  rewrite (split_dot_head _ _ D1 Hf1), (split_dot_head _ _ D2 Hf2) in Hc.
  split; [|split; [|split]].
  - intros h1 m1 s1 h2 m2 s2 T1 T2 start stop.
    assert (B1 : 0 <= h1 /\ 0 <= m1 /\ 0 <= s1) by (apply time_of_day_bounds in T1; lia).
    assert (B2 : 0 <= h2 /\ 0 <= m2 /\ 0 <= s2) by (apply time_of_day_bounds in T2; lia).
    pose proof T1 as (_ & _ & _ & _ & _ & _ & _ & U1 & V1 & W1).
    pose proof T2 as (_ & _ & _ & _ & _ & _ & _ & U2 & V2 & W2).
    rewrite (strptime_time_of_day _ _ _ _ T1) in Hc by lia.
    rewrite (strptime_time_of_day _ _ _ _ T2) in Hc by lia.
    fold start stop in Hc. split; [exact Hc|].
    intros Hle. rewrite Hc. do 2 f_equal.
    apply Z.mod_small. unfold start, stop in *. lia.
  - intros Hbad.
    destruct (strptime p1) as [v1|e1] eqn:P1;
      [destruct (strptime p2) as [v2|e2] eqn:P2|]; try exact Hc.
    exfalso. destruct Hbad as [Hno|Hno]; apply Hno;
      apply strptime_accepts; eauto.
  - reflexivity.
  - pose proof (calculate_duration_cases ts te) as Hd.
    destruct (strptime (hd [] (split (u ".") ts)));
      destruct (strptime (hd [] (split (u ".") te))); eauto.
Qed.

Lemma calculate_duration_modulo_day_witness :
  ascii_text (u "23:50:00") /\ ascii_text (u "0:10:05")
  /\ ascii_text (u "noon")
  /\ fraction (u ".250") /\ fraction []
  /\ time_of_day (u "23:50:00") 23 50 0 /\ time_of_day (u "0:10:05") 0 10 5
  /\ (~ exists h m s, time_of_day (u "noon") h m s)
  /\ calculate_duration (u "23:50:00.250") (u "0:10:05") = Ok (Some 1205)
  /\ calculate_duration (u "noon") (u "0:10:05") = Ok None.
Proof.
  assert (A1 : ascii_text (u "23:50:00")) by (repeat constructor).
  assert (A2 : ascii_text (u "0:10:05")) by (repeat constructor).
  assert (A3 : ascii_text (u "noon")) by (repeat constructor).
  assert (D1 : 46%N ∉ u "23:50:00")
    by (apply (bool_decide_eq_false_1 (46%N ∈ u "23:50:00")); reflexivity).
  assert (D2 : 46%N ∉ u "0:10:05")
    by (apply (bool_decide_eq_false_1 (46%N ∈ u "0:10:05")); reflexivity).
  assert (D3 : 46%N ∉ u "noon")
    by (apply (bool_decide_eq_false_1 (46%N ∈ u "noon")); reflexivity).
  assert (F1 : fraction (u ".250")) by (right; eexists; reflexivity).
  assert (F2 : fraction []) by (left; reflexivity).
  assert (T1 : time_of_day (u "23:50:00") 23 50 0).
  { exists (u "23"), (u "50"), (u "00"). split; [reflexivity|].
    split; [right; exists 2, 3; repeat split; lia|].
    split; [right; exists 5, 0; repeat split; lia|].
    split; [right; exists 0, 0; repeat split; lia|]. lia. }
  assert (T2 : time_of_day (u "0:10:05") 0 10 5).
  { exists (u "0"), (u "10"), (u "05"). split; [reflexivity|].
    split; [left; exists 0; repeat split; lia|].
    split; [right; exists 1, 0; repeat split; lia|].
    split; [right; exists 0, 5; repeat split; lia|]. lia. }
  assert (T3 : ~ exists h m s, time_of_day (u "noon") h m s).
  { intros H. apply strptime_accepts in H as [v Hv]. discriminate Hv. }
  repeat (split; [assumption|]).
  destruct (calculate_duration_modulo_day (u "23:50:00") (u ".250")
              (u "0:10:05") [] [] [] A1 A2 D1 D2 F1 F2) as (Hgood & _).
  destruct (calculate_duration_modulo_day (u "noon") []
              (u "0:10:05") [] [] [] A3 A2 D3 D2 F2 F2) as (_ & Hbad & _).
  split.
  - exact (proj1 (Hgood 23 50 0 0 10 5 T1 T2)).
  - apply Hbad. left. exact T3.
Defined.

End DurationClaims.

(** ** Extraction *)

Section ExtractionClaims.
Import Samples.

(** C6. Parsing the minimal speech document yields exactly one record,
    with speaker name "Doe Jane", duration 300 and text "Hello world."
    (and the date and times of the marker); the batch returns normally
    and writes that record. *)
Theorem parse_minimal_speech_document :
  exists record,
    Speech.parse_speeches
      [(u "CRE-9-2024-01-15.xml", Ok minimal_speech_document)]
      (Speech.Batch [] [] None)
    = (Ok tt, Speech.Batch [record] [u "Combined CSV saved"] (Some [record]))
    /\ Speech.Speaker_Name record = u "Doe Jane"
    /\ Speech.Duration record = Some 300
    /\ Speech.Text record = u "Hello world."
    /\ Speech.Date record = u "2024-01-15"
    /\ Speech.Time_Start record = u "12:00:00"
    /\ Speech.Time_End record = u "12:05:00".
Proof. eexists. vm_compute. repeat split. Qed.

(** C7. Parsing the minimal vote document yields exactly one record, with
    vote type "For", description "Test Motion", member id 123 and member
    name "Jane Doe". *)
Theorem parse_minimal_vote_document :
  exists record,
    Voting.parse_single_file (Ok minimal_vote_document) = Ok [record]
    /\ Voting.parse_votings
         [(u "PV-9-2024-01-15.xml", Ok minimal_vote_document)]
         (Voting.Batch [] [] None)
       = (Ok tt,
          Voting.Batch [record] [u "Voting data saved"] (Some [record]))
    /\ Voting.Vote record = u "For"
    /\ Voting.Description record = u "Test Motion"
    /\ Voting.MEP_ID record = u "123"
    /\ Voting.Name record = u "Jane Doe".
Proof. eexists. vm_compute. repeat split. Qed.

(** C9 fails on the code.  A vote file whose roll-call result has no
    description makes [parse_votings] raise [AttributeError]: nothing is
    printed, the valid file after it is never read and no output is
    written; [parse_speeches] catches that class.  An unreadable speech
    file ([PermissionError]) and a timing marker without "T"
    ([ValueError]) make [parse_speeches] raise in the same way;
    [parse_votings] catches the first of these. *)
Theorem per_file_failure_aborts_batch :
  (exists e,
     Voting.parse_votings
       [ (u "bad.xml", Ok vote_document_without_description);
         (u "good.xml", Ok minimal_vote_document) ]
       (Voting.Batch [] [] None)
     = (Raise e, Voting.Batch [] [] None)
     /\ exn_cls e = AttributeError)
  /\ (exists e,
        Speech.parse_speeches
          [ (u "locked.xml", Raise (Exn PermissionError (u "Permission denied")));
            (u "good.xml", Ok minimal_speech_document) ]
          (Speech.Batch [] [] None)
        = (Raise e, Speech.Batch [] [] None)
        /\ exn_cls e = PermissionError)
  /\ (exists e,
        Speech.parse_speeches
          [ (u "bad.xml", Ok speech_document_with_bad_marker);
            (u "good.xml", Ok minimal_speech_document) ]
          (Speech.Batch [] [] None)
        = (Raise e, Speech.Batch [] [] None)
        /\ exn_cls e = ValueError).
Proof.
  split; [|split]; eexists; vm_compute; split; reflexivity.
Qed.

(** The failures the handlers do name are caught: the file is reported
    and skipped, and the files after it are parsed. *)
Lemma named_failures_are_skipped :
  (exists record,
     Voting.parse_votings
       [ (u "broken.xml", Raise (Exn ParseError (u "syntax error")));
         (u "locked.xml", Raise (Exn PermissionError (u "Permission denied")));
         (u "good.xml", Ok minimal_vote_document) ]
       (Voting.Batch [] [] None)
     = (Ok tt,
        Voting.Batch [record]
          [ u "XML parsing error in file broken.xml: syntax error";
            u "File error with locked.xml: Permission denied";
            u "Voting data saved" ]
          (Some [record])))
  /\ (exists record,
        Speech.parse_speeches
          [ (u "broken.xml", Raise (Exn ParseError (u "syntax error")));
            (u "good.xml", Ok minimal_speech_document) ]
          (Speech.Batch [] [] None)
        = (Ok tt,
           Speech.Batch [record]
             [ u "Error processing file broken.xml: syntax error";
               u "Combined CSV saved" ]
             (Some [record]))).
Proof. split; eexists; vm_compute; reflexivity. Qed.

End ExtractionClaims.

(** ** Translation *)

Section TranslationClaims.
Import Speech FetchFacts.

Lemma bind_returns {S A B} (m : M S A) (f : A -> M S B) s b s' :
  (m ≫= f) s = (Ok b, s') ->
  exists a s1, m s = (Ok a, s1) /\ f a s1 = (Ok b, s').
Proof.
  unfold mbind, M_bind, bind. destruct (m s) as [[a|e] s1]; [|discriminate].
  intros H. exists a, s1. split; [reflexivity | exact H].
Qed.

(** Counterexample to C5: a text detected as English comes back unchanged
    with the flag set, whatever the provider would answer. *)
Lemma english_text_is_flagged :
  translate_text (fun _ => Ok (u "en")) (fun _ _ _ => NoText)
    (u "Hello world.") (Provider 0 [] [])
  = (Ok (u "Hello world.", 1), Provider 0 [] []).
Proof. reflexivity. Qed.

(** C5, amended. For every input text, [translate_text] reports the flag
    1 only if the returned text differs from the input, or the input was
    detected as English, or the input is longer than 5000 characters;
    whenever it reports 0 the text is returned unchanged.  A text that is
    not blank and is detected as English is passed through unchanged with
    the flag 1, without a call of the provider. *)
Theorem translate_text_flag
    (detect : str -> result str) (translate : nat -> str -> str -> translation)
    (text : str) (p : provider) :
  (forall returned flag p',
     translate_text detect translate text p = (Ok (returned, flag), p') ->
     (flag = 1 ->
      returned <> text \/ detect text = Ok (u "en")
      \/ (5000 < length text)%nat)
     /\ (flag = 0 -> returned = text)
     /\ (flag = 0 \/ flag = 1))
  /\ (strip text <> [] -> detect text = Ok (u "en") ->
      translate_text detect translate text p = (Ok (text, 1), p)).
Proof.
  split.
  - intros returned flag p'. unfold translate_text, try_except.
    match goal with
    | |- context [?body p] =>
        match body with
        | (if _ then _ else _) => destruct (body p) as [[[t f]|e] p1] eqn:Hbody
        end
    end.
    + intros [= -> -> ->]. revert Hbody.
      case_bool_decide as Hblank.
      { intros [= <- <- _]. repeat split; try discriminate; auto. }
      intros Hbody. apply bind_returns in Hbody as (lang & p2 & Hd & Hbody).
      unfold of_result in Hd. injection Hd as Hd <-.
      revert Hbody. case_bool_decide as Hen.
      { subst lang. intros [= <- <- _].
        repeat split; try discriminate; auto. }
      case_bool_decide as Hlong.
      { intros Hbody.
        apply bind_returns in Hbody as (chunks & p3 & _ & [= <- <- _]).
        repeat split; try discriminate; auto. }
      intros Hbody.
      apply bind_returns in Hbody as (translated & p3 & _ & Hbody).
      revert Hbody. case_bool_decide as Hsame.
      * intros [= <- <- _]. repeat split; try discriminate; auto.
      * intros [= <- <- _]. repeat split; try discriminate; auto.
    + destruct (find_handler _ e) as [handler|] eqn:Hh; [|discriminate].
      simpl in Hh.
      match type of Hh with
      | (if ?b then _ else _) = _ => destruct b; [|discriminate]
      end.
      injection Hh as <-.
      unfold mbind, M_bind, bind, say, modify, mret, M_ret, ret.
      intros [= <- <- _]. repeat split; try discriminate; auto.
  - intros Hblank Hen. unfold translate_text, try_except.
    rewrite bool_decide_eq_false_2 by exact Hblank.
    rewrite (bind_ok _ _ p (u "en") p) by (unfold of_result; by rewrite Hen).
    rewrite bool_decide_eq_true_2 by reflexivity. reflexivity.
Qed.

Lemma translate_text_flag_witness :
  strip (u "Hello world.") <> []
  /\ translate_text (fun _ => Ok (u "en")) (fun _ _ _ => NoText)
       (u "Hello world.") (Provider 0 [] [])
     = (Ok (u "Hello world.", 1), Provider 0 [] []).
Proof.
  assert (Hblank : strip (u "Hello world.") <> []) by discriminate.
  split; [exact Hblank|].
  destruct (translate_text_flag (fun _ => Ok (u "en")) (fun _ _ _ => NoText)
              (u "Hello world.") (Provider 0 [] [])) as [_ Hen].
  apply Hen; [exact Hblank | reflexivity].
Defined.

End TranslationClaims.

(** * Further properties *)

(** ** Durations are within one day *)

Section DurationRange.
Import Speech DurationFacts.

(** X1. A duration that is not null is a number of seconds within one day:
    never negative, never 86400 or more. *)
Theorem calculate_duration_range (time_start time_end : str) (d : Z) :
  calculate_duration time_start time_end = Ok (Some d) ->
  0 <= d < 86400.
Proof.
  intros H. pose proof (calculate_duration_cases time_start time_end) as Hc.
  destruct (strptime (hd [] (split (u ".") time_start))) as [s|];
    [destruct (strptime (hd [] (split (u ".") time_end))) as [e|]|];
    rewrite Hc in H; try discriminate.
  injection H as <-. apply Z.mod_pos_bound. lia.
Qed.

Lemma calculate_duration_range_witness :
  calculate_duration (u "23:59:59") (u "00:00:01") = Ok (Some 2)
  /\ 0 <= 2 < 86400.
Proof.
  assert (H : calculate_duration (u "23:59:59") (u "00:00:01") = Ok (Some 2))
    by reflexivity.
  split; [exact H|].
  exact (calculate_duration_range _ _ _ H).
Defined.

End DurationRange.

(** ** Retries of the translation provider *)

Module RetryFacts.
Import Speech.

(** The exception classes [translate_chunk] retries on. *)
Lemma transient_caught (e : exn) :
  existsb (is_a (exn_cls e)) [ConnectionError; TimeoutError; ValueError]
  = true ->
  forall (h : exn -> M provider (option str)),
    find_handler [([ConnectionError; TimeoutError; ValueError], h)] e
    = Some h.
Proof. intros H h. cbn [find_handler]. by rewrite H. Qed.

(** One attempt of the retry loop, by what the provider does. *)
Lemma translate_attempts_cons translate attempt rest chunk src_lang p :
  translate_attempts translate (attempt :: rest) chunk src_lang p
  = match translate (calls p) chunk src_lang with
    | Translated text =>
        (Ok text, Provider (S (calls p)) (sleeps p ++ [400]) (messages p))
    | NoText =>
        translate_attempts translate rest chunk src_lang
          (Provider (S (calls p)) (sleeps p) (messages p))
    | TranslateRaises e =>
        if existsb (is_a (exn_cls e))
             [ConnectionError; TimeoutError; ValueError]
        then translate_attempts translate rest chunk src_lang
               (Provider (S (calls p)) (sleeps p ++ [1000 * 2 ^ attempt])
                  (messages p
                   ++ [u "Retrying translation for chunk due to network issue or error for chunk: "
                       ++ exn_msg e]))
        else (Raise e, Provider (S (calls p)) (sleeps p) (messages p))
    end.
Proof.
  cbn [translate_attempts].
  unfold translator_translate, try_except, mbind, M_bind, bind, get, modify,
    mret, M_ret, ret, raise, sleep, say.
  destruct (translate (calls p) chunk src_lang) as [text| |e];
    cbv beta iota; try reflexivity.
  cbn [find_handler].
  destruct (existsb (is_a (exn_cls e))
              [ConnectionError; TimeoutError; ValueError]); reflexivity.
Qed.

(** The loop calls the provider at most once per attempt, and what it
    raises is not one of the classes it retries on. *)
Lemma translate_attempts_bounded translate chunk src_lang attempts :
  forall p,
    let out := translate_attempts translate attempts chunk src_lang p in
    (calls p <= calls out.2 <= calls p + length attempts)%nat
    /\ forall e, out.1 = Raise e ->
                 existsb (is_a (exn_cls e))
                   [ConnectionError; TimeoutError; ValueError] = false.
Proof.
  induction attempts as [|attempt rest IH]; intros p.
  - simpl. split; [lia | discriminate].
  - cbv zeta. rewrite translate_attempts_cons.
    destruct (translate (calls p) chunk src_lang) as [text| |e].
    + simpl. split; [lia | discriminate].
    + specialize (IH (Provider (S (calls p)) (sleeps p) (messages p))).
      cbv zeta in IH. simpl in IH |- *. destruct IH as [Hc Hr].
      split; [lia | exact Hr].
    + destruct (existsb (is_a (exn_cls e)) _) eqn:He.
      * match goal with
        | |- context [translate_attempts _ _ _ _ ?q] => specialize (IH q)
        end.
        cbv zeta in IH. simpl in IH |- *. destruct IH as [Hc Hr].
        split; [lia | exact Hr].
      * simpl. split; [lia|]. intros e' [= <-]. exact He.
Qed.

End RetryFacts.

Section RetryProperties.
Import Speech RetryFacts.

(** X2. Whatever the provider does, translating one chunk calls it at
    most three times, and an exception of a class the loop
    retries on (ConnectionError, TimeoutError, ValueError) never leaves
    [translate_chunk]. *)
Theorem translate_chunk_calls_bounded
    (translate : nat -> str -> str -> translation)
    (chunk src_lang : str) (p : provider) :
  let out := translate_chunk translate chunk src_lang p in
  (calls p <= calls out.2 <= calls p + 3)%nat
  /\ forall e, out.1 = Raise e ->
               existsb (is_a (exn_cls e))
                 [ConnectionError; TimeoutError; ValueError] = false.
Proof.
  exact (translate_attempts_bounded translate chunk src_lang [0; 1; 2] p).
Qed.

(** X3. When the three calls all fail with an error the loop retries on, the
    chunk comes back unchanged, without an exception, after pauses of 1, 2
    and 4 seconds and one message per failure. *)
Theorem translate_chunk_exhausted
    (translate : nat -> str -> str -> translation)
    (chunk src_lang : str) (p : provider) :
  (forall n, (calls p <= n < calls p + 3)%nat ->
     exists e, translate n chunk src_lang = TranslateRaises e
               /\ existsb (is_a (exn_cls e))
                    [ConnectionError; TimeoutError; ValueError] = true) ->
  exists m1 m2 m3,
    translate_chunk translate chunk src_lang p
    = (Ok chunk,
       Provider (calls p + 3) (sleeps p ++ [1000; 2000; 4000])
         (messages p ++ [m1; m2; m3])).
Proof.
  intros Hfail. unfold translate_chunk.
  destruct (Hfail (calls p) ltac:(lia)) as (e1 & H1 & T1).
  destruct (Hfail (S (calls p)) ltac:(lia)) as (e2 & H2 & T2).
  destruct (Hfail (S (S (calls p))) ltac:(lia)) as (e3 & H3 & T3).
  rewrite translate_attempts_cons, H1, T1.
  rewrite translate_attempts_cons. cbn [calls sleeps messages].
  rewrite H2, T2.
  rewrite translate_attempts_cons. cbn [calls sleeps messages].
  rewrite H3, T3.
  do 3 eexists. cbn [translate_attempts].
  unfold mret, M_ret, ret. f_equal. f_equal.
  - lia.
  - rewrite <- !app_assoc. reflexivity.
  - rewrite <- !app_assoc. reflexivity.
Qed.

Lemma translate_chunk_exhausted_witness :
  let down := fun (_ : nat) (_ _ : str) =>
                TranslateRaises (Exn TimeoutError (u "timed out")) in
  exists m1 m2 m3,
    translate_chunk down (u "Bonjour") (u "fr") (Provider 0 [] [])
    = (Ok (u "Bonjour"), Provider 3 [1000; 2000; 4000] [m1; m2; m3]).
Proof.
  intros down.
  destruct (translate_chunk_exhausted down (u "Bonjour") (u "fr")
              (Provider 0 [] []))
    as (m1 & m2 & m3 & H).
  - intros n _. eexists. split; reflexivity.
  - exists m1, m2, m3. exact H.
Defined.

Lemma translate_chunk_calls_bounded_witness :
  let answers := fun (n : nat) (_ _ : str) =>
                   match n with
                   | O => NoText
                   | _ => Translated (u "Hello")
                   end in
  translate_chunk answers (u "Bonjour") (u "fr") (Provider 0 [] [])
  = (Ok (u "Hello"), Provider 2 [400] [])
  /\ (0 <= 2 <= 0 + 3)%nat.
Proof.
  intros answers. split; [reflexivity|].
  exact (proj1 (translate_chunk_calls_bounded answers (u "Bonjour") (u "fr")
                  (Provider 0 [] []))).
Defined.

(** X4. When the language detector raises on a text that is not blank, the
    exception leaves [translate_text] unless its class is one the handler
    names: a [LangDetectException] propagates, a [ValueError] gives the
    text back with the flag 0 and a message.  The provider is not called
    in either case. *)
Theorem translate_text_detector_failure
    (detect : str -> result str)
    (translate : nat -> str -> str -> translation)
    (text : str) (p : provider) (e : exn) :
  strip text <> [] ->
  detect text = Raise e ->
  (existsb (is_a (exn_cls e)) [ConnectionError; TimeoutError; ValueError]
   = false ->
   translate_text detect translate text p = (Raise e, p))
  /\ (exn_cls e = LangDetectException ->
      translate_text detect translate text p = (Raise e, p))
  /\ (existsb (is_a (exn_cls e)) [ConnectionError; TimeoutError; ValueError]
      = true ->
      exists message,
        translate_text detect translate text p
        = (Ok (text, 0),
           Provider (calls p) (sleeps p) (messages p ++ [message]))).
Proof.
  intros Hblank Hd.
  assert (Hbody :
            translate_text detect translate text p
            = if existsb (is_a (exn_cls e))
                   [ConnectionError; TimeoutError; ValueError]
              then (Ok (text, 0),
                    Provider (calls p) (sleeps p)
                      (messages p
                       ++ [u "Translation failed due to network-related error or invalid input: "
                           ++ exn_msg e]))
              else (Raise e, p)).
  { unfold translate_text, try_except.
    rewrite bool_decide_eq_false_2 by exact Hblank.
    rewrite (FetchFacts.bind_raise _ _ p e p)
      by (unfold of_result; by rewrite Hd).
    cbn [find_handler].
    destruct (existsb (is_a (exn_cls e)) _); reflexivity. }
  split; [|split].
  - intros Hn. rewrite Hbody, Hn. reflexivity.
  - intros Hc. rewrite Hbody, Hc. reflexivity.
  - intros Hy. rewrite Hbody, Hy. eexists. reflexivity.
Qed.

Lemma translate_text_detector_failure_witness :
  let no_features := Exn LangDetectException (u "No features in text.") in
  strip (u "12345") <> []
  /\ translate_text (fun _ => Raise no_features) (fun _ _ _ => NoText)
       (u "12345") (Provider 0 [] [])
     = (Raise no_features, Provider 0 [] []).
Proof.
  intros no_features.
  assert (Hblank : strip (u "12345") <> []) by discriminate.
  split; [exact Hblank|].
  destruct (translate_text_detector_failure (fun _ => Raise no_features)
              (fun _ _ _ => NoText) (u "12345") (Provider 0 [] [])
              no_features Hblank eq_refl) as (_ & Hlang & _).
  apply Hlang. reflexivity.
Defined.

End RetryProperties.

(** ** Text assembly and timing context *)

Section SpeechExtraction.
Import Speech FetchFacts.

(** X5. A child that [gather_text] passes over (an EMPHAS run that is an
    attribution phrase or entirely parenthetical) contributes nothing:
    neither its own text nor the text that follows it up to the next
    child (its tail). *)
Theorem gather_text_drops_skipped_child
    (name : str) (attributes : list (str * str)) (content after : option str)
    (before : list element) (child : element) (rest : list element) :
  skipped child = true ->
  gather_text (Element name attributes content after
                 (before ++ child :: rest))
  = gather_text (Element name attributes content after (before ++ rest)).
Proof.
  intros Hskip. cbn [gather_text]. do 3 f_equal.
  induction before as [|b before IH].
  - simpl. rewrite Hskip. reflexivity.
  - simpl. destruct (skipped b); [exact IH|]. rewrite IH. reflexivity.
Qed.

Lemma gather_text_drops_skipped_child_witness :
  let applause :=
    Element (u "EMPHAS") [] (Some (u "(Applause)")) (Some (u "and so on")) [] in
  skipped applause = true
  /\ gather_text (Element (u "PARA") [] (Some (u "Thank you.")) None
                    [applause])
     = u "Thank you.".
Proof.
  intros applause.
  assert (Hs : skipped applause = true) by reflexivity.
  split; [exact Hs|].
  exact (gather_text_drops_skipped_child (u "PARA") []
           (Some (u "Thank you.")) None [] applause [] Hs).
Defined.

(** X6. Within a chapter, what precedes the first timing marker gives no
    record: with no timing context yet, elements other than NUMERO are
    passed over, interventions included. *)
Theorem elements_before_marker_are_dropped
    (topic : option str) (before rest : list element) (b : batch) :
  Forall (fun elem => tag elem <> u "NUMERO") before ->
  chapter_loop topic (before ++ rest) (None, None, None) b
  = chapter_loop topic rest (None, None, None) b.
Proof.
  induction 1 as [|elem before Htag _ IH]; [reflexivity|].
  change ((elem :: before) ++ rest) with (elem :: (before ++ rest)).
  cbn [chapter_loop].
  rewrite (bool_decide_eq_false_2 _ Htag). cbn [andb truthy].
  rewrite andb_false_r. exact IH.
Qed.

Lemma elements_before_marker_are_dropped_witness :
  let speech :=
    Element (u "INTERVENTION") [] None None
      [Element (u "PARA") [] (Some (u "Hello world.")) None []] in
  Forall (fun elem => tag elem <> u "NUMERO") [speech]
  /\ chapter_loop None [speech] (None, None, None) (Batch [] [] None)
     = (Ok tt, Batch [] [] None).
Proof.
  intros speech.
  assert (H : Forall (fun elem => tag elem <> u "NUMERO") [speech]).
  { constructor; [discriminate | constructor]. }
  split; [exact H|].
  exact (elements_before_marker_are_dropped None [speech] []
           (Batch [] [] None) H).
Defined.

End SpeechExtraction.

(** ** Speaker names *)

Module NameFacts.
Import Speech.

(** The separator of a display name, [" | "]. *)
Lemma sep_codes : u " | " = [32; 124; 32]%N.
Proof. reflexivity. Qed.

(** No cut where the second character is not the bar. *)
Lemma no_cut_here (c : N) (s : str) :
  match s with
  | d :: _ => d <> 124%N
  | [] => True
  end ->
  startswith [32; 124; 32]%N (c :: s) = false.
Proof.
  destruct s as [|d s]; intros Hd; cbn [startswith].
  - apply andb_false_r.
  - apply N.eqb_neq in Hd. rewrite N.eqb_sym in Hd. rewrite Hd.
    apply andb_false_r.
Qed.

(** A string without a bar is a single field. *)
Lemma split_go_single (b : str) :
  forall n acc,
    124%N ∉ b -> split_go [32; 124; 32]%N n 0 acc b = [rev acc ++ b].
Proof.
  induction b as [|c b IH]; intros n acc Hb.
  - simpl. by rewrite app_nil_r.
  - apply not_elem_of_cons in Hb as [Hc Hb].
    destruct n as [|n]; [reflexivity|].
    cbn [split_go]. rewrite no_cut_here.
    + rewrite IH by exact Hb. simpl. by rewrite <- app_assoc.
    + destruct b as [|d b]; [exact I|].
      apply not_elem_of_cons in Hb as [Hd _]. congruence.
Qed.

(** The first field ends at the first separator when no bar precedes
    it. *)
Lemma split_go_first (a rest : str) :
  forall n acc,
    124%N ∉ a ->
    split_go [32; 124; 32]%N (S n) 0 acc (a ++ [32; 124; 32]%N ++ rest)
    = (rev acc ++ a) :: split_go [32; 124; 32]%N n 0 [] rest.
Proof.
  induction a as [|c a IH]; intros n acc Ha.
  - rewrite app_nil_r. cbn [app split_go startswith length Nat.sub].
    rewrite !N.eqb_refl. cbn [andb].
    first [reflexivity | f_equal; destruct rest; reflexivity].
  - apply not_elem_of_cons in Ha as [Hc Ha].
    change ((c :: a) ++ [32; 124; 32]%N ++ rest)
      with (c :: (a ++ [32; 124; 32]%N ++ rest)).
    cbn [split_go]. rewrite no_cut_here.
    + rewrite IH by exact Ha. simpl. by rewrite <- app_assoc.
    + destruct a as [|d a]; [discriminate|].
      apply not_elem_of_cons in Ha as [Hd _]. simpl. congruence.
Qed.

Lemma contains_sep (a rest : str) :
  contains [32; 124; 32]%N (a ++ [32; 124; 32]%N ++ rest) = true.
Proof.
  induction a as [|c a IH].
  - reflexivity.
  - change ((c :: a) ++ [32; 124; 32]%N ++ rest)
      with (c :: (a ++ [32; 124; 32]%N ++ rest)).
    cbn [contains]. rewrite IH. apply orb_true_r.
Qed.

Lemma split_go_first_pos (a rest acc : str) n :
  (0 < n)%nat -> 124%N ∉ a ->
  split_go [32; 124; 32]%N n 0 acc (a ++ [32; 124; 32]%N ++ rest)
  = (rev acc ++ a) :: split_go [32; 124; 32]%N (pred n) 0 [] rest.
Proof.
  intros Hn Ha. destruct n as [|n]; [lia|]. apply split_go_first. exact Ha.
Qed.

Lemma split_two (a b : str) :
  124%N ∉ a -> 124%N ∉ b ->
  split (u " | ") (a ++ u " | " ++ b) = [a; b].
Proof.
  intros Ha Hb. rewrite sep_codes. unfold split, split_n.
  rewrite split_go_first_pos;
    [|rewrite !length_app; simpl; lia|exact Ha].
  rewrite split_go_single by exact Hb. reflexivity.
Qed.

Lemma split_three (a b c : str) :
  124%N ∉ a -> 124%N ∉ b -> 124%N ∉ c ->
  split (u " | ") (a ++ u " | " ++ b ++ u " | " ++ c) = [a; b; c].
Proof.
  intros Ha Hb Hc. rewrite sep_codes. unfold split, split_n.
  rewrite split_go_first_pos;
    [|rewrite !length_app; simpl; lia|exact Ha].
  rewrite split_go_first_pos;
    [|rewrite !length_app; simpl; lia|exact Hb].
  rewrite split_go_single by exact Hc. reflexivity.
Qed.

(** A display name with a separator is not the sentinel "NaN". *)
Lemma with_sep_not_nan (a rest : str) :
  a ++ u " | " ++ rest <> u "NaN".
Proof.
  intros H. assert (Hin : 124%N ∈ a ++ u " | " ++ rest).
  { apply elem_of_app. right. apply elem_of_app. left.
    rewrite sep_codes. apply list_elem_of_further, list_elem_of_here. }
  rewrite H in Hin. revert Hin.
  apply (bool_decide_eq_false_1 (124%N ∈ u "NaN")). reflexivity.
Qed.

(** [calculate_duration] does not raise. *)
Lemma calculate_duration_returns ts te :
  exists d, calculate_duration ts te = Ok d.
Proof.
  pose proof (DurationFacts.calculate_duration_cases ts te) as Hc.
  destruct (strptime (hd [] (split (u ".") ts)));
    destruct (strptime (hd [] (split (u ".") te))); eauto.
Qed.

End NameFacts.

Section SpeakerNames.
Import Speech NameFacts.

Lemma contains_sep_u (a rest : str) :
  contains (u " | ") (a ++ u " | " ++ rest) = true.
Proof. rewrite sep_codes. apply contains_sep. Qed.

(** X7. A display name "Last | First" (no bar inside either part) becomes the
    speaker name "Last First"; the other fields of the speaker come from
    the same ORATEUR element, "NaN" where an attribute is absent. *)
Theorem speaker_name_is_reordered
    (speech orateur : element) (date time_start time_end : str)
    (topic : option str) (last_name first_name : str) :
  find speech (u "ORATEUR") = Some orateur ->
  get_attr orateur (u "LIB") = Some (last_name ++ u " | " ++ first_name) ->
  124%N ∉ last_name -> 124%N ∉ first_name ->
  exists record,
    speech_parse speech date time_start time_end topic = Ok record
    /\ Speaker_Name record = last_name ++ u " " ++ first_name
    /\ MEPID record = get_or orateur (u "MEPID") (u "NaN")
    /\ Party record = get_or orateur (u "PP") (u "NaN")
    /\ Speaker_Type record = get_or orateur (u "SPEAKER_TYPE") (u "NaN").
Proof.
  intros Hfind Hlib Hl Hf.
  destruct (calculate_duration_returns time_start time_end) as [d Hd].
  assert (Hg : get_or orateur (u "LIB") (u "NaN")
               = last_name ++ u " | " ++ first_name)
    by (unfold get_or; rewrite Hlib; reflexivity).
  unfold speech_parse. rewrite Hfind, !Hg.
  rewrite (bool_decide_eq_true_2 _ (with_sep_not_nan last_name first_name)).
  rewrite contains_sep_u. cbn [andb].
  rewrite (split_two _ _ Hl Hf).
  cbn [mbind result_bind]. rewrite Hd.
  eexists. split; [reflexivity|]. repeat split.
Qed.

Lemma speaker_name_is_reordered_witness :
  let orateur :=
    Element (u "ORATEUR") [(u "LIB", u "Doe | Jane"); (u "PP", u "PPE")]
      None None [] in
  let speech := Element (u "INTERVENTION") [] None None [orateur] in
  (124%N ∉ u "Doe") /\ (124%N ∉ u "Jane")
  /\ exists record,
       speech_parse speech (u "2024-01-15") (u "12:00:00") (u "12:05:00")
         None = Ok record
       /\ Speaker_Name record = u "Doe Jane".
Proof.
  intros orateur speech.
  assert (H1 : 124%N ∉ u "Doe")
    by (apply (bool_decide_eq_false_1 (124%N ∈ u "Doe")); reflexivity).
  assert (H2 : 124%N ∉ u "Jane")
    by (apply (bool_decide_eq_false_1 (124%N ∈ u "Jane")); reflexivity).
  split; [exact H1|]. split; [exact H2|].
  destruct (speaker_name_is_reordered speech orateur (u "2024-01-15")
              (u "12:00:00") (u "12:05:00") None (u "Doe") (u "Jane")
              eq_refl eq_refl H1 H2) as (record & Hr & Hn & _).
  exists record. split; [exact Hr | exact Hn].
Defined.

(** X8. A display name with two separators ("A | B | C") makes
    [speech_parse] raise [ValueError]: the two-name unpacking fails. *)
Theorem speaker_name_with_three_parts_raises
    (speech orateur : element) (date time_start time_end : str)
    (topic : option str) (a b c : str) :
  find speech (u "ORATEUR") = Some orateur ->
  get_attr orateur (u "LIB") = Some (a ++ u " | " ++ b ++ u " | " ++ c) ->
  124%N ∉ a -> 124%N ∉ b -> 124%N ∉ c ->
  exists e,
    speech_parse speech date time_start time_end topic = Raise e
    /\ exn_cls e = ValueError.
Proof.
  intros Hfind Hlib Ha Hb Hc.
  assert (Hg : get_or orateur (u "LIB") (u "NaN")
               = a ++ u " | " ++ b ++ u " | " ++ c)
    by (unfold get_or; rewrite Hlib; reflexivity).
  unfold speech_parse. rewrite Hfind, !Hg.
  rewrite (bool_decide_eq_true_2 _
             (with_sep_not_nan a (b ++ u " | " ++ c))).
  rewrite contains_sep_u. cbn [andb].
  rewrite (split_three _ _ _ Ha Hb Hc).
  cbn [mbind result_bind]. eexists. split; reflexivity.
Qed.

Lemma speaker_name_with_three_parts_raises_witness :
  let orateur :=
    Element (u "ORATEUR") [(u "LIB", u "von | der | Leyen")] None None [] in
  let speech := Element (u "INTERVENTION") [] None None [orateur] in
  exists e,
    speech_parse speech (u "2024-01-15") (u "12:00:00") (u "12:05:00") None
    = Raise e
    /\ exn_cls e = ValueError.
Proof.
  intros orateur speech.
  assert (H1 : 124%N ∉ u "von")
    by (apply (bool_decide_eq_false_1 (124%N ∈ u "von")); reflexivity).
  assert (H2 : 124%N ∉ u "der")
    by (apply (bool_decide_eq_false_1 (124%N ∈ u "der")); reflexivity).
  assert (H3 : 124%N ∉ u "Leyen")
    by (apply (bool_decide_eq_false_1 (124%N ∈ u "Leyen")); reflexivity).
  exact (speaker_name_with_three_parts_raises speech orateur (u "2024-01-15")
           (u "12:00:00") (u "12:05:00") None (u "von") (u "der") (u "Leyen")
           eq_refl eq_refl H1 H2 H3).
Defined.

End SpeakerNames.

(** ** Vote batches *)

Module VoteBatchFacts.
Import Voting VoteBatch.

(** What the loop of [parse_votings] does with one file. *)
Lemma parse_votings_step (file : str * result element) (b : batch) :
  try_except
    (file_data ← of_result (parse_single_file file.2);
     modify (fun b => Batch (combined_data b ++ file_data) (printed b)
                            (output_file b)))
    [ ([ParseError],
       fun e => print_line (u "XML parsing error in file " ++ file.1
                              ++ u ": " ++ exn_msg e));
      ([OSError],
       fun e => print_line (u "File error with " ++ file.1
                              ++ u ": " ++ exn_msg e)) ] b
  = match parse_single_file file.2 with
    | Ok file_data =>
        (Ok tt, Batch (combined_data b ++ file_data) (printed b)
                  (output_file b))
    | Raise e =>
        if is_a (exn_cls e) ParseError
        then (Ok tt,
              Batch (combined_data b)
                (printed b ++ [u "XML parsing error in file " ++ file.1
                                 ++ u ": " ++ exn_msg e])
                (output_file b))
        else if is_a (exn_cls e) OSError
        then (Ok tt,
              Batch (combined_data b)
                (printed b ++ [u "File error with " ++ file.1
                                 ++ u ": " ++ exn_msg e])
                (output_file b))
        else (Raise e, b)
    end.
Proof.
  unfold try_except, mbind, M_bind, bind, of_result, modify, print_line.
  destruct (parse_single_file file.2) as [file_data|e]; [reflexivity|].
  cbn [find_handler existsb]. rewrite !orb_false_r.
  destruct (is_a (exn_cls e) ParseError); [reflexivity|].
  destruct (is_a (exn_cls e) OSError); reflexivity.
Qed.

(** The loop over files that parse or fail with a caught exception
    returns, having collected the contributions in order. *)
Lemma parse_votings_loop (files : directory) :
  Forall parses_or_is_caught files ->
  forall b,
    exists reports,
      for_each files (fun file =>
        try_except
          (file_data ← of_result (parse_single_file file.2);
           modify (fun b => Batch (combined_data b ++ file_data) (printed b)
                                  (output_file b)))
          [ ([ParseError],
             fun e => print_line (u "XML parsing error in file " ++ file.1
                                    ++ u ": " ++ exn_msg e));
            ([OSError],
             fun e => print_line (u "File error with " ++ file.1
                                    ++ u ": " ++ exn_msg e)) ]) b
      = (Ok tt,
         Batch (combined_data b ++ concat (contribution <$> files))
           (printed b ++ reports) (output_file b)).
Proof.
  induction 1 as [|file files Hfile _ IH]; intros b.
  - exists []. simpl. rewrite !app_nil_r. by destruct b.
  - cbn [for_each]. unfold bind at 1. rewrite parse_votings_step.
    unfold parses_or_is_caught in Hfile.
    cbn [fmap list_fmap concat]. unfold contribution at 1.
    destruct (parse_single_file file.2) as [file_data|e].
    + destruct (IH (Batch (combined_data b ++ file_data) (printed b)
                      (output_file b))) as [reports Hr].
      exists reports. rewrite Hr. cbn [combined_data printed output_file].
      by rewrite <- app_assoc.
    + destruct (is_a (exn_cls e) ParseError).
      * match goal with
        | |- context [for_each _ _ ?b'] => destruct (IH b') as [reports Hr]
        end.
        eexists. rewrite Hr. cbn [combined_data printed output_file].
        rewrite <- app_assoc. reflexivity.
      * simpl in Hfile. rewrite Hfile.
        match goal with
        | |- context [for_each _ _ ?b'] => destruct (IH b') as [reports Hr]
        end.
        eexists. rewrite Hr. cbn [combined_data printed output_file].
        rewrite <- app_assoc. reflexivity.
Qed.

Lemma for_each_app_ok {S A} (body : A -> M S unit) xs ys s s1 :
  for_each xs body s = (Ok tt, s1) ->
  for_each (xs ++ ys) body s = for_each ys body s1.
Proof.
  revert s. induction xs as [|x xs IH]; intros s; simpl.
  - by intros [= <-].
  - unfold bind. destruct (body x s) as [[[]|e] s2]; [apply IH|discriminate].
Qed.

End VoteBatchFacts.

Section VoteBatches.
Import Voting VoteBatch VoteBatchFacts.

(** X9. When every XML file of the directory parses or fails with a
    [ParseError] or an [OSError], [parse_votings] returns normally; the
    combined data are the records of the files that parse, in directory
    order, and the output is written exactly when there is a record. *)
Theorem parse_votings_collects (input_dir : directory) :
  Forall parses_or_is_caught (xml_files input_dir) ->
  let data := concat (contribution <$> xml_files input_dir) in
  exists reports last_line,
    parse_votings input_dir (Batch [] [] None)
    = (Ok tt,
       Batch data (reports ++ [last_line])
         (if bool_decide (data <> []) then Some data else None)).
Proof.
  intros Hall data. unfold parse_votings.
  destruct (parse_votings_loop _ Hall (Batch [] [] None)) as [reports Hr].
  rewrite (FetchFacts.bind_ok _ _ _ _ _ Hr).
  cbn [combined_data printed output_file app].
  fold data.
  rewrite (FetchFacts.bind_ok _ _ _ (Batch data reports None)
             (Batch data reports None)) by reflexivity.
  cbn [combined_data]. exists reports.
  destruct (bool_decide (data <> [])); eexists; reflexivity.
Qed.

Lemma parse_votings_collects_witness :
  let input_dir :=
    [ (u "notes.txt", Raise (Exn ParseError (u "not XML")));
      (u "broken.xml", Raise (Exn ParseError (u "syntax error")));
      (u "good.xml", Ok Samples.minimal_vote_document) ] in
  Forall parses_or_is_caught (xml_files input_dir)
  /\ exists record reports last_line,
       parse_votings input_dir (Batch [] [] None)
       = (Ok tt, Batch [record] (reports ++ [last_line]) (Some [record])).
Proof.
  intros input_dir.
  assert (Hall : Forall parses_or_is_caught (xml_files input_dir)).
  { repeat constructor. }
  split; [exact Hall|].
  destruct (parse_votings_collects input_dir Hall)
    as (reports & last_line & H).
  eexists. exists reports, last_line. exact H.
Defined.

(** X10. A file that fails with any other exception ends the batch there:
    the exception leaves [parse_votings], the files after it are not
    read, and no output is written, whatever the files before it
    contributed. *)
Theorem parse_votings_aborts_at_uncaught
    (input_dir before after : directory) (file : str * result element)
    (e : exn) :
  xml_files input_dir = before ++ file :: after ->
  Forall parses_or_is_caught before ->
  parse_single_file file.2 = Raise e ->
  is_a (exn_cls e) ParseError = false ->
  is_a (exn_cls e) OSError = false ->
  exists reports,
    parse_votings input_dir (Batch [] [] None)
    = (Raise e, Batch (concat (contribution <$> before)) reports None).
Proof.
  intros Hfiles Hbefore Hfile Hp Ho. unfold parse_votings.
  rewrite Hfiles.
  destruct (parse_votings_loop _ Hbefore (Batch [] [] None)) as [reports Hr].
  exists reports.
  erewrite FetchFacts.bind_raise; [reflexivity|].
  rewrite (for_each_app_ok _ _ _ _ _ Hr).
  cbn [for_each]. unfold bind at 1.
  rewrite parse_votings_step, Hfile, Hp, Ho. reflexivity.
Qed.

Lemma parse_votings_aborts_at_uncaught_witness :
  let input_dir :=
    [ (u "good.xml", Ok Samples.minimal_vote_document);
      (u "bad.xml", Ok Samples.vote_document_without_description);
      (u "later.xml", Ok Samples.minimal_vote_document) ] in
  exists e record reports,
    exn_cls e = AttributeError
    /\ parse_votings input_dir (Batch [] [] None)
       = (Raise e, Batch [record] reports None).
Proof.
  intros input_dir.
  destruct (parse_votings_aborts_at_uncaught input_dir
              [(u "good.xml", Ok Samples.minimal_vote_document)]
              [(u "later.xml", Ok Samples.minimal_vote_document)]
              (u "bad.xml", Ok Samples.vote_document_without_description)
              (Exn AttributeError
                 (u "'NoneType' object has no attribute 'text'"))
              eq_refl ltac:(repeat constructor) eq_refl eq_refl eq_refl)
    as [reports H].
  exists (Exn AttributeError (u "'NoneType' object has no attribute 'text'")).
  eexists. exists reports. split; [reflexivity | exact H].
Defined.

End VoteBatches.

(** ** Vote records *)

Section VoteRecords.
Import Voting.

Lemma mapM_result_Forall2 {A B} (f : A -> result B) (l : list A) ys :
  mapM f l = Ok ys -> Forall2 (fun x y => f x = Ok y) l ys.
Proof.
  revert ys. induction l as [|x l IH]; intros ys; cbn [mapM].
  - intros [= <-]. constructor.
  - cbn [mbind result_bind]. destruct (f x) as [y|] eqn:Hx; [|discriminate].
    destruct (mapM f l) as [k|]; [|discriminate].
    intros [= <-]. constructor; [exact Hx | apply IH; reflexivity].
Qed.

Lemma or_else_not_empty (value : option str) (fallback : str) :
  fallback <> [] -> or_else value fallback <> [].
Proof.
  intros Hf. unfold or_else. destruct value as [[|c s]|]; simpl; congruence.
Qed.

(** X11. Every record of a vote file carries the sitting date of the root
    element ("Unknown Date" when the attribute is absent), and its
    description, member id default and member name are filled in: the
    description and the name are never empty. *)
Theorem vote_records_are_filled_in (root : element)
    (file_data : list VoteRecord) :
  parse_single_file (Ok root) = Ok file_data ->
  Forall (fun record =>
            Date record = get_or root (u "Sitting.Date") (u "Unknown Date")
            /\ Description record <> []
            /\ Name record <> [])
         file_data.
Proof.
  unfold parse_single_file. cbn [mbind result_bind].
  match goal with
  | |- context [mapM ?f ?l] => destruct (mapM f l) as [groups|] eqn:Hm
  end; [|discriminate].
  intros [= <-]. apply mapM_result_Forall2 in Hm.
  apply Forall_concat.
  induction Hm as [|roll_call records rolls groups Hx _ IH];
    constructor; [|exact IH].
  destruct (find roll_call (u "RollCallVote.Description.Text"))
    as [node|]; [|discriminate].
  cbn [mbind result_bind] in Hx. injection Hx as <-.
  apply Forall_forall. intros record Hin.
  apply list_elem_of_bind in Hin as (result & Hin & _).
  apply list_elem_of_bind in Hin as (group & Hin & _).
  apply list_elem_of_bind in Hin as (member & Hin & _).
  apply list_elem_of_singleton in Hin. subst record. cbn.
  split; [reflexivity|].
  split; apply or_else_not_empty; discriminate.
Qed.

Lemma vote_records_are_filled_in_witness :
  exists record,
    parse_single_file (Ok Samples.minimal_vote_document) = Ok [record]
    /\ Date record = u "2024-01-15"
    /\ Description record <> []
    /\ Name record <> [].
Proof.
  eexists. split; [reflexivity|].
  pose proof (vote_records_are_filled_in Samples.minimal_vote_document _
                eq_refl) as H.
  apply Forall_cons in H as [H _]. exact H.
Defined.

End VoteRecords.

(** ** What a run requests and writes *)

Module RunFacts.
Import FetchFacts.

Lemma only_appends_for_each_in {A} Pq Pr (body : A -> M world unit) xs :
  (forall x, x ∈ xs -> only_appends Pq Pr (body x)) ->
  only_appends Pq Pr (for_each xs body).
Proof.
  induction xs as [|x xs IH]; intros Hbody.
  - apply only_appends_ret.
  - cbn [for_each]. apply only_appends_bind.
    + apply Hbody, list_elem_of_here.
    + intros _. apply IH. intros y Hy. apply Hbody, list_elem_of_further, Hy.
Qed.

Lemma only_appends_initialize Pq Pr :
  only_appends Pq Pr Speech.initialize_log.
Proof.
  unfold Speech.initialize_log.
  apply only_appends_bind; [apply only_appends_get|]. intros w.
  destruct (log_file w) as [file|]; [|apply only_appends_ret].
  apply only_appends_bind; [apply only_appends_of_result|]. intros df.
  destruct (_ || _); [|apply only_appends_ret].
  apply only_appends_bind; [apply only_appends_print|]. intros _.
  apply only_appends_ret.
Qed.

(** One step through a computation of the fetchers; [solver] proves what
    is asked of a request or of a row. *)
Ltac appends_step solver :=
  lazymatch goal with
  | |- only_appends _ _ (writerow _) => apply only_appends_writerow; solver
  | |- only_appends _ _ (Voting.save_log _ _ _) =>
      apply only_appends_writerow; solver
  | |- only_appends _ _ (requests_get _ _ _) =>
      apply only_appends_requests_get; solver
  | |- only_appends _ _ (write_file _ _ _) => apply only_appends_write_file
  | |- only_appends _ _ (Speech.save_speech_file _ _ _ _) =>
      apply only_appends_write_file
  | |- only_appends _ _ (mret _) => apply only_appends_ret
  | |- only_appends _ _ get => apply only_appends_get
  | |- only_appends _ _ open_append => apply only_appends_open
  | |- only_appends _ _ (of_result _) => apply only_appends_of_result
  | |- only_appends _ _ Speech.initialize_log =>
      apply only_appends_initialize
  | |- only_appends _ _ Voting.initialize_log =>
      apply only_appends_initialize
  | |- only_appends _ _ (try_except _ _) =>
      apply only_appends_try;
        [|repeat (apply List.Forall_cons; [intros ?; cbn [snd]|]);
          try apply List.Forall_nil]
  | |- only_appends _ _ (if ?b then _ else _) => destruct b
  | |- only_appends _ _ (let '(_, _) := ?p in _) => destruct p
  | |- only_appends _ _ (_ ≫= _) => apply only_appends_bind; [|intros ?]
  end.

End RunFacts.

Section RunProperties.
Import FetchFacts RunFacts.

Variable http_get : nat -> str -> http_outcome.
Variable write_fails : str -> option str.
Variables start_date end_date : Timestamp.

(** What a speech run may request and write. *)
Let speech_request (q : Timestamp * str) : Prop :=
  q.1 ∈ date_range start_date end_date
  /\ exists term, Speech.get_term q.1 = Some term
                  /\ q.2 = Speech.build_url term q.1.

Let vote_request (q : Timestamp * str) : Prop :=
  q.1 ∈ date_range start_date end_date
  /\ exists term, Voting.get_term q.1 = Some term
                  /\ q.2 = Voting.build_url_vote term q.1.

Let log_row (row : list str) : Prop :=
  row = HEADER
  \/ exists date status details,
       date ∈ date_range start_date end_date
       /\ row = [strftime date; status; details].

Ltac solve_row :=
  first
    [ left; reflexivity
    | right; do 3 eexists; split; [eassumption | reflexivity]
    | split; [assumption | eexists; split; [eassumption | reflexivity]] ].

Lemma handle_download_in_range date :
  date ∈ date_range start_date end_date ->
  only_appends speech_request log_row
    (Speech.handle_download http_get write_fails date (strftime date)).
Proof.
  intros Hin. unfold Speech.handle_download.
  destruct (Speech.get_term date) as [term|] eqn:Ht;
    cbn [Speech.not_term default]; repeat appends_step solve_row.
Qed.

Lemma fetch_date_in_range date :
  date ∈ date_range start_date end_date ->
  only_appends vote_request log_row
    (Voting.fetch_date http_get write_fails date (strftime date)).
Proof.
  intros Hin. unfold Voting.fetch_date.
  destruct (Voting.get_term date) as [term|] eqn:Ht;
    cbn [Voting.not_term default]; repeat appends_step solve_row.
Qed.

(** X12. When the log file, if there is one, ends with a line terminator,
    then whatever it holds and whatever the server and the disk do, a
    speech run only adds to the requests and to the log: every request
    goes to the URL built for a date of the requested range whose term
    resolves, and every row written is the header or a three-field row
    for a date of the range.  Lines already in the log are not changed. *)
Theorem download_speeches_stays_in_range (w : world) :
  log_unterminated w = false ->
  let w' := (Speech.download_speeches http_get write_fails
               start_date end_date w).2 in
  exists reqs rows,
    requests w' = requests w ++ reqs
    /\ default [] (log_file w') = default [] (log_file w) ++ rows
    /\ Forall (fun q : Timestamp * str =>
                 q.1 ∈ date_range start_date end_date
                 /\ exists term, Speech.get_term q.1 = Some term
                                 /\ q.2 = Speech.build_url term q.1) reqs
    /\ Forall (fun row : list str =>
                 row = HEADER
                 \/ exists date status details,
                      date ∈ date_range start_date end_date
                      /\ row = [strftime date; status; details]) rows.
Proof.
  intros Hw. cbv zeta.
  assert (Hrun : only_appends speech_request log_row
                   (Speech.download_speeches http_get write_fails
                      start_date end_date)).
  { unfold Speech.download_speeches.
    repeat appends_step solve_row.
    apply only_appends_for_each_in. intros date Hin.
    destruct (_ || _); [apply only_appends_ret|].
    apply handle_download_in_range. exact Hin. }
  exact (proj2 (Hrun w Hw)).
Qed.

(** X13. When the log file, if there is one, ends with a line terminator,
    then whatever it holds and whatever the server and the disk do, a
    voting run only adds to the requests and to the log: every request
    goes to the roll-call URL built for a date of the requested range
    whose term resolves, and every row written is the header or a
    three-field row for a date of the range.  Lines already in the log
    are not changed. *)
Theorem download_votings_stays_in_range (w : world) :
  log_unterminated w = false ->
  let w' := (Voting.download_votings http_get write_fails
               start_date end_date w).2 in
  exists reqs rows,
    requests w' = requests w ++ reqs
    /\ default [] (log_file w') = default [] (log_file w) ++ rows
    /\ Forall (fun q : Timestamp * str =>
                 q.1 ∈ date_range start_date end_date
                 /\ exists term, Voting.get_term q.1 = Some term
                                 /\ q.2 = Voting.build_url_vote term q.1) reqs
    /\ Forall (fun row : list str =>
                 row = HEADER
                 \/ exists date status details,
                      date ∈ date_range start_date end_date
                      /\ row = [strftime date; status; details]) rows.
Proof.
  intros Hw. cbv zeta.
  assert (Hrun : only_appends vote_request log_row
                   (Voting.download_votings http_get write_fails
                      start_date end_date)).
  { unfold Voting.download_votings.
    repeat appends_step solve_row.
    apply only_appends_for_each_in. intros date Hin.
    repeat appends_step solve_row.
    apply fetch_date_in_range. exact Hin. }
  exact (proj2 (Hrun w Hw)).
Qed.

End RunProperties.

Lemma download_speeches_stays_in_range_witness :
  let w := World (Some [HEADER; [u "2024-01-15"; u "Failed"; u "HTTP 500"]])
                 ∅ [] [] in
  let server := fun (_ : nat) (_ : str) => Response 404 [] in
  let disk := fun _ : str => @None str in
  let date := to_datetime 2024 1 15 in
  let w' := (Speech.download_speeches server disk date date w).2 in
  log_unterminated w = false
  /\ exists reqs rows,
       requests w' = requests w ++ reqs
       /\ default [] (log_file w') = default [] (log_file w) ++ rows
       /\ Forall (fun q : Timestamp * str => q.1 ∈ date_range date date) reqs.
Proof.
  intros w server disk date w'. split; [reflexivity|].
  destruct (download_speeches_stays_in_range server disk date date w eq_refl)
    as (reqs & rows & Hq & Hl & Fq & _).
  exists reqs, rows. split; [exact Hq|]. split; [exact Hl|].
  eapply Forall_impl; [exact Fq|]. intros q [Hin _]. exact Hin.
Defined.

Lemma download_votings_stays_in_range_witness :
  let w := World None ∅ [] [] in
  let server := fun (_ : nat) (_ : str) => RequestFails (u "timed out") in
  let disk := fun _ : str => @None str in
  let date := to_datetime 2024 1 15 in
  let w' := (Voting.download_votings server disk date date w).2 in
  log_unterminated w = false
  /\ exists reqs rows,
       requests w' = requests w ++ reqs
       /\ default [] (log_file w') = default [] (log_file w) ++ rows
       /\ Forall (fun q : Timestamp * str => q.1 ∈ date_range date date) reqs.
Proof.
  intros w server disk date w'. split; [reflexivity|].
  destruct (download_votings_stays_in_range server disk date date w eq_refl)
    as (reqs & rows & Hq & Hl & Fq & _).
  exists reqs, rows. split; [exact Hq|]. split; [exact Hl|].
  eapply Forall_impl; [exact Fq|]. intros q [Hin _]. exact Hin.
Defined.

(** ** Runs in normal form *)

Module NormalForm.
Import FetchFacts InvalidLogFacts Run.

(** A date found by the selection has a row with the status. *)
Lemma dates_with_status_sound header data status s x :
  dates_with_status (Frame header data) status = Ok s -> x ∈ s ->
  has_row (header :: data) x status.
Proof.
  unfold dates_with_status, select. cbn [columns rows].
  destruct (col_index (u "Status") header) as [i|] eqn:Hi; [|discriminate].
  destruct (col_index (u "Date") header) as [j|] eqn:Hj; [|discriminate].
  intros [= <-] Hx.
  apply elem_of_list_to_set, list_elem_of_omap in Hx as (row & Hrow & Hsel).
  case_bool_decide as Hst; [|discriminate].
  exists header, data, row, i, j. repeat split; assumption.
Qed.

(** What loading the log gives when there is no file or a rectangular
    one: a frame and the two sets of dates, which hold terminal dates
    only; the log file, the requests and the raw files are as before. *)
Lemma loaded_sets w :
  regular_log w ->
  exists df s1 s2 w0,
    Speech.initialize_log w = (Ok df, w0)
    /\ log_file w0 = log_file w
    /\ log_unterminated w0 = log_unterminated w
    /\ requests w0 = requests w
    /\ raw_files w0 = raw_files w
    /\ dates_with_status df (u "Success") = Ok s1
    /\ dates_with_status df (u "Not Found") = Ok s2
    /\ forall x, x ∈ s1 \/ x ∈ s2 -> terminal (log_file w) x.
Proof.
  intros Hreg. unfold regular_log in Hreg.
  destruct (log_file w) as [[|header data]|] eqn:Hf.
  - destruct (Hreg [] eq_refl).
  - pose proof (Hreg _ eq_refl) as Hrect.
    destruct (decide (u "Status" ∈ header)) as [Hs|Hs];
      [destruct (decide (u "Date" ∈ header)) as [Hd|Hd]|].
    + destruct (dates_with_status_ok header data (u "Success") Hs Hd)
        as [s1 H1].
      destruct (dates_with_status_ok header data (u "Not Found") Hs Hd)
        as [s2 H2].
      exists (Frame header data), s1, s2, w.
      split; [apply initialize_log_valid; assumption|].
      repeat split; try assumption.
      intros x [Hx|Hx]; exists (header :: data); (split; [reflexivity|]).
      * left. eapply dates_with_status_sound; eassumption.
      * right. eapply dates_with_status_sound; eassumption.
    + exists empty_log, ∅, ∅, (printed_invalid w).
      split; [apply (initialize_log_invalid w header data Hf Hrect); by right|].
      repeat split; try assumption.
      intros x [Hx|Hx]; exfalso; exact (not_elem_of_empty x Hx).
    + exists empty_log, ∅, ∅, (printed_invalid w).
      split; [apply (initialize_log_invalid w header data Hf Hrect); by left|].
      repeat split; try assumption.
      intros x [Hx|Hx]; exfalso; exact (not_elem_of_empty x Hx).
  - exists empty_log, ∅, ∅, w.
    split; [apply initialize_log_absent; exact Hf|].
    repeat split; try assumption.
    intros x [Hx|Hx]; exfalso; exact (not_elem_of_empty x Hx).
Qed.

(** Opening the log and writing the header when the file is empty. *)
Lemma open_and_header w :
  (open_append;;
   w' ← get;
   (if log_is_empty w' then writerow HEADER else mret tt)) w
  = (Ok tt, ready w).
Proof.
  destruct w as [[[|row file]|] raw reqs out [|]]; reflexivity.
Qed.

Lemma bind_assoc_run {S A B C} (m : M S A) (f : A -> M S B)
    (g : B -> M S C) s :
  ((m ≫= f) ≫= g) s = (m ≫= (fun a => f a ≫= g)) s.
Proof.
  unfold mbind, M_bind, bind. destruct (m s) as [[a|e] s1]; reflexivity.
Qed.

(** A speech run over no log or a rectangular one is the loop over the
    range, started in the ready world. *)
Lemma download_speeches_normal http_get write_fails start_date end_date w :
  regular_log w ->
  exists s1 s2 w0,
    Speech.download_speeches http_get write_fails start_date end_date w
    = skipping_loop (Speech.handle_download http_get write_fails) s1 s2
        (date_range start_date end_date) (ready w0)
    /\ log_file w0 = log_file w
    /\ log_unterminated w0 = log_unterminated w
    /\ requests w0 = requests w
    /\ raw_files w0 = raw_files w
    /\ forall x, x ∈ s1 \/ x ∈ s2 -> terminal (log_file w) x.
Proof.
  intros Hne.
  destruct (loaded_sets w Hne)
    as (df & s1 & s2 & w0 & Hinit & Hl & Hu & Hq & Hr & H1 & H2 & Hsound).
  exists s1, s2, w0. split; [|repeat split; assumption].
  unfold Speech.download_speeches.
  rewrite (bind_ok _ _ _ _ _ Hinit).
  rewrite (bind_ok _ _ w0 s1 w0) by (rewrite H1; reflexivity).
  rewrite (bind_ok _ _ w0 s2 w0) by (rewrite H2; reflexivity).
  pose proof (open_and_header w0) as Ho.
  unfold mbind, M_bind, bind in Ho |- *.
  destruct (open_append w0) as [[[]|e] o]; [|discriminate].
  cbn [get] in Ho |- *. unfold get in Ho |- *.
  destruct ((if log_is_empty o then writerow HEADER else mret tt) o)
    as [[[]|e] r]; [|discriminate].
  injection Ho as ->. reflexivity.
Qed.

(** The same for a voting run. *)
Lemma download_votings_normal http_get write_fails start_date end_date w :
  regular_log w ->
  exists s1 s2 w0,
    Voting.download_votings http_get write_fails start_date end_date w
    = skipping_loop (Voting.fetch_date http_get write_fails) s1 s2
        (date_range start_date end_date) (ready w0)
    /\ log_file w0 = log_file w
    /\ log_unterminated w0 = log_unterminated w
    /\ requests w0 = requests w
    /\ raw_files w0 = raw_files w
    /\ forall x, x ∈ s1 \/ x ∈ s2 -> terminal (log_file w) x.
Proof.
  intros Hne.
  destruct (loaded_sets w Hne)
    as (df & s1 & s2 & w0 & Hinit & Hl & Hu & Hq & Hr & H1 & H2 & Hsound).
  exists s1, s2, w0. split; [|repeat split; assumption].
  unfold Voting.download_votings. rewrite initialize_log_same.
  rewrite (bind_ok _ _ _ _ _ Hinit).
  pose proof (open_and_header w0) as Ho.
  unfold mbind, M_bind, bind in Ho |- *.
  destruct (open_append w0) as [[[]|e] o]; [|discriminate].
  unfold get in Ho |- *.
  destruct ((if log_is_empty o then writerow HEADER else mret tt) o)
    as [[[]|e] r]; [|discriminate].
  injection Ho as ->.
  apply for_each_ext. intros date s.
  unfold of_result. rewrite H1, H2.
  destruct (bool_decide (strftime date ∈ s1)); reflexivity.
Qed.

End NormalForm.

(** ** What a run leaves in the log *)

Module ResumeFacts.
Import FetchFacts InvalidLogFacts Run NormalForm.

Lemma skipping_loop_appends handle s1 s2 dates :
  (forall date date_str, only_appends any_request any_row (handle date date_str)) ->
  only_appends any_request any_row (skipping_loop handle s1 s2 dates).
Proof.
  intros Hh. unfold skipping_loop. apply only_appends_for_each. intros date.
  destruct (_ || _); [apply only_appends_ret | apply Hh].
Qed.

Lemma handle_download_any http_get write_fails date date_str :
  only_appends any_request any_row
    (Speech.handle_download http_get write_fails date date_str).
Proof.
  intros w. eapply appends_weaken; [| |apply handle_download_appends];
    intros; exact I.
Qed.

Lemma fetch_date_any http_get write_fails date date_str :
  only_appends any_request any_row
    (Voting.fetch_date http_get write_fails date date_str).
Proof.
  intros w. eapply appends_weaken; [| |apply fetch_date_appends];
    intros; exact I.
Qed.

(** The log file of the ready world. *)
Lemma ready_log_nonempty w header data :
  log_file w = Some (header :: data) ->
  log_file (ready w) = Some (header :: data).
Proof. intros Hf. unfold ready. rewrite Hf. reflexivity. Qed.

Lemma ready_log_absent w :
  log_file w = None -> log_file (ready w) = Some [HEADER].
Proof. intros Hf. unfold ready. rewrite Hf. reflexivity. Qed.

(** Appending keeps the header of a log that has one. *)
Lemma appends_header Pq Pr w w' header data :
  log_unterminated w = false ->
  log_file w = Some (header :: data) -> appends Pq Pr w w' ->
  log_unterminated w' = false
  /\ exists rows, log_file w' = Some (header :: data ++ rows)
                  /\ Forall Pr rows.
Proof.
  intros Hw Hf Happ.
  destruct (Happ Hw) as (Hw' & reqs & rows & _ & Hl & _ & Fr).
  rewrite Hf in Hl. simpl in Hl.
  split; [exact Hw'|].
  exists rows. split; [|exact Fr].
  destruct (log_file w') as [file|]; simpl in Hl;
    [by subst | discriminate].
Qed.

(** A terminal date has a header with both columns. *)
Lemma terminal_header header data x :
  terminal (Some (header :: data)) x ->
  u "Status" ∈ header /\ u "Date" ∈ header.
Proof.
  intros (file & [= <-] & [H|H]);
    destruct H as (h & d & row & i & j & [= <- <-] & _ & Hi & Hj & _);
    split; eapply col_index_Some; eassumption.
Qed.

(** A row of the standard shape makes its date terminal in a log with the
    standard header. *)
Lemma standard_row_terminal data date_str status details :
  status = u "Success" \/ status = u "Not Found" ->
  terminal (Some (HEADER :: data ++ [[date_str; status; details]])) date_str.
Proof.
  intros Hst. eexists. split; [reflexivity|].
  assert (Hrow : has_row (HEADER :: data ++ [[date_str; status; details]])
                   date_str status).
  { exists HEADER, (data ++ [[date_str; status; details]]),
      [date_str; status; details], 1%nat, 0%nat.
    repeat split; try reflexivity.
    apply elem_of_app. right. apply list_elem_of_here. }
  destruct Hst as [->| ->]; [left|right]; exact Hrow.
Qed.

(** The terms are 9 and 10, so [not term] is false for a date with a
    term. *)
Lemma speech_term_known date t :
  Speech.get_term date = Some t -> Speech.not_term (Some t) = false.
Proof.
  intros Ht.
  unfold Speech.get_term, Speech.get_term_in, Speech.date_ranges in Ht.
  repeat match type of Ht with
         | (if ?c then _ else _) = _ => destruct c
         end; inversion Ht; reflexivity.
Qed.

Lemma vote_term_known date t :
  Voting.get_term date = Some t -> Voting.not_term (Some t) = false.
Proof.
  intros Ht.
  unfold Voting.get_term, Voting.get_term_in, Voting.date_ranges in Ht.
  repeat match type of Ht with
         | (if ?c then _ else _) = _ => destruct c
         end; inversion Ht; reflexivity.
Qed.

(** In a loop whose body always returns and only appends, a date of the
    list that its own iteration makes terminal is terminal at the end. *)
Lemma for_each_reaches (body : Timestamp -> M world unit) date x xs :
  (forall d s, (body d s).1 = Ok tt) ->
  (forall d, only_appends any_request any_row (body d)) ->
  (forall s data, log_unterminated s = false ->
                  log_file s = Some (HEADER :: data) ->
                  terminal (log_file (body date s).2) x) ->
  date ∈ xs ->
  forall s data, log_unterminated s = false ->
                 log_file s = Some (HEADER :: data) ->
                 terminal (log_file (for_each xs body s).2) x.
Proof.
  intros Hret Happ Hdate. induction xs as [|d xs IH]; intros Hin s data Hw Hf.
  - by apply elem_of_nil in Hin.
  - cbn [for_each]. unfold bind.
    pose proof (Hret d s) as Hr. pose proof (Happ d s) as Ha.
    destruct (appends_header _ _ _ _ _ _ Hw Hf Ha) as (Hw1 & rows & Hf1 & _).
    destruct (decide (date = d)) as [<-|Hne].
    + specialize (Hdate s data Hw Hf).
      destruct (body date s) as [[[]|e] s1]; simpl in *; [|discriminate].
      eapply terminal_appends; [exact Hw1 | exact Hdate|].
      apply (for_each_appends any_request any_row); intros; apply Happ.
    + apply elem_of_cons in Hin as [Heq|Hin]; [contradiction|].
      destruct (body d s) as [[[]|e] s1]; simpl in *; [|discriminate].
      eapply IH; eassumption.
Qed.

(** The same for the loop of a run, where the dates of the two sets are
    passed over: those are terminal from the start. *)
Lemma skipping_loop_reaches handle s1 s2 date dates s0 data0 :
  (forall d ds s, (handle d ds s).1 = Ok tt) ->
  (forall d ds, only_appends any_request any_row (handle d ds)) ->
  (forall s data, log_unterminated s = false ->
     log_file s = Some (HEADER :: data) ->
     terminal (log_file (handle date (strftime date) s).2) (strftime date)) ->
  (forall x, x ∈ s1 \/ x ∈ s2 -> terminal (log_file s0) x) ->
  date ∈ dates ->
  log_unterminated s0 = false ->
  log_file s0 = Some (HEADER :: data0) ->
  terminal (log_file (skipping_loop handle s1 s2 dates s0).2) (strftime date).
Proof.
  intros Hret Happ Hdate Hsets Hin Hw Hf.
  destruct (bool_decide (strftime date ∈ s1)
            || bool_decide (strftime date ∈ s2)) eqn:Hskip.
  - eapply terminal_appends;
      [exact Hw | |apply skipping_loop_appends; exact Happ].
    apply Hsets. apply orb_true_iff in Hskip as [H|H];
      apply bool_decide_eq_true in H; [by left | by right].
  - unfold skipping_loop.
    eapply (for_each_reaches _ date); [| | |exact Hin|exact Hw|exact Hf].
    + intros d s. destruct (bool_decide (strftime d ∈ s1) || _);
        [reflexivity | apply Hret].
    + intros d. destruct (bool_decide (strftime d ∈ s1) || _);
        [apply only_appends_ret | apply Happ].
    + intros s data Hws Hs. rewrite Hskip. eapply Hdate; eassumption.
Qed.

(** The loop of a run returns when handling a date does. *)
Lemma skipping_loop_returns handle s1 s2 dates s0 :
  (forall d ds s, (handle d ds s).1 = Ok tt) ->
  (skipping_loop handle s1 s2 dates s0).1 = Ok tt.
Proof.
  intros Hret. unfold skipping_loop. apply for_each_returns.
  intros d s. destruct (_ || _); [reflexivity | apply Hret].
Qed.

(** The ready world of a log that ends with a line terminator does
    too. *)
Lemma ready_terminated w :
  log_unterminated w = false -> log_unterminated (ready w) = false.
Proof.
  intros Hw. unfold ready. cbn [log_unterminated].
  destruct (bool_decide _); [reflexivity | exact Hw].
Qed.

(** The ready world of a log that is absent or has the standard header. *)
Lemma ready_standard w :
  standard_log w ->
  log_unterminated (ready w) = false
  /\ exists data, log_file (ready w) = Some (HEADER :: data).
Proof.
  intros [Hw Hlog]. split; [apply ready_terminated; exact Hw|].
  destruct Hlog as [Hf|(data & Hf & _)].
  - exists []. apply ready_log_absent. exact Hf.
  - exists data. apply ready_log_nonempty. exact Hf.
Qed.

(** A standard log is absent or rectangular. *)
Lemma standard_regular w : standard_log w -> regular_log w.
Proof.
  intros [_ [Hf|(data & Hf & Hall)]] file Hfile.
  - congruence.
  - assert (file = HEADER :: data) as -> by congruence.
    apply three_fields_rectangular. constructor; [reflexivity | exact Hall].
Qed.

(** A date that is terminal in the log is terminal in the ready world. *)
Lemma ready_terminal w x :
  terminal (log_file w) x -> terminal (log_file (ready w)) x.
Proof.
  intros Ht. pose proof Ht as (file & Hf & Hrow).
  destruct file as [|header data].
  - destruct Hrow as [(? & ? & ? & ? & ? & [=] & _)|(? & ? & ? & ? & ? & [=] & _)].
  - rewrite (ready_log_nonempty w header data Hf), <- Hf. exact Ht.
Qed.

End ResumeFacts.

Section ResumeProperties.
Import FetchFacts InvalidLogFacts Run NormalForm ResumeFacts.

Variable http_get : nat -> str -> http_outcome.
Variable write_fails : str -> option str.

(** What handling a date does when the server answers 404, or answers
    200 and the raw file can be written. *)
Lemma fetch_date_answered date t s data :
  Voting.get_term date = Some t ->
  log_unterminated s = false ->
  log_file s = Some (HEADER :: data) ->
  (exists text,
     http_get (length (requests s)) (Voting.build_url_vote t date)
       = Response 404 text
     \/ (http_get (length (requests s)) (Voting.build_url_vote t date)
           = Response 200 text
         /\ write_fails (vote_path t date) = None)) ->
  terminal
    (log_file (Voting.fetch_date http_get write_fails date (strftime date) s).2)
    (strftime date).
Proof.
  intros Ht Hu Hf (text & Hans).
  unfold Voting.fetch_date. rewrite Ht, (vote_term_known date t Ht).
  cbn [from_option id]. unfold_fetch. cbv beta iota.
  destruct Hans as [H404|[H200 Hw]].
  - rewrite H404. change (404 =? 200) with false.
    change (404 =? 404) with true. cbv beta iota.
    cbn [snd log_file log_unterminated].
    rewrite Hf, Hu. apply standard_row_terminal. by right.
  - rewrite H200. change (200 =? 200) with true. cbv beta iota.
    unfold vote_path in Hw. rewrite Hw. cbv beta iota.
    cbn [snd log_file log_unterminated].
    rewrite Hf, Hu. apply standard_row_terminal. by left.
Qed.

Lemma handle_download_answered date t s data :
  Speech.get_term date = Some t ->
  log_unterminated s = false ->
  log_file s = Some (HEADER :: data) ->
  (forall path, write_fails path = None) ->
  (exists text,
     http_get (length (requests s)) (Speech.build_url t date)
       = Response 404 text
     \/ http_get (length (requests s)) (Speech.build_url t date)
          = Response 200 text) ->
  terminal
    (log_file
       (Speech.handle_download http_get write_fails date (strftime date) s).2)
    (strftime date).
Proof.
  intros Ht Hu Hf Hdisk (text & Hans).
  unfold Speech.handle_download. rewrite Ht, (speech_term_known date t Ht).
  cbn [from_option id]. unfold_fetch. cbv beta iota.
  destruct Hans as [H404|H200].
  - rewrite H404. change (404 =? 200) with false.
    change (404 =? 404) with true. cbv beta iota.
    cbn [snd log_file log_unterminated].
    rewrite Hf, Hu. apply standard_row_terminal. by right.
  - rewrite H200. change (200 =? 200) with true. cbv beta iota.
    rewrite Hdisk. cbv beta iota. cbn [snd log_file log_unterminated].
    rewrite Hf, Hu. apply standard_row_terminal. by left.
Qed.

(** X14. [download_votings].  In a run over a log as the fetchers leave
    it (no file yet, or the header Date,Status,Details followed by rows
    of three fields, the last line ended by its terminator), a date of
    the range that has a term and for which the server answers 404, or
    answers 200 while the raw file can be written, is terminal in the log
    the run leaves, and the run returns. *)
Theorem answered_vote_date_becomes_terminal
    (start_date end_date date : Timestamp) (t : Z) (w : world) :
  standard_log w ->
  date ∈ date_range start_date end_date ->
  Voting.get_term date = Some t ->
  (forall n, exists text,
     http_get n (Voting.build_url_vote t date) = Response 404 text
     \/ (http_get n (Voting.build_url_vote t date) = Response 200 text
         /\ write_fails (vote_path t date) = None)) ->
  let run := Voting.download_votings http_get write_fails start_date end_date w
  in run.1 = Ok tt /\ terminal (log_file run.2) (strftime date).
Proof.
  intros Hlog Hin Ht Hserver run. subst run.
  destruct (download_votings_normal http_get write_fails start_date end_date
              w (standard_regular w Hlog))
    as (s1 & s2 & w0 & -> & Hl & Hu & _ & _ & Hsets).
  assert (Hlog0 : standard_log w0).
  { destruct Hlog as [Hw Hfile]. split; [congruence|].
    rewrite Hl. exact Hfile. }
  rewrite <- Hl in Hsets.
  destruct (ready_standard w0 Hlog0) as (Hready & data0 & Hfile).
  split.
  - apply skipping_loop_returns. intros d ds s. apply fetch_date_returns.
  - eapply skipping_loop_reaches;
      [| | | |exact Hin|exact Hready|exact Hfile].
    + intros d ds s. apply fetch_date_returns.
    + intros d ds. apply fetch_date_any.
    + intros s data Hws Hs.
      eapply fetch_date_answered; [exact Ht|exact Hws|exact Hs|].
      apply Hserver.
    + intros x Hx. apply ready_terminal, Hsets, Hx.
Qed.

(** X15. [download_speeches].  When no raw file fails to be written, a
    run over a log as the fetchers leave it (no file yet, or the header
    Date,Status,Details followed by rows of three fields, the last line
    ended by its terminator) returns, and a date of the range that has a
    term and for which the server answers 404 or 200 is terminal in the
    log the run leaves. *)
Theorem answered_speech_date_becomes_terminal
    (start_date end_date date : Timestamp) (t : Z) (w : world) :
  standard_log w ->
  (forall path, write_fails path = None) ->
  date ∈ date_range start_date end_date ->
  Speech.get_term date = Some t ->
  (forall n, exists text,
     http_get n (Speech.build_url t date) = Response 404 text
     \/ http_get n (Speech.build_url t date) = Response 200 text) ->
  let run := Speech.download_speeches http_get write_fails start_date end_date w
  in run.1 = Ok tt /\ terminal (log_file run.2) (strftime date).
Proof.
  intros Hlog Hdisk Hin Ht Hserver run. subst run.
  destruct (download_speeches_normal http_get write_fails start_date end_date
              w (standard_regular w Hlog))
    as (s1 & s2 & w0 & -> & Hl & Hu & _ & _ & Hsets).
  assert (Hlog0 : standard_log w0).
  { destruct Hlog as [Hw Hfile]. split; [congruence|].
    rewrite Hl. exact Hfile. }
  rewrite <- Hl in Hsets.
  destruct (ready_standard w0 Hlog0) as (Hready & data0 & Hfile).
  split.
  - apply skipping_loop_returns. intros d ds s.
    apply handle_download_returns, Hdisk.
  - eapply skipping_loop_reaches;
      [| | | |exact Hin|exact Hready|exact Hfile].
    + intros d ds s. apply handle_download_returns, Hdisk.
    + intros d ds. apply handle_download_any.
    + intros s data Hws Hs.
      eapply handle_download_answered;
        [exact Ht|exact Hws|exact Hs|exact Hdisk|].
      apply Hserver.
    + intros x Hx. apply ready_terminal, Hsets, Hx.
Qed.

(** X16. [download_votings].  A run over a log that is rectangular (no
    line is blank and every line has as many fields as the header), or
    with no log file yet, returns, whatever the server answers and
    whichever writes fail: every failure of a date is caught and
    logged. *)
Theorem download_votings_returns (start_date end_date : Timestamp)
    (w : world) :
  regular_log w ->
  (Voting.download_votings http_get write_fails start_date end_date w).1
  = Ok tt.
Proof.
  intros Hreg.
  destruct (download_votings_normal http_get write_fails start_date end_date
              w Hreg) as (s1 & s2 & w0 & -> & _).
  apply skipping_loop_returns. intros d ds s. apply fetch_date_returns.
Qed.

(** X17. [initialize_log], [download_speeches], [download_votings].  A
    log file of size 0 makes both runs raise [EmptyDataError] before
    anything is requested or written. *)
Theorem empty_log_file_aborts_run (start_date end_date : Timestamp)
    (w : world) :
  log_file w = Some [] ->
  let e := Exn EmptyDataError (u "No columns to parse from file") in
  Speech.download_speeches http_get write_fails start_date end_date w
  = (Raise e, w)
  /\ Voting.download_votings http_get write_fails start_date end_date w
     = (Raise e, w).
Proof.
  intros Hf e.
  assert (Hinit : Speech.initialize_log w = (Raise e, w)).
  { unfold Speech.initialize_log.
    rewrite (bind_ok _ _ w w w) by reflexivity. rewrite Hf. reflexivity. }
  split.
  - unfold Speech.download_speeches. apply bind_raise. exact Hinit.
  - unfold Voting.download_votings. rewrite initialize_log_same.
    apply bind_raise. exact Hinit.
Qed.

(** X18. [initialize_log], [download_speeches], [download_votings].  A
    run over a rectangular log that ends with a line terminator and
    whose header lacks [Status] or [Date] leaves the file with its header
    and its lines, the rows of the run appended below them; in that log
    no date is terminal, whatever was fetched. *)
Theorem invalid_log_never_resumes (start_date end_date : Timestamp)
    (w : world) (header : list str) (data : list (list str)) :
  log_file w = Some (header :: data) ->
  rectangular (header :: data) ->
  log_unterminated w = false ->
  u "Status" ∉ header \/ u "Date" ∉ header ->
  let speech :=
    (Speech.download_speeches http_get write_fails start_date end_date w).2 in
  let voting :=
    (Voting.download_votings http_get write_fails start_date end_date w).2 in
  (exists rows, log_file speech = Some (header :: data ++ rows))
  /\ (exists rows, log_file voting = Some (header :: data ++ rows))
  /\ forall x, ~ terminal (log_file speech) x /\ ~ terminal (log_file voting) x.
Proof.
  intros Hf Hrect Hw Hbad speech voting.
  assert (Hreg : regular_log w).
  { intros file Hfile. congruence. }
  assert (Hkeep : forall handle s1 s2 dates w0,
            log_file w0 = log_file w ->
            log_unterminated w0 = log_unterminated w ->
            (forall d ds, only_appends any_request any_row (handle d ds)) ->
            exists rows,
              log_file (skipping_loop handle s1 s2 dates (ready w0)).2
              = Some (header :: data ++ rows)).
  { intros handle s1 s2 dates w0 Hl Hu Happ.
    rewrite Hf in Hl.
    pose proof (ready_log_nonempty w0 header data Hl) as Hready.
    assert (Hw0 : log_unterminated (ready w0) = false)
      by (apply ready_terminated; congruence).
    destruct (appends_header _ _ _ _ _ _ Hw0 Hready
                (skipping_loop_appends handle s1 s2 dates Happ (ready w0)))
      as (_ & rows & Hrows & _).
    exists rows. exact Hrows. }
  assert (Hno : forall rows x,
            ~ terminal (Some (header :: data ++ rows)) x).
  { intros rows x Hterm. apply terminal_header in Hterm as [Hs Hd].
    destruct Hbad; contradiction. }
  assert (Hs : exists rows, log_file speech = Some (header :: data ++ rows)).
  { subst speech.
    destruct (download_speeches_normal http_get write_fails start_date
                end_date w Hreg) as (s1 & s2 & w0 & -> & Hl & Hu & _).
    apply Hkeep; [exact Hl|exact Hu|]. intros d ds. apply handle_download_any. }
  assert (Hv : exists rows, log_file voting = Some (header :: data ++ rows)).
  { subst voting.
    destruct (download_votings_normal http_get write_fails start_date
                end_date w Hreg) as (s1 & s2 & w0 & -> & Hl & Hu & _).
    apply Hkeep; [exact Hl|exact Hu|]. intros d ds. apply fetch_date_any. }
  split; [exact Hs|]. split; [exact Hv|].
  intros x. destruct Hs as [rs ->], Hv as [rv ->]. split; apply Hno.
Qed.

(** X19. [handle_download], [save_speech_file].  When the server answers
    200 and the raw file cannot be written, handling the date in the
    speech module raises the [OSError]: the request is recorded and no
    row is written to the log. *)
Theorem speech_write_failure_is_raised (date : Timestamp) (t : Z)
    (text message : str) (w : world) :
  Speech.get_term date = Some t ->
  http_get (length (requests w)) (Speech.build_url t date)
    = Response 200 text ->
  write_fails (speech_path t date) = Some message ->
  Speech.handle_download http_get write_fails date (strftime date) w
  = (Raise (Exn OSError message),
     requested date (Speech.build_url t date) w).
Proof.
  intros Ht Hget Hw.
  unfold Speech.handle_download. rewrite Ht, (speech_term_known date t Ht).
  cbn [from_option id]. unfold_fetch. cbv beta iota.
  rewrite Hget. change (200 =? 200) with true. cbv beta iota.
  unfold speech_path in Hw. rewrite Hw. reflexivity.
Qed.

(** X20. [download_votings].  When the server answers 200 and the raw
    file cannot be written, handling the date in the voting module
    catches the [OSError]: the request is recorded, the date gets a
    [File Error] row with the message, and handling the date returns. *)
Theorem vote_write_failure_is_logged (date : Timestamp) (t : Z)
    (text message : str) (w : world) :
  Voting.get_term date = Some t ->
  http_get (length (requests w)) (Voting.build_url_vote t date)
    = Response 200 text ->
  write_fails (vote_path t date) = Some message ->
  Voting.fetch_date http_get write_fails date (strftime date) w
  = (Ok tt,
     logged [strftime date; u "File Error"; message]
       (requested date (Voting.build_url_vote t date) w)).
Proof.
  intros Ht Hget Hw.
  unfold Voting.fetch_date. rewrite Ht, (vote_term_known date t Ht).
  cbn [from_option id]. unfold_fetch. cbv beta iota.
  rewrite Hget. change (200 =? 200) with true. cbv beta iota.
  unfold vote_path in Hw. rewrite Hw. reflexivity.
Qed.

End ResumeProperties.


Lemma answered_vote_date_becomes_terminal_witness :
  let w := World None ∅ [] [] in
  let server := fun (_ : nat) (_ : str) => Response 404 [] in
  let disk := fun _ : str => @None str in
  let date := to_datetime 2024 1 15 in
  Run.standard_log w
  /\ date ∈ date_range date (date + 1)
  /\ Voting.get_term date = Some 9
  /\ terminal
       (log_file (Voting.download_votings server disk date (date + 1) w).2)
       (strftime date).
Proof.
  intros w server disk date.
  assert (Hlog : Run.standard_log w) by (split; [reflexivity | by left]).
  assert (Hin : date ∈ date_range date (date + 1))
    by apply list_elem_of_here.
  assert (Ht : Voting.get_term date = Some 9) by reflexivity.
  split; [exact Hlog|]. split; [exact Hin|]. split; [exact Ht|].
  destruct (answered_vote_date_becomes_terminal server disk date (date + 1)
              date 9 w Hlog Hin Ht
              (fun _ => ex_intro _ [] (or_introl eq_refl)))
    as [_ Hterm].
  exact Hterm.
Defined.

Lemma answered_speech_date_becomes_terminal_witness :
  let w := World (Some [HEADER; [u "2024-01-15"; u "Failed"; u "HTTP 500"]])
                 ∅ [] [] in
  let server := fun (_ : nat) (_ : str) => Response 200 (u "<doc/>") in
  let disk := fun _ : str => @None str in
  let date := to_datetime 2024 1 15 in
  Run.standard_log w
  /\ date ∈ date_range date (date + 1)
  /\ Speech.get_term date = Some 9
  /\ terminal
       (log_file (Speech.download_speeches server disk date (date + 1) w).2)
       (strftime date).
Proof.
  intros w server disk date.
  assert (Hin : date ∈ date_range date (date + 1))
    by apply list_elem_of_here.
  assert (Ht : Speech.get_term date = Some 9) by reflexivity.
  assert (Hlog : Run.standard_log w).
  { split; [reflexivity|]. right. eexists. split; [reflexivity|].
    repeat constructor. }
  split; [exact Hlog|]. split; [exact Hin|]. split; [exact Ht|].
  destruct (answered_speech_date_becomes_terminal server disk date (date + 1)
              date 9 w Hlog
              (fun _ => eq_refl) Hin Ht
              (fun _ => ex_intro _ (u "<doc/>") (or_intror eq_refl)))
    as [_ Hterm].
  exact Hterm.
Defined.

Lemma download_votings_returns_witness :
  let w := World (Some [[u "Date"; u "Status"; u "Details"];
                        [u "2024-01-15"; u "Failed"; u "HTTP 500"]])
                 ∅ [] [] in
  let server := fun (_ : nat) (_ : str) => RequestFails (u "timed out") in
  let disk := fun _ : str => Some (u "disk full") in
  let date := to_datetime 2024 1 15 in
  regular_log w
  /\ (Voting.download_votings server disk date (date + 1) w).1 = Ok tt.
Proof.
  intros w server disk date.
  assert (Hreg : regular_log w).
  { intros file [= <-]. repeat constructor. }
  split; [exact Hreg|].
  exact (download_votings_returns server disk date (date + 1) w Hreg).
Defined.

Lemma empty_log_file_aborts_run_witness :
  let w := World (Some []) ∅ [] [] in
  let server := fun (_ : nat) (_ : str) => Response 404 [] in
  let disk := fun _ : str => @None str in
  let date := to_datetime 2024 1 15 in
  Voting.download_votings server disk date date w
  = (Raise (Exn EmptyDataError (u "No columns to parse from file")), w).
Proof.
  intros w server disk date.
  destruct (empty_log_file_aborts_run server disk date date w eq_refl)
    as [_ Hv].
  exact Hv.
Defined.

Lemma invalid_log_never_resumes_witness :
  let header := [u "Day"; u "Outcome"; u "Note"] in
  let data := [[u "2024-01-15"; u "Success"; u "Downloaded"]] in
  let w := World (Some (header :: data)) ∅ [] [] in
  let server := fun (_ : nat) (_ : str) => Response 404 [] in
  let disk := fun _ : str => @None str in
  let date := to_datetime 2024 1 15 in
  rectangular (header :: data)
  /\ (u "Status" ∉ header \/ u "Date" ∉ header)
  /\ (exists rows,
        log_file (Voting.download_votings server disk date date w).2
        = Some (header :: data ++ rows))
  /\ ~ terminal
         (log_file (Voting.download_votings server disk date date w).2)
         (strftime date).
Proof.
  intros header data w server disk date.
  assert (Hrect : rectangular (header :: data)) by (repeat constructor).
  assert (Hbad : u "Status" ∉ header \/ u "Date" ∉ header).
  { left. apply (bool_decide_eq_false_1 (u "Status" ∈ header)).
    reflexivity. }
  split; [exact Hrect|]. split; [exact Hbad|].
  destruct (invalid_log_never_resumes server disk date date w
              header data eq_refl Hrect eq_refl Hbad)
    as (_ & Hv & Hno).
  split; [exact Hv|]. exact (proj2 (Hno (strftime date))).
Defined.

Lemma speech_write_failure_is_raised_witness :
  let w := World (Some [HEADER]) ∅ [] [] in
  let server := fun (_ : nat) (_ : str) => Response 200 (u "<doc/>") in
  let disk := fun _ : str => Some (u "disk full") in
  let date := to_datetime 2024 1 15 in
  Speech.handle_download server disk date (strftime date) w
  = (Raise (Exn OSError (u "disk full")),
     Run.requested date (Speech.build_url 9 date) w).
Proof.
  intros w server disk date.
  exact (speech_write_failure_is_raised server disk date 9 (u "<doc/>")
           (u "disk full") w eq_refl eq_refl eq_refl).
Defined.

Lemma vote_write_failure_is_logged_witness :
  let w := World (Some [HEADER]) ∅ [] [] in
  let server := fun (_ : nat) (_ : str) => Response 200 (u "<doc/>") in
  let disk := fun _ : str => Some (u "disk full") in
  let date := to_datetime 2024 1 15 in
  Voting.fetch_date server disk date (strftime date) w
  = (Ok tt,
     Run.logged [strftime date; u "File Error"; u "disk full"]
       (Run.requested date (Voting.build_url_vote 9 date) w)).
Proof.
  intros w server disk date.
  exact (vote_write_failure_is_logged server disk date 9 (u "<doc/>")
           (u "disk full") w eq_refl eq_refl eq_refl).
Defined.
